(** * LingoPop: lookup orchestration, speech cache, audio decoding, notebook

    A shallow embedding of the application's own logic:

    - [services/geminiService.ts]: [lookupWord], [generateConceptImage],
      [generateSpeech] and the module-level [ttsCache], [sendChatMessage],
      [generateStory];
    - [services/audioUtils.ts]: [decodeBase64], [decodeAudioData],
      [AudioPlayer.playBase64Audio];
    - [App.tsx]: [performLookup], [playAudio], [addToNotebook],
      [toggleStoryWordSelection], [navigateTo], [goBack],
      [handleTextSelection], [handleChatSend],
      [handleGenerateSelectedStory], [startFlashcards] and the flashcard
      arrows.

    The generative service, the JSON parser, the clock, [atob] and the Web
    Audio context are the platform.  What the platform decides on its own
    (what the service answers, whether a payload is a valid audio container)
    is an oracle held in a [Platform] record; what the platform computes by a
    standard ([atob], typed-array views, [createBuffer]) is written out. *)

From Stdlib Require Import ZArith QArith Lia Ascii.
From stdpp Require Import base option list strings gmap pretty.

Local Open Scope Z_scope.

(* ===================================================================== *)
(** ** JavaScript values and completions *)
(* ===================================================================== *)

Module JS.

(** What a [throw] carries.  Only the constructor matters to the code
    under study: every handler catches all errors alike. *)
Inductive exn : Type :=
| Error (msg : string)          (* new Error(msg) *)
| RangeError                    (* typed-array view over a misaligned buffer *)
| NotSupportedError             (* Web Audio: argument outside nominal range *)
| InvalidCharacterError         (* atob on a string that is not base64 *)
| EncodingError                 (* ctx.decodeAudioData on unknown framing *)
| SyntaxError                   (* JSON.parse *)
| TypeError                     (* a property read on null *)
| Rejected (reason : string).   (* a remote call that did not resolve *)

(** How an evaluation ends: with a value or with a thrown error (for an
    async function: a fulfilled or a rejected promise). *)
Inductive completion (A : Type) : Type :=
| Return (a : A)
| Throw (e : exn).
Arguments Return {A} a.
Arguments Throw {A} e.

Definition cbind {A B} (c : completion A) (k : A → completion B) : completion B :=
  match c with
  | Return a => k a
  | Throw e => Throw e
  end.

(** Strings are sequences of 8-bit characters.  That is exact for base64
    text and for the binary strings [atob] returns (every code unit is
    below 256); all other text is only compared, stored and passed on. *)

(** [!s] is false exactly for the non-empty strings. *)
Definition truthy (s : string) : bool :=
  match s with
  | EmptyString => false
  | String _ _ => true
  end.

(** The same for a string that may be [undefined] or [null]. *)
Definition truthy_opt (o : option string) : bool :=
  match o with
  | Some s => truthy s
  | None => false
  end.

(** [o || d] for an optional string: [undefined] and [""] are falsy. *)
Definition or_else (o : option string) (d : string) : string :=
  match o with
  | Some s => if truthy s then s else d
  | None => d
  end.

(** [o || []] for an optional array: every array is truthy. *)
Definition or_empty {A} (o : option (list A)) : list A :=
  match o with
  | Some l => l
  | None => []
  end.

(** [s.charCodeAt(i)]; [NaN] out of range never arises below, the loops
    stay within [s.length]. *)
Definition charCodeAt (s : string) (i : nat) : Z :=
  match String.get i s with
  | Some c => Z.of_N (Ascii.N_of_ascii c)
  | None => 0
  end.

(** White space stripped by [String.prototype.trim], restricted to the
    8-bit range: TAB, LF, VT, FF, CR, SPACE and NBSP. *)
Definition is_white_space (c : ascii) : bool :=
  let n := Ascii.N_of_ascii c in
  ((9 <=? n) && (n <=? 13) || (n =? 32) || (n =? 160))%N.

Fixpoint trim_start (s : string) : string :=
  match s with
  | EmptyString => EmptyString
  | String c r => if is_white_space c then trim_start r else s
  end.

Definition trim (s : string) : string :=
  String.rev (trim_start (String.rev (trim_start s))).

(** [ToUint8]: what a store into a [Uint8Array] keeps of an integer. *)
Definition ToUint8 (n : Z) : Z := n mod 256.

Definition is_uint8 (b : Z) : Prop := 0 <= b < 256.

End JS.
Export JS.

(* ===================================================================== *)
(** ** Base64: the standard encoding and the platform's [atob] *)
(* ===================================================================== *)

Module Base64.

(** The base64 alphabet of RFC 4648, table 1. *)
Definition alphabet : string :=
  "ABCDEFGHIJKLMNOPQRSTUVWXYZabcdefghijklmnopqrstuvwxyz0123456789+/".

Definition pad : ascii := "="%char.

(** The character of a 6-bit value. *)
Definition char_of_sextet (v : Z) : ascii :=
  match String.get (Z.to_nat v) alphabet with
  | Some c => c
  | None => pad
  end.

(** The 6-bit value of an alphabet character, [None] for any other. *)
Definition sextet_of_char (c : ascii) : option Z :=
  let n := Z.of_N (Ascii.N_of_ascii c) in
  if (65 <=? n) && (n <=? 90) then Some (n - 65)            (* A-Z *)
  else if (97 <=? n) && (n <=? 122) then Some (n - 71)      (* a-z *)
  else if (48 <=? n) && (n <=? 57) then Some (n + 4)        (* 0-9 *)
  else if n =? 43 then Some 62                              (* + *)
  else if n =? 47 then Some 63                              (* / *)
  else None.

(** *** Encoding (RFC 4648, section 4) *)

(** Three bytes make four characters; a final group of one or two bytes
    is completed with zero bits and padded with [=]. *)
Definition encode3 (a b c : Z) : list ascii :=
  let n := a * 65536 + b * 256 + c in
  [ char_of_sextet (n / 262144);
    char_of_sextet ((n / 4096) mod 64);
    char_of_sextet ((n / 64) mod 64);
    char_of_sextet (n mod 64) ].

Fixpoint encode_bytes (bs : list Z) : list ascii :=
  match bs with
  | [] => []
  | [a] => take 2 (encode3 a 0 0) ++ [pad; pad]
  | [a; b] => take 3 (encode3 a b 0) ++ [pad]
  | a :: b :: c :: rest => encode3 a b c ++ encode_bytes rest
  end.

(** The same without the padding (RFC 4648, section 3.2): what is left
    of an encoding once its trailing [=] are removed. *)
Fixpoint encode_bytes_unpadded (bs : list Z) : list ascii :=
  match bs with
  | [] => []
  | [a] => take 2 (encode3 a 0 0)
  | [a; b] => take 3 (encode3 a b 0)
  | a :: b :: c :: rest => encode3 a b c ++ encode_bytes_unpadded rest
  end.

Definition encode (bs : list Z) : string :=
  String.string_of_list_ascii (encode_bytes bs).

(** *** [atob]: the forgiving-base64 decode of the HTML standard *)

(** ASCII white space: TAB, LF, FF, CR and SPACE. *)
Definition is_ascii_whitespace (c : ascii) : bool :=
  let n := Ascii.N_of_ascii c in
  ((n =? 9) || (n =? 10) || (n =? 12) || (n =? 13) || (n =? 32))%N.

Definition is_pad (c : ascii) : bool := (Ascii.N_of_ascii c =? 61)%N.

(** "If data ends with one or two U+003D (=) code points, then remove
    them from data." *)
Definition strip_padding (d : list ascii) : list ascii :=
  match rev d with
  | p1 :: p2 :: r =>
      if is_pad p1 then (if is_pad p2 then rev r else rev (p2 :: r)) else d
  | [p1] => if is_pad p1 then [] else d
  | [] => d
  end.

(** Four 6-bit values fill a 24-bit buffer read as three bytes; with 12
    or 18 bits left, the last four or two bits are discarded. *)
Fixpoint decode_sextets (vs : list Z) : list Z :=
  match vs with
  | v1 :: v2 :: v3 :: v4 :: rest =>
      let n := ((v1 * 64 + v2) * 64 + v3) * 64 + v4 in
      n / 65536 :: (n / 256) mod 256 :: n mod 256 :: decode_sextets rest
  | [v1; v2; v3] =>
      let n := ((v1 * 64 + v2) * 64 + v3) / 4 in
      [n / 256; n mod 256]
  | [v1; v2] => [(v1 * 64 + v2) / 16]
  | _ => []
  end.

(** The bytes a base64 text stands for; [None] where [atob] throws
    [InvalidCharacterError]. *)
Definition forgiving_decode (data : list ascii) : option (list Z) :=
  let d := filter (λ c, is_ascii_whitespace c = false) data in
  let d := if (length d mod 4 =? 0)%nat then strip_padding d else d in
  if (length d mod 4 =? 1)%nat then None
  else mapM sextet_of_char d ≫= λ vs, Some (decode_sextets vs).

(** The character with a given code unit below 256. *)
Definition fromCharCode (b : Z) : ascii := Ascii.ascii_of_N (Z.to_N b).

(** [atob(s)]: a binary string, one character per decoded byte. *)
Definition atob (s : string) : completion string :=
  match forgiving_decode (String.list_ascii_of_string s) with
  | Some bs => Return (String.string_of_list_ascii (fromCharCode <$> bs))
  | None => Throw InvalidCharacterError
  end.

End Base64.

(* ===================================================================== *)
(** ** Web Audio and typed arrays: what the decoder relies on *)
(* ===================================================================== *)

Module WebAudio.

(** A sample of a [Float32Array].  The fallback decoder only ever stores
    quotients [v / 32768] with [v] a 16-bit integer, which binary32
    represents exactly, so the numbers are kept as rationals. *)
Inductive float : Type :=
| Num (q : Q)
| NaN.

(** An [AudioBuffer]: one [Float32Array] per channel, all of one length. *)
Record AudioBuffer : Type := {
  sampleRate : Z;
  channelData : list (list float);
}.

Definition numberOfChannels (b : AudioBuffer) : nat := length (channelData b).

(** [buffer.length]: the number of sample frames. *)
Definition frames (b : AudioBuffer) : nat :=
  match channelData b with
  | c :: _ => length c
  | [] => 0%nat
  end.


(** The part of a [BaseAudioContext] the code uses.  Whether bytes are a
    container the browser can decode is the browser's business
    ([ctx_decodeAudioData]); so are the channel counts and sample rates it
    accepts beyond the ranges every implementation must support. *)
Record AudioContext : Type := {
  ctx_decodeAudioData : list Z → completion AudioBuffer;
  ctx_supports : Z → Z → bool;
}.

(** [ctx.createBuffer(numberOfChannels, length, sampleRate)]: zero-filled;
    [NotSupportedError] when an argument is zero, negative or outside its
    nominal range (Web Audio API, section 1.1.2). *)
Definition createBuffer (ctx : AudioContext)
    (numChannels length sampleRate : Z) : completion AudioBuffer :=
  if (0 <? numChannels) && (0 <? length) && ctx_supports ctx numChannels sampleRate
  then Return {| sampleRate := sampleRate;
                 channelData := replicate (Z.to_nat numChannels)
                                  (replicate (Z.to_nat length) (Num 0)) |}
  else Throw NotSupportedError.

(** The signed 16-bit integer stored in two bytes, low byte first: typed
    arrays use the byte order of the machine, little-endian wherever
    browsers run. *)
Definition int16_le (lo hi : Z) : Z :=
  let u := lo + 256 * hi in
  if u <? 32768 then u else u - 65536.

Fixpoint int16_elements (bytes : list Z) : list Z :=
  match bytes with
  | lo :: hi :: rest => int16_le lo hi :: int16_elements rest
  | _ => []
  end.

(** [new Int16Array(buffer)]: a view of the whole buffer; [RangeError]
    when the byte length is not a multiple of the element size
    (ECMAScript, InitializeTypedArrayFromArrayBuffer). *)
Definition Int16Array (buffer : list Z) : completion (list Z) :=
  if (length buffer mod 2 =? 0)%nat then Return (int16_elements buffer)
  else Throw RangeError.

End WebAudio.

(* ===================================================================== *)
(** ** services/audioUtils.ts *)
(* ===================================================================== *)

Module AudioUtils.
Import WebAudio.

(** A [Uint8Array] that owns its whole [ArrayBuffer], as every array built
    by [decodeBase64] does: the list of its bytes. *)
Definition Uint8Array := list Z.

(** [decodeBase64]:
<<
    const binaryString = atob(base64);
    const len = binaryString.length;
    const bytes = new Uint8Array(len);
    for (let i = 0; i < len; i++) bytes[i] = binaryString.charCodeAt(i);
    return bytes;
>>
    The array starts zero-filled; each store keeps the value modulo 256. *)
Definition decodeBase64 (base64 : string) : completion Uint8Array :=
  cbind (Base64.atob base64) (λ binaryString,
    let len := String.length binaryString in
    let bytes : Uint8Array := replicate len 0 in
    Return (foldl (λ bytes i, <[i := ToUint8 (charCodeAt binaryString i)]> bytes)
                  bytes (seq 0 len))).

(** [x / 32768.0] for an element read from an [Int16Array]; a read past
    the end is [undefined], and [undefined / 32768.0] is [NaN]. *)
Definition normalize (x : option Z) : float :=
  match x with
  | Some v => Num (v # 32768)
  | None => NaN
  end.

(** [decodeAudioData(data, ctx, sampleRate = 24000, numChannels = 1)]:
<<
    try {
      const bufferCopy = data.buffer.slice(0);
      return await ctx.decodeAudioData(bufferCopy);
    } catch (e) {
      const dataInt16 = new Int16Array(data.buffer);
      const frameCount = dataInt16.length / numChannels;
      const buffer = ctx.createBuffer(numChannels, frameCount, sampleRate);
      for (let channel = 0; channel < numChannels; channel++) {
        const channelData = buffer.getChannelData(channel);
        for (let i = 0; i < frameCount; i++)
          channelData[i] = dataInt16[i * numChannels + channel] / 32768.0;
      }
      return buffer;
    }
>>
    [frameCount] is a double.  [createBuffer] receives it truncated to an
    unsigned long, [dataInt16.length / numChannels] rounded down; the
    inner loop runs while [i < frameCount], that is [i * numChannels <
    dataInt16.length], so once more than the buffer is long when the
    division is not exact.  A store past the end of a typed array is
    dropped, which is what the list insert does.  With [numChannels <= 0]
    [createBuffer] throws before any loop runs. *)
Definition decodeAudioData (data : Uint8Array) (ctx : AudioContext)
    (sampleRate numChannels : Z) : completion AudioBuffer :=
  match ctx_decodeAudioData ctx data with
  | Return decoded => Return decoded
  | Throw _ =>
      cbind (Int16Array data) (λ dataInt16,
        let len16 := Z.of_nat (length dataInt16) in
        cbind (createBuffer ctx numChannels (len16 / numChannels) sampleRate) (λ buffer,
          let rounds := Z.to_nat ((len16 + numChannels - 1) / numChannels) in
          let nc := Z.to_nat numChannels in
          Return
            (foldl (λ buffer channel,
               {| sampleRate := WebAudio.sampleRate buffer;
                  channelData :=
                    alter (λ channelData,
                      foldl (λ channelData i,
                        <[i := normalize (dataInt16 !! (i * nc + channel)%nat)]> channelData)
                        channelData (seq 0 rounds))
                      channel (WebAudio.channelData buffer) |})
               buffer (seq 0 nc))))
  end.

(** The call [playBase64Audio] makes: both defaults. *)
Definition decodeAudioData_default (data : Uint8Array) (ctx : AudioContext) :=
  decodeAudioData data ctx 24000 1.

End AudioUtils.

(* ===================================================================== *)
(** ** types.ts *)
(* ===================================================================== *)

Module Example.
Record t : Type := { target : string; native : string }.
End Example.

Module ScenarioLine.
Record t : Type := { speaker : string; text : string; translation : string }.
End ScenarioLine.

Module DictionaryEntry.
Record t : Type := {
  id : string;
  term : string;
  translatedTerm : string;
  definitionTarget : string;
  definitionNative : string;
  examples : list Example.t;
  scenario : list ScenarioLine.t;
  usageNote : string;
  imageUrl : option string;
  sourceLang : string;
  targetLang : string;
  createdAt : Z;
}.
End DictionaryEntry.

(** [Partial<DictionaryEntry>]: every field may be missing. *)
Module PartialEntry.
Record t : Type := {
  id : option string;
  term : option string;
  translatedTerm : option string;
  definitionTarget : option string;
  definitionNative : option string;
  examples : option (list Example.t);
  scenario : option (list ScenarioLine.t);
  usageNote : option string;
  imageUrl : option string;
  sourceLang : option string;
  targetLang : option string;
  createdAt : option Z;
}.

(** An object with none of the fields. *)
Definition empty : t :=
  {| id := None; term := None; translatedTerm := None;
     definitionTarget := None; definitionNative := None;
     examples := None; scenario := None; usageNote := None;
     imageUrl := None; sourceLang := None; targetLang := None;
     createdAt := None |}.
End PartialEntry.

(** What [JSON.parse] returns, as far as reading the fields of an entry
    from it can tell: [null], a value that is not an object (a boolean, a
    number, a string), or an object, kept at the type the code gives it
    (an array is an object with none of the fields). *)
Module JSON.
Inductive value : Type :=
| null
| primitive
| object (fields : PartialEntry.t).

(** [v.field], for all the fields at once: reading a property of [null]
    throws a TypeError; a primitive has none of the properties, so each is
    [undefined]. *)
Definition properties (v : value) : JS.completion PartialEntry.t :=
  match v with
  | null => JS.Throw JS.TypeError
  | primitive => JS.Return PartialEntry.empty
  | object fields => JS.Return fields
  end.
End JSON.

Module ChatMessage.
Inductive role_t : Type := user | model.
Record t : Type := { id : string; role : role_t; text : string }.
End ChatMessage.

Inductive AppView : Type :=
| ONBOARDING | SEARCH | RESULT | NOTEBOOK | FLASHCARDS | STORY.

Global Instance AppView_eq_dec : EqDecision AppView.
Proof. solve_decision. Defined.

(* ===================================================================== *)
(** ** The generative service as the code sees it *)
(* ===================================================================== *)

Module GenAI.

(** The three [ai.models.generateContent] calls of the lookup and speech
    paths.  Each prompt is a fixed template around the arguments kept
    here; model name, response schema and voice are constants of the call
    site. *)
Inductive Request : Type :=
| LookupRequest (term sourceLang targetLang : string)
    (* "gemini-2.5-flash", JSON response schema *)
| ImageRequest (term context : string)
    (* "gemini-2.5-flash-image" *)
| SpeechRequest (text voiceName : string).
    (* "gemini-2.5-flash-preview-tts", audio modality *)

Record Blob : Type := { mimeType : option string; data : option string }.
Record Part : Type := { inlineData : option Blob }.
Record Content : Type := { parts : option (list Part) }.
Record Candidate : Type := { content : option Content }.
Record GenerateContentResponse : Type := {
  text : option string;
  candidates : option (list Candidate);
}.

(** [response.candidates?.[0]?.content?.parts] *)
Definition first_parts (response : GenerateContentResponse) : option (list Part) :=
  match candidates response with
  | Some (candidate :: _) =>
      match content candidate with
      | Some c => parts c
      | None => None
      end
  | _ => None
  end.

End GenAI.

(* ===================================================================== *)
(** ** Platform oracles and the state of the running page *)
(* ===================================================================== *)

Record Platform : Type := {
  (** The answer to a request, given the requests sent before it. *)
  generateContent : list GenAI.Request → GenAI.Request
                    → completion GenAI.GenerateContentResponse;
  (** [JSON.parse]: a SyntaxError, or the value the text stands for. *)
  JSON_parse : string → completion JSON.value;
  (** The value of the n-th [Date.now()]. *)
  Date_now : nat → Z;
  (** The player's [AudioContext], and whether resuming it succeeds. *)
  audioContext : WebAudio.AudioContext;
  audio_resume : completion unit;
}.

Record World : Type := {
  (* services/geminiService.ts *)
  ttsCache : gmap string string;
  (* outside the page *)
  requests : list GenAI.Request;          (* remote calls issued, oldest first *)
  clock_reads : nat;
  alerts : list string;                   (* alert() dialogs shown, oldest first *)
  audio_suspended : bool;                 (* audioContext.state === 'suspended' *)
  started : list WebAudio.AudioBuffer;(* sources started, oldest first *)
  (* App component state *)
  view : AppView;
  history : list AppView;
  nativeLang : string;
  targetLang : string;
  searchQuery : string;
  loading : bool;
  currentEntry : option DictionaryEntry.t;
  notebook : list DictionaryEntry.t;
  chatHistory : list ChatMessage.t;
  isChatOpen : bool;
  selectedStoryWordIds : list string;
  audioLoadingId : option string;
}.

(** Field updates: [set_f v w] is [w] with field [f] replaced by [v]. *)

Definition set_ttsCache (v : gmap string string) (w : World) : World :=
  {| ttsCache := v; requests := requests w; clock_reads := clock_reads w;
     alerts := alerts w; audio_suspended := audio_suspended w;
     started := started w; view := view w; history := history w;
     nativeLang := nativeLang w; targetLang := targetLang w;
     searchQuery := searchQuery w; loading := loading w;
     currentEntry := currentEntry w; notebook := notebook w;
     chatHistory := chatHistory w; isChatOpen := isChatOpen w;
     selectedStoryWordIds := selectedStoryWordIds w;
     audioLoadingId := audioLoadingId w |}.

Definition set_requests (v : list GenAI.Request) (w : World) : World :=
  {| ttsCache := ttsCache w; requests := v; clock_reads := clock_reads w;
     alerts := alerts w; audio_suspended := audio_suspended w;
     started := started w; view := view w; history := history w;
     nativeLang := nativeLang w; targetLang := targetLang w;
     searchQuery := searchQuery w; loading := loading w;
     currentEntry := currentEntry w; notebook := notebook w;
     chatHistory := chatHistory w; isChatOpen := isChatOpen w;
     selectedStoryWordIds := selectedStoryWordIds w;
     audioLoadingId := audioLoadingId w |}.

Definition set_clock_reads (v : nat) (w : World) : World :=
  {| ttsCache := ttsCache w; requests := requests w; clock_reads := v;
     alerts := alerts w; audio_suspended := audio_suspended w;
     started := started w; view := view w; history := history w;
     nativeLang := nativeLang w; targetLang := targetLang w;
     searchQuery := searchQuery w; loading := loading w;
     currentEntry := currentEntry w; notebook := notebook w;
     chatHistory := chatHistory w; isChatOpen := isChatOpen w;
     selectedStoryWordIds := selectedStoryWordIds w;
     audioLoadingId := audioLoadingId w |}.

Definition set_alerts (v : list string) (w : World) : World :=
  {| ttsCache := ttsCache w; requests := requests w;
     clock_reads := clock_reads w; alerts := v;
     audio_suspended := audio_suspended w; started := started w;
     view := view w; history := history w; nativeLang := nativeLang w;
     targetLang := targetLang w; searchQuery := searchQuery w;
     loading := loading w; currentEntry := currentEntry w;
     notebook := notebook w; chatHistory := chatHistory w;
     isChatOpen := isChatOpen w;
     selectedStoryWordIds := selectedStoryWordIds w;
     audioLoadingId := audioLoadingId w |}.

Definition set_audio_suspended (v : bool) (w : World) : World :=
  {| ttsCache := ttsCache w; requests := requests w;
     clock_reads := clock_reads w; alerts := alerts w; audio_suspended := v;
     started := started w; view := view w; history := history w;
     nativeLang := nativeLang w; targetLang := targetLang w;
     searchQuery := searchQuery w; loading := loading w;
     currentEntry := currentEntry w; notebook := notebook w;
     chatHistory := chatHistory w; isChatOpen := isChatOpen w;
     selectedStoryWordIds := selectedStoryWordIds w;
     audioLoadingId := audioLoadingId w |}.

Definition set_started (v : list WebAudio.AudioBuffer) (w : World) : World :=
  {| ttsCache := ttsCache w; requests := requests w;
     clock_reads := clock_reads w; alerts := alerts w;
     audio_suspended := audio_suspended w; started := v; view := view w;
     history := history w; nativeLang := nativeLang w;
     targetLang := targetLang w; searchQuery := searchQuery w;
     loading := loading w; currentEntry := currentEntry w;
     notebook := notebook w; chatHistory := chatHistory w;
     isChatOpen := isChatOpen w;
     selectedStoryWordIds := selectedStoryWordIds w;
     audioLoadingId := audioLoadingId w |}.

Definition set_view (v : AppView) (w : World) : World :=
  {| ttsCache := ttsCache w; requests := requests w;
     clock_reads := clock_reads w; alerts := alerts w;
     audio_suspended := audio_suspended w; started := started w; view := v;
     history := history w; nativeLang := nativeLang w;
     targetLang := targetLang w; searchQuery := searchQuery w;
     loading := loading w; currentEntry := currentEntry w;
     notebook := notebook w; chatHistory := chatHistory w;
     isChatOpen := isChatOpen w;
     selectedStoryWordIds := selectedStoryWordIds w;
     audioLoadingId := audioLoadingId w |}.

Definition set_history (v : list AppView) (w : World) : World :=
  {| ttsCache := ttsCache w; requests := requests w;
     clock_reads := clock_reads w; alerts := alerts w;
     audio_suspended := audio_suspended w; started := started w;
     view := view w; history := v; nativeLang := nativeLang w;
     targetLang := targetLang w; searchQuery := searchQuery w;
     loading := loading w; currentEntry := currentEntry w;
     notebook := notebook w; chatHistory := chatHistory w;
     isChatOpen := isChatOpen w;
     selectedStoryWordIds := selectedStoryWordIds w;
     audioLoadingId := audioLoadingId w |}.

Definition set_nativeLang (v : string) (w : World) : World :=
  {| ttsCache := ttsCache w; requests := requests w;
     clock_reads := clock_reads w; alerts := alerts w;
     audio_suspended := audio_suspended w; started := started w;
     view := view w; history := history w; nativeLang := v;
     targetLang := targetLang w; searchQuery := searchQuery w;
     loading := loading w; currentEntry := currentEntry w;
     notebook := notebook w; chatHistory := chatHistory w;
     isChatOpen := isChatOpen w;
     selectedStoryWordIds := selectedStoryWordIds w;
     audioLoadingId := audioLoadingId w |}.

Definition set_targetLang (v : string) (w : World) : World :=
  {| ttsCache := ttsCache w; requests := requests w;
     clock_reads := clock_reads w; alerts := alerts w;
     audio_suspended := audio_suspended w; started := started w;
     view := view w; history := history w; nativeLang := nativeLang w;
     targetLang := v; searchQuery := searchQuery w; loading := loading w;
     currentEntry := currentEntry w; notebook := notebook w;
     chatHistory := chatHistory w; isChatOpen := isChatOpen w;
     selectedStoryWordIds := selectedStoryWordIds w;
     audioLoadingId := audioLoadingId w |}.

Definition set_searchQuery (v : string) (w : World) : World :=
  {| ttsCache := ttsCache w; requests := requests w;
     clock_reads := clock_reads w; alerts := alerts w;
     audio_suspended := audio_suspended w; started := started w;
     view := view w; history := history w; nativeLang := nativeLang w;
     targetLang := targetLang w; searchQuery := v; loading := loading w;
     currentEntry := currentEntry w; notebook := notebook w;
     chatHistory := chatHistory w; isChatOpen := isChatOpen w;
     selectedStoryWordIds := selectedStoryWordIds w;
     audioLoadingId := audioLoadingId w |}.

Definition set_loading (v : bool) (w : World) : World :=
  {| ttsCache := ttsCache w; requests := requests w;
     clock_reads := clock_reads w; alerts := alerts w;
     audio_suspended := audio_suspended w; started := started w;
     view := view w; history := history w; nativeLang := nativeLang w;
     targetLang := targetLang w; searchQuery := searchQuery w; loading := v;
     currentEntry := currentEntry w; notebook := notebook w;
     chatHistory := chatHistory w; isChatOpen := isChatOpen w;
     selectedStoryWordIds := selectedStoryWordIds w;
     audioLoadingId := audioLoadingId w |}.

Definition set_currentEntry (v : option DictionaryEntry.t) (w : World) : World :=
  {| ttsCache := ttsCache w; requests := requests w;
     clock_reads := clock_reads w; alerts := alerts w;
     audio_suspended := audio_suspended w; started := started w;
     view := view w; history := history w; nativeLang := nativeLang w;
     targetLang := targetLang w; searchQuery := searchQuery w;
     loading := loading w; currentEntry := v; notebook := notebook w;
     chatHistory := chatHistory w; isChatOpen := isChatOpen w;
     selectedStoryWordIds := selectedStoryWordIds w;
     audioLoadingId := audioLoadingId w |}.

Definition set_notebook (v : list DictionaryEntry.t) (w : World) : World :=
  {| ttsCache := ttsCache w; requests := requests w;
     clock_reads := clock_reads w; alerts := alerts w;
     audio_suspended := audio_suspended w; started := started w;
     view := view w; history := history w; nativeLang := nativeLang w;
     targetLang := targetLang w; searchQuery := searchQuery w;
     loading := loading w; currentEntry := currentEntry w; notebook := v;
     chatHistory := chatHistory w; isChatOpen := isChatOpen w;
     selectedStoryWordIds := selectedStoryWordIds w;
     audioLoadingId := audioLoadingId w |}.

Definition set_chatHistory (v : list ChatMessage.t) (w : World) : World :=
  {| ttsCache := ttsCache w; requests := requests w;
     clock_reads := clock_reads w; alerts := alerts w;
     audio_suspended := audio_suspended w; started := started w;
     view := view w; history := history w; nativeLang := nativeLang w;
     targetLang := targetLang w; searchQuery := searchQuery w;
     loading := loading w; currentEntry := currentEntry w;
     notebook := notebook w; chatHistory := v; isChatOpen := isChatOpen w;
     selectedStoryWordIds := selectedStoryWordIds w;
     audioLoadingId := audioLoadingId w |}.

Definition set_isChatOpen (v : bool) (w : World) : World :=
  {| ttsCache := ttsCache w; requests := requests w;
     clock_reads := clock_reads w; alerts := alerts w;
     audio_suspended := audio_suspended w; started := started w;
     view := view w; history := history w; nativeLang := nativeLang w;
     targetLang := targetLang w; searchQuery := searchQuery w;
     loading := loading w; currentEntry := currentEntry w;
     notebook := notebook w; chatHistory := chatHistory w; isChatOpen := v;
     selectedStoryWordIds := selectedStoryWordIds w;
     audioLoadingId := audioLoadingId w |}.

Definition set_selectedStoryWordIds (v : list string) (w : World) : World :=
  {| ttsCache := ttsCache w; requests := requests w;
     clock_reads := clock_reads w; alerts := alerts w;
     audio_suspended := audio_suspended w; started := started w;
     view := view w; history := history w; nativeLang := nativeLang w;
     targetLang := targetLang w; searchQuery := searchQuery w;
     loading := loading w; currentEntry := currentEntry w;
     notebook := notebook w; chatHistory := chatHistory w;
     isChatOpen := isChatOpen w; selectedStoryWordIds := v;
     audioLoadingId := audioLoadingId w |}.

Definition set_audioLoadingId (v : option string) (w : World) : World :=
  {| ttsCache := ttsCache w; requests := requests w;
     clock_reads := clock_reads w; alerts := alerts w;
     audio_suspended := audio_suspended w; started := started w;
     view := view w; history := history w; nativeLang := nativeLang w;
     targetLang := targetLang w; searchQuery := searchQuery w;
     loading := loading w; currentEntry := currentEntry w;
     notebook := notebook w; chatHistory := chatHistory w;
     isChatOpen := isChatOpen w;
     selectedStoryWordIds := selectedStoryWordIds w; audioLoadingId := v |}.

(* ===================================================================== *)
(** ** Handlers: state transformers that may throw *)
(* ===================================================================== *)

Module Run.

(** A handler run from a world ends by returning or throwing, in a new
    world: what was written before a [throw] stays written. *)
Definition M (A : Type) : Type := World → completion A * World.

Definition ret {A} (a : A) : M A := λ w, (Return a, w).

Definition bind {A B} (m : M A) (k : A → M B) : M B :=
  λ w, match m w with
       | (Return a, w') => k a w'
       | (Throw e, w') => (Throw e, w')
       end.

Definition throw {A} (e : exn) : M A := λ w, (Throw e, w).

(** A pure step that may throw. *)
Definition lift {A} (c : completion A) : M A := λ w, (c, w).

Definition get {A} (f : World → A) : M A := λ w, (Return (f w), w).

Definition modify (f : World → World) : M unit := λ w, (Return tt, f w).

(** [try { body } catch (e) { handler(e) }] *)
Definition try_catch {A} (body : M A) (handler : exn → M A) : M A :=
  λ w, match body w with
       | (Return a, w') => (Return a, w')
       | (Throw e, w') => handler e w'
       end.

(** [try { body } finally { finalizer }]: the finalizer always runs; the
    body's completion stands unless the finalizer throws. *)
Definition try_finally {A} (body : M A) (finalizer : M unit) : M A :=
  λ w, let (c, w') := body w in
       match finalizer w' with
       | (Return _, w'') => (c, w'')
       | (Throw e, w'') => (Throw e, w'')
       end.

Global Instance M_ret : MRet M := @ret.
Global Instance M_bind : MBind M := λ A B k m, bind m k.

End Run.
Export Run.

(* ===================================================================== *)
(** ** services/geminiService.ts *)
(* ===================================================================== *)

Module GeminiService.
Import GenAI.

(** [text.replace(/```json|```/g, '')]: at each position the longer
    fence is tried first; [skip] counts fence characters still to drop. *)
Fixpoint remove_fences (skip : nat) (s : string) : string :=
  match s with
  | EmptyString => EmptyString
  | String c r =>
      match skip with
      | S k => remove_fences k r
      | O =>
          if String.prefix "```json" s then remove_fences 6 r
          else if String.prefix "```" s then remove_fences 2 r
          else String c (remove_fences 0 r)
      end
  end.

Definition cleanJsonText (text : string) : string :=
  trim (remove_fences 0 text).

Section Service.
Context (P : Platform).

(** [await ai.models.generateContent(...)]: the request goes out, the
    service's answer comes back or the call rejects. *)
Definition ai_generateContent (req : Request) : M GenerateContentResponse :=
  λ w, (generateContent P (requests w) req,
        set_requests (requests w ++ [req]) w).

(** [lookupWord]: one request; no text, or text that does not parse,
    is an error.  Nothing else about the parsed value is looked at: it is
    returned as it is, [null] included. *)
Definition lookupWord (term sourceLang targetLang : string) : M JSON.value :=
  response ← ai_generateContent (LookupRequest term sourceLang targetLang);
  match text response with
  | Some t =>
      if truthy t then
        match JSON_parse P (cleanJsonText t) with
        | Return parsed => mret parsed
        | Throw _ => throw (Error "Invalid response format")
        end
      else throw (Error "No text response")
  | None => throw (Error "No text response")
  end.

(** [for (const part of parts) if (part.inlineData) return ...] *)
Fixpoint first_inlineData (parts : list Part) : option Blob :=
  match parts with
  | [] => None
  | part :: rest =>
      match inlineData part with
      | Some blob => Some blob
      | None => first_inlineData rest
      end
  end.

(** A value inside a template literal. *)
Definition interpolate (o : option string) : string := default "undefined" o.

(** [generateConceptImage]: the whole body sits in [try]; the [catch]
    returns [undefined]. *)
Definition generateConceptImage (term context : string) : M (option string) :=
  try_catch
    (response ← ai_generateContent (ImageRequest term context);
     match first_parts response with
     | Some parts =>
         match first_inlineData parts with
         | Some blob =>
             mret (Some ("data:" +:+ interpolate (mimeType blob) +:+ ";base64,"
                         +:+ interpolate (data blob)))
         | None => mret None
         end
     | None => mret None
     end)
    (λ _, mret None).

(** [response.candidates?.[0]?.content?.parts?.[0]?.inlineData?.data] *)
Definition speech_data (response : GenerateContentResponse) : option string :=
  match first_parts response with
  | Some (part :: _) =>
      match inlineData part with
      | Some blob => data blob
      | None => None
      end
  | _ => None
  end.

(** [generateSpeech]:
<<
  if (!text) return null;
  if (ttsCache.has(text)) return ttsCache.get(text)!;
  try {
    const response = await ai.models.generateContent({... 'Puck' ...});
    const part = response.candidates?.[0]?.content?.parts?.[0];
    if (part?.inlineData?.data) {
      const audioData = part.inlineData.data;
      ttsCache.set(text, audioData);
      return audioData;
    }
    return null;
  } catch (e) { console.error("TTS failed", e); return null; }
>> *)
Definition generateSpeech (text : string) : M (option string) :=
  if negb (truthy text) then mret None
  else
    cache ← get ttsCache;
    match cache !! text with
    | Some cached => mret (Some cached)
    | None =>
        try_catch
          (response ← ai_generateContent (SpeechRequest text "Puck");
           match speech_data response with
           | Some audioData =>
               if truthy audioData then
                 modify (λ w, set_ttsCache (<[text := audioData]> (ttsCache w)) w);;
                 mret (Some audioData)
               else mret None
           | None => mret None
           end)
          (λ _, mret None)
    end.

End Service.
End GeminiService.

(* ===================================================================== *)
(** ** AudioPlayer (services/audioUtils.ts) *)
(* ===================================================================== *)

Module AudioPlayer.
Import WebAudio AudioUtils.

Section Player.
Context (P : Platform).

(** [playBase64Audio]: resume a suspended context, decode, and start a
    source on the decoded buffer.  It returns when the source has been
    started; nothing ever stops a source. *)
Definition playBase64Audio (base64Data : string) : M unit :=
  suspended ← get audio_suspended;
  (if suspended : bool
   then lift (audio_resume P);; modify (set_audio_suspended false)
   else mret tt);;
  bytes ← lift (decodeBase64 base64Data);
  audioBuffer ← lift (decodeAudioData_default bytes (audioContext P));
  modify (λ w, set_started (started w ++ [audioBuffer]) w).

End Player.
End AudioPlayer.

(* ===================================================================== *)
(** ** App.tsx *)
(* ===================================================================== *)

(** The component's state lives in the [World]; a handler reads the state
    of the render it was created in, which for a handler that has just been
    called is the current one. *)
Module App.
Import GeminiService AudioPlayer.

Definition alert (msg : string) : M unit :=
  modify (λ w, set_alerts (alerts w ++ [msg]) w).

(** [navigateTo] *)
Definition navigateTo (newView : AppView) : M unit :=
  λ w, if decide (newView = view w) then (Return tt, w)
       else (Return tt, set_view newView (set_history (history w ++ [view w]) w)).

(** [addToNotebook]:
<<
    if (currentEntry && !notebook.find(n => n.id === currentEntry.id))
      setNotebook([currentEntry, ...notebook]);
>> *)
Definition addToNotebook (w : World) : World :=
  match currentEntry w with
  | Some entry =>
      match List.find (λ n, String.eqb (DictionaryEntry.id n) (DictionaryEntry.id entry))
                      (notebook w) with
      | Some _ => w
      | None => set_notebook (entry :: notebook w) w
      end
  | None => w
  end.

(** The one way [addToNotebook] is reached: [entry] is on display and
    the user presses its save button. *)
Definition save (w : World) (entry : DictionaryEntry.t) : World :=
  addToNotebook (set_currentEntry (Some entry) w).

(** [selectedStoryWordIds.includes(id)] *)
Definition includes (id : string) (ids : list string) : bool :=
  existsb (String.eqb id) ids.

(** [prev.filter(wId => wId !== id)] *)
Definition without (id : string) (prev : list string) : list string :=
  List.filter (λ wId, negb (String.eqb wId id)) prev.

(** [toggleStoryWordSelection]:
<<
    if (selectedStoryWordIds.includes(id)) {
      setSelectedStoryWordIds(prev => prev.filter(wId => wId !== id));
    } else {
      if (selectedStoryWordIds.length >= 5) { alert(...); return; }
      setSelectedStoryWordIds(prev => [...prev, id]);
    }
>> *)
Definition toggleStoryWordSelection (id : string) : M unit :=
  selected ← get selectedStoryWordIds;
  if includes id selected then
    modify (λ w, set_selectedStoryWordIds (without id (selectedStoryWordIds w)) w)
  else if (5 <=? length selected)%nat then
    alert "You can only select up to 5 words!"
  else
    modify (λ w, set_selectedStoryWordIds (selectedStoryWordIds w ++ [id]) w).

Section Handlers.
Context (P : Platform).

(** [Date.now()] *)
Definition now : M Z :=
  λ w, (Return (Date_now P (clock_reads w)), set_clock_reads (S (clock_reads w)) w).

(** The entry [performLookup] assembles from the parsed text, the image
    and two readings of the clock. *)
Definition newEntry (term : string) (textData : PartialEntry.t)
    (imageUrl : option string) (nativeLang targetLang : string)
    (id_ms createdAt_ms : Z) : DictionaryEntry.t :=
  {| DictionaryEntry.id := pretty id_ms;
     DictionaryEntry.term := term;
     DictionaryEntry.translatedTerm :=
       or_else (PartialEntry.translatedTerm textData) term;
     DictionaryEntry.definitionTarget :=
       or_else (PartialEntry.definitionTarget textData) "Definition not found";
     DictionaryEntry.definitionNative :=
       or_else (PartialEntry.definitionNative textData) "Definition not found";
     DictionaryEntry.examples := or_empty (PartialEntry.examples textData);
     DictionaryEntry.scenario := or_empty (PartialEntry.scenario textData);
     DictionaryEntry.usageNote :=
       or_else (PartialEntry.usageNote textData) "No usage note available.";
     DictionaryEntry.imageUrl := imageUrl;
     DictionaryEntry.sourceLang := nativeLang;
     DictionaryEntry.targetLang := targetLang;
     DictionaryEntry.createdAt := createdAt_ms |}.

(** [performLookup]:
<<
  if (!term.trim()) return;
  setLoading(true); setIsChatOpen(false); setChatHistory([]);
  setSearchQuery(term);
  try {
    const textData = await lookupWord(term, nativeLang, targetLang);
    const promptTerm = textData.translatedTerm || term;
    const imageUrl = await generateConceptImage(promptTerm,
                             textData.definitionNative || "");
    const newEntry = { id: Date.now().toString(), ..., createdAt: Date.now() };
    setCurrentEntry(newEntry);
    navigateTo(AppView.RESULT);
  } catch (err) { console.error(err); alert("Oops! ..."); }
  finally { setLoading(false); }
>>
  The languages are those of the render the handler belongs to.  The
  first thing done with [textData] is to read a property of it, which
  throws inside the [try] when it is [null]; nothing has been sent or
  set between the parse and that read.  The lookup is run here from its
  start to its end with no other handler in between, so that the view
  [navigateTo] sees is the current one; a lookup that lands after the
  user has moved elsewhere is in [Navigation]. *)
Definition performLookup (term : string) : M unit :=
  if negb (truthy (trim term)) then mret tt
  else
    src ← get nativeLang;
    tgt ← get targetLang;
    modify (set_loading true);;
    modify (set_isChatOpen false);;
    modify (set_chatHistory []);;
    modify (set_searchQuery term);;
    try_finally
      (try_catch
         (parsed ← lookupWord P term src tgt;
          textData ← lift (JSON.properties parsed);
          let promptTerm := or_else (PartialEntry.translatedTerm textData) term in
          imageUrl ← generateConceptImage P promptTerm
                       (or_else (PartialEntry.definitionNative textData) "");
          id_ms ← now;
          createdAt_ms ← now;
          modify (set_currentEntry
                    (Some (newEntry term textData imageUrl src tgt id_ms createdAt_ms)));;
          navigateTo RESULT)
         (λ _, alert "Oops! We couldn't find that word. Please try again."))
      (modify (set_loading false)).

(** The effect on [currentEntry]: speech for the translated term is
    fetched ahead, for the cache only.
<<
    if (currentEntry?.translatedTerm)
      generateSpeech(currentEntry.translatedTerm).then(() => { ... });
>> *)
Definition prefetchSpeech : M unit :=
  entry ← get currentEntry;
  match entry with
  | Some e =>
      if truthy (DictionaryEntry.translatedTerm e)
      then generateSpeech P (DictionaryEntry.translatedTerm e);; mret tt
      else mret tt
  | None => mret tt
  end.

(** [if (audioLoadingId)]: set when neither [null] nor empty. *)
Definition marker_set (w : World) : bool :=
  truthy_opt (audioLoadingId w).

(** What [playAudio] does once a request is let in: everything after
    [setAudioLoadingId(uniqueId)]. *)
Definition playAudio_pending (text : string) : M unit :=
  try_finally
    (try_catch
       (audioData ← generateSpeech P text;
        match audioData with
        | Some payload =>
            if truthy payload then playBase64Audio P payload else mret tt
        | None => mret tt
        end)
       (λ _, mret tt))
    (modify (set_audioLoadingId None)).

(** [playAudio]:
<<
  if (e) e.stopPropagation();
  if (audioLoadingId) return; // Prevent concurrent plays for now
  if (!text) return;
  setAudioLoadingId(uniqueId);
  try {
    const audioData = await generateSpeech(text);
    if (audioData) await audioPlayer.playBase64Audio(audioData);
  } catch (err) { console.error("Audio playback error", err); }
  finally { setAudioLoadingId(null); }
>> *)
Definition playAudio (text uniqueId : string) : M unit :=
  λ w, if marker_set w then (Return tt, w)
       else if negb (truthy text) then (Return tt, w)
       else (modify (set_audioLoadingId (Some uniqueId));;
             playAudio_pending text) w.

End Handlers.
End App.

(* ===================================================================== *)
(** ** Audio requests over time *)
(* ===================================================================== *)

(** [playAudio] is asynchronous: after [setAudioLoadingId(uniqueId)] it
    waits for the speech and the player, and other handlers run in the
    meantime.  A request that was let in is [pending] until its remaining
    part, up to and including the [finally], has run.  That part neither
    reads nor writes [audioLoadingId], so it is run in one step here. *)
Module AudioRequests.
Import App.

(** The five places that call [playAudio], with what each passes. *)
Inductive AudioButton : Type :=
| MainTerm                          (* currentEntry.translatedTerm, `main-${id}` *)
| ScenarioAt (idx : nat)            (* line.text, `scenario-${idx}-${id}` *)
| ExampleAt (idx : nat)             (* ex.target, `example-${idx}-${id}` *)
| StoryMain (spoken : string)       (* story without its asterisks, "story-main" *)
| Flashcard (flashcardIndex : nat). (* notebook[i].translatedTerm, `flash-${i}` *)

(** The arguments [(text, uniqueId)] of the call a button makes, when the
    button is on the page. *)
Definition call_of (b : AudioButton) (w : World) : option (string * string) :=
  match b with
  | MainTerm =>
      entry ← currentEntry w;
      Some (DictionaryEntry.translatedTerm entry,
            "main-" +:+ DictionaryEntry.id entry)
  | ScenarioAt idx =>
      entry ← currentEntry w;
      line ← DictionaryEntry.scenario entry !! idx;
      Some (ScenarioLine.text line,
            "scenario-" +:+ pretty idx +:+ "-" +:+ DictionaryEntry.id entry)
  | ExampleAt idx =>
      entry ← currentEntry w;
      ex ← DictionaryEntry.examples entry !! idx;
      Some (Example.target ex,
            "example-" +:+ pretty idx +:+ "-" +:+ DictionaryEntry.id entry)
  | StoryMain spoken => Some (spoken, "story-main")
  | Flashcard i =>
      entry ← notebook w !! i;
      Some (DictionaryEntry.translatedTerm entry, "flash-" +:+ pretty i)
  end.

Inductive event : Type :=
| Click (b : AudioButton)           (* a press on an audio button *)
| Settle (k : nat)                  (* the k-th pending request runs to its end *)
| Elsewhere (f : World → World).    (* any other handler; it leaves the marker alone *)

Record Sys : Type := {
  world : World;
  pending : list string;            (* texts of requests let in and not yet settled *)
}.

Definition start (w : World) : Sys := {| world := w; pending := [] |}.



Section Steps.
Context (P : Platform).

(** The synchronous head of [playAudio text uniqueId]. *)
Definition enter (text uniqueId : string) (s : Sys) : Sys :=
  if marker_set (world s) then s
  else if negb (truthy text) then s
  else {| world := set_audioLoadingId (Some uniqueId) (world s);
          pending := pending s ++ [text] |}.

Definition step (s : Sys) (ev : event) : Sys :=
  match ev with
  | Click b =>
      match call_of b (world s) with
      | Some (text, uniqueId) => enter text uniqueId s
      | None => s
      end
  | Settle k =>
      match pending s !! k with
      | Some text =>
          {| world := (playAudio_pending P text (world s)).2;
             pending := delete k (pending s) |}
      | None => s
      end
  | Elsewhere f =>
      {| world := set_audioLoadingId (audioLoadingId (world s)) (f (world s));
         pending := pending s |}
  end.

Definition run (evs : list event) (s : Sys) : Sys := foldl step s evs.


End Steps.

End AudioRequests.

(* ===================================================================== *)
(** ** Concrete platforms and worlds *)
(* ===================================================================== *)

Module Samples.
Import GenAI WebAudio.

(** A context that recognises no container and supports the channel
    counts and sample rates every implementation must. *)
Definition raw_only_ctx : AudioContext :=
  {| ctx_decodeAudioData := λ _, Throw EncodingError;
     ctx_supports := λ channels rate,
       (channels <=? 32) && (8000 <=? rate) && (rate <=? 96000) |}.

Definition no_fields : PartialEntry.t := PartialEntry.empty.

(** The double quote, and a JSON string literal. *)
Definition quote : string := String "034" EmptyString.
Definition lit (s : string) : string := quote +:+ s +:+ quote.

(** A JSON text for "brick": four text fields, one example, no scenario
    and no usage note. *)
Definition brick_json : string :=
  "{" +:+ lit "translatedTerm" +:+ ":" +:+ lit "ladrillo" +:+ ","
      +:+ lit "definitionTarget" +:+ ":" +:+ lit "Bloque de arcilla cocida." +:+ ","
      +:+ lit "definitionNative" +:+ ":" +:+ lit "Block of baked clay." +:+ ","
      +:+ lit "examples" +:+ ":[{"
      +:+ lit "target" +:+ ":" +:+ lit "Una casa de ladrillo." +:+ ","
      +:+ lit "native" +:+ ":" +:+ lit "A brick house." +:+ "}]}".

(** What [JSON.parse] makes of [brick_json]. *)
Definition brick_fields : PartialEntry.t :=
  {| PartialEntry.id := None; PartialEntry.term := None;
     PartialEntry.translatedTerm := Some "ladrillo";
     PartialEntry.definitionTarget := Some "Bloque de arcilla cocida.";
     PartialEntry.definitionNative := Some "Block of baked clay.";
     PartialEntry.examples :=
       Some [ {| Example.target := "Una casa de ladrillo.";
                 Example.native := "A brick house." |} ];
     PartialEntry.scenario := None;
     PartialEntry.usageNote := None; PartialEntry.imageUrl := None;
     PartialEntry.sourceLang := None; PartialEntry.targetLang := None;
     PartialEntry.createdAt := None |}.

(** [JSON.parse] on the texts used below: the empty object, [null], a
    number and the entry for "brick". *)
Definition parse (s : string) : completion JSON.value :=
  if String.eqb s "{}" then Return (JSON.object no_fields)
  else if String.eqb s "null" then Return JSON.null
  else if String.eqb s "7" then Return JSON.primitive
  else if String.eqb s brick_json then Return (JSON.object brick_fields)
  else Throw SyntaxError.

Definition no_response : GenerateContentResponse :=
  {| text := None; candidates := None |}.

Definition text_response (t : string) : GenerateContentResponse :=
  {| text := Some t; candidates := None |}.

Definition inline_response (mime payload : string) : GenerateContentResponse :=
  {| text := None;
     candidates := Some [ {| content := Some {| parts := Some
       [ {| inlineData := Some {| mimeType := Some mime; data := Some payload |} |} ] |} |} ] |}.

(** A service that is down: every call rejects. *)
Definition offline : Platform :=
  {| generateContent := λ _ _, Throw (Rejected "network");
     JSON_parse := parse;
     Date_now := λ n, 1700000000000 + Z.of_nat n;
     audioContext := raw_only_ctx;
     audio_resume := Return tt |}.

(** A service that answers a lookup with the empty JSON object, an image
    request with nothing, and a speech request with four bytes of PCM. *)
Definition terse : Platform :=
  {| generateContent := λ _ req,
       match req with
       | LookupRequest _ _ _ => Return (text_response "{}")
       | ImageRequest _ _ => Return no_response
       | SpeechRequest _ _ => Return (inline_response "audio/L16" "AID/fw==")
       end;
     JSON_parse := parse;
     Date_now := λ n, 1700000000000 + Z.of_nat n;
     audioContext := raw_only_ctx;
     audio_resume := Return tt |}.

(** A service like [terse] that answers every lookup with the text
    [answer]. *)
Definition answering (answer : string) : Platform :=
  {| generateContent := λ _ req,
       match req with
       | LookupRequest _ _ _ => Return (text_response answer)
       | ImageRequest _ _ => Return no_response
       | SpeechRequest _ _ => Return (inline_response "audio/L16" "AID/fw==")
       end;
     JSON_parse := parse;
     Date_now := λ n, 1700000000000 + Z.of_nat n;
     audioContext := raw_only_ctx;
     audio_resume := Return tt |}.

(** The page as it loads with an empty notebook. *)
Definition fresh : World :=
  {| ttsCache := ∅; requests := []; clock_reads := 0; alerts := [];
     audio_suspended := false; started := [];
     view := ONBOARDING; history := []; nativeLang := "en"; targetLang := "es";
     searchQuery := ""; loading := false; currentEntry := None; notebook := [];
     chatHistory := []; isChatOpen := false; selectedStoryWordIds := [];
     audioLoadingId := None |}.

(** A saved entry for [term], with the placeholders of a lookup whose
    response had no fields. *)
Definition entry (id term : string) : DictionaryEntry.t :=
  {| DictionaryEntry.id := id;
     DictionaryEntry.term := term;
     DictionaryEntry.translatedTerm := term;
     DictionaryEntry.definitionTarget := "Definition not found";
     DictionaryEntry.definitionNative := "Definition not found";
     DictionaryEntry.examples := [];
     DictionaryEntry.scenario := [];
     DictionaryEntry.usageNote := "No usage note available.";
     DictionaryEntry.imageUrl := None;
     DictionaryEntry.sourceLang := "en";
     DictionaryEntry.targetLang := "es";
     DictionaryEntry.createdAt := 0 |}.

End Samples.

(* ===================================================================== *)
(** ** App.tsx: navigation, text selection, flashcards *)
(* ===================================================================== *)

Module Navigation.
Import App.

(** [goBack]:
<<
    if (history.length === 0) {
      if (view !== AppView.SEARCH && view !== AppView.ONBOARDING)
        setView(AppView.SEARCH);
      return;
    }
    const prevView = history[history.length - 1];
    setHistory(prev => prev.slice(0, -1));
    setView(prevView);
>> *)
Definition goBack (w : World) : World :=
  match last (history w) with
  | None =>
      if negb (bool_decide (view w = SEARCH)) && negb (bool_decide (view w = ONBOARDING))
      then set_view SEARCH w
      else w
  | Some prevView =>
      set_view prevView (set_history (take (length (history w) - 1) (history w)) w)
  end.

(** The home button: [setHistory([]); setView(AppView.SEARCH)]. *)
Definition goHome (w : World) : World := set_view SEARCH (set_history [] w).

(** The button that ends onboarding: [setView(AppView.SEARCH)]. *)
Definition letsGo (w : World) : World := set_view SEARCH w.

(** A card of the notebook view:
    [setCurrentEntry(entry); navigateTo(AppView.RESULT)]. *)
Definition openEntry (entry : DictionaryEntry.t) (w : World) : World :=
  (navigateTo RESULT (set_currentEntry (Some entry) w)).2.

(** [navigateTo(newView)] as called from the closure of a render in which
    the view was [seen]: [view] in its body is [seen], while the updater
    passed to [setHistory] gets the history of the moment.  A handler
    called on the page as it is has seen the current view, and this is
    [navigateTo]. *)
Definition navigateTo_from (seen newView : AppView) (w : World) : World :=
  if decide (newView = seen) then w
  else set_view newView (set_history (history w ++ [seen]) w).

(** The page, and the views from which lookups are on their way. *)
Record Session : Type := {
  page : World;
  in_flight : list AppView;
}.

(** What the user can do to move between views, each where its control is
    on the page: onboarding is a page of its own; the back button is there
    when [history.length > 0 || view !== AppView.SEARCH], the home button
    when [view !== AppView.SEARCH]; [Goto] stands for the calls of
    [navigateTo] made by a click on the page as it is (the notebook, story
    and flashcards buttons, a card of the notebook, the way back to the
    search from an empty story page), all of which name a view other than
    onboarding.  [Submit] starts a lookup where the page offers one: the
    search form, or a double click in a result or in a story.  [Land k] is
    the k-th of the lookups on their way arriving with an entry: the
    [navigateTo(AppView.RESULT)] of [performLookup] runs after two awaits,
    in the closure of the render that started the lookup.  A lookup that
    fails never lands. *)
Inductive move : Type :=
| LetsGo
| Back
| Home
| Goto (newView : AppView)
| Submit
| Land (k : nat).

Definition back_shown (w : World) : bool :=
  negb (bool_decide (view w = ONBOARDING))
  && ((0 <? length (history w))%nat || negb (bool_decide (view w = SEARCH))).

Definition lookup_offered (w : World) : bool :=
  bool_decide (view w = SEARCH) || bool_decide (view w = RESULT)
  || bool_decide (view w = STORY).

Definition on_page (f : World → World) (s : Session) : Session :=
  {| page := f (page s); in_flight := in_flight s |}.

Definition make_move (s : Session) (m : move) : Session :=
  match m with
  | LetsGo => if bool_decide (view (page s) = ONBOARDING) then on_page letsGo s else s
  | Back => if back_shown (page s) then on_page goBack s else s
  | Home =>
      if negb (bool_decide (view (page s) = ONBOARDING))
         && negb (bool_decide (view (page s) = SEARCH))
      then on_page goHome s else s
  | Goto newView =>
      if negb (bool_decide (view (page s) = ONBOARDING))
         && negb (bool_decide (newView = ONBOARDING))
      then on_page (λ w, (navigateTo newView w).2) s else s
  | Submit =>
      if lookup_offered (page s)
      then {| page := page s; in_flight := in_flight s ++ [view (page s)] |}
      else s
  | Land k =>
      match in_flight s !! k with
      | Some seen =>
          {| page := navigateTo_from seen RESULT (page s);
             in_flight := delete k (in_flight s) |}
      | None => s
      end
  end.

(** Whether each lookup of [moves] that lands does so on the view it was
    started from. *)
Fixpoint lands_in_place (s : Session) (moves : list move) : bool :=
  match moves with
  | [] => true
  | m :: rest =>
      match m with
      | Land k =>
          match in_flight s !! k with
          | Some seen => bool_decide (seen = view (page s))
          | None => true
          end
      | _ => true
      end
      && lands_in_place (make_move s m) rest
  end.

(** The session as the page loads. *)
Definition opening (w : World) : Session := {| page := w; in_flight := [] |}.

(** No view is followed by itself on the way from the oldest view of the
    history to the current one. *)
Fixpoint no_repeat (views : list AppView) : Prop :=
  match views with
  | v1 :: (v2 :: _) as rest => v1 ≠ v2 ∧ no_repeat rest
  | _ => True
  end.

End Navigation.

Module TextSelection.
Import App.

(** The characters the selection is cleaned of: full stop, comma,
    exclamation and question mark, semicolon, colon, both quotation marks
    and both round brackets. *)
Definition is_punctuation (c : ascii) : bool :=
  let n := Ascii.N_of_ascii c in
  ((n =? 46) || (n =? 44) || (n =? 33) || (n =? 63) || (n =? 59) || (n =? 58)
   || (n =? 34) || (n =? 39) || (n =? 40) || (n =? 41))%N.

(** Whether every character of a string passes a test. *)
Fixpoint every (f : ascii → bool) (s : string) : bool :=
  match s with
  | EmptyString => true
  | String c r => f c && every f r
  end.

(** [s.replace(/[...]/g, '')] over that class. *)
Fixpoint remove_punctuation (s : string) : string :=
  match s with
  | EmptyString => EmptyString
  | String c r =>
      if is_punctuation c then remove_punctuation r
      else String c (remove_punctuation r)
  end.

(** A character other than the backtick of a code fence. *)
Definition no_backtick (c : ascii) : bool := negb (Ascii.eqb c "`").

(** A character other than the asterisk of a story marker. *)
Definition no_asterisk (c : ascii) : bool := negb (Ascii.eqb c "*").

Section Handlers.
Context (P : Platform).

(** [handleSearchSubmit]: [performLookup(searchQuery)]. *)
Definition handleSearchSubmit : M unit :=
  λ w, performLookup P (searchQuery w) w.

(** [handleTextSelection], given [window.getSelection()?.toString()]:
<<
    const selection = window.getSelection();
    if (!selection) return;
    const text = selection.toString().trim().replace(/[...]/g, '');
    if (text.length > 0) performLookup(text);
>> *)
Definition handleTextSelection (selection : option string) : M unit :=
  match selection with
  | None => mret tt
  | Some selected =>
      let text := remove_punctuation (trim selected) in
      if (0 <? String.length text)%nat then performLookup P text else mret tt
  end.

End Handlers.
End TextSelection.

Module Flashcards.

(** The left arrow: [i > 0 ? i - 1 : notebook.length - 1]. *)
Definition previous_card (notebook_length i : Z) : Z :=
  if 0 <? i then i - 1 else notebook_length - 1.

(** The right arrow: [i < notebook.length - 1 ? i + 1 : 0]. *)
Definition next_card (notebook_length i : Z) : Z :=
  if i <? notebook_length - 1 then i + 1 else 0.

End Flashcards.

Module StoryText.

(** [story.replace(/\*\*/g, '')]: what the story's audio button hands to
    [playAudio]. *)
Fixpoint remove_markers (story : string) : string :=
  match story with
  | String a (String b rest as tail) =>
      if (Ascii.eqb a "*" && Ascii.eqb b "*")%bool then remove_markers rest
      else String a (remove_markers tail)
  | short => short
  end.

End StoryText.

(* ===================================================================== *)
(** ** Chat and story: the rest of the page and of the service *)
(* ===================================================================== *)

(** The two plain-text calls of [services/geminiService.ts].  Each prompt
    is a fixed template around the pieces kept here. *)
Module GenText.

Inductive TextRequest : Type :=
| ChatRequest (translatedTerm term definitionTarget transcript newMessage : string)
| StoryRequest (terms langCode : string).

(** The answer to a chat or story request, given those sent before it. *)
Record TextService : Type := {
  generateText : list TextRequest → TextRequest
                 → completion GenAI.GenerateContentResponse;
}.

End GenText.

(** The component state the lookup and audio paths do not touch, and the
    chat and story requests sent so far, beside the [World]. *)
Record Page : Type := {
  base : World;
  text_requests : list GenText.TextRequest;
  chatInput : string;
  story : option string;
  isStoryLoading : bool;
  flashcardIndex : Z;
  isFlipped : bool;
}.

Definition set_base (v : World) (p : Page) : Page :=
  {| base := v; text_requests := text_requests p; chatInput := chatInput p;
     story := story p; isStoryLoading := isStoryLoading p;
     flashcardIndex := flashcardIndex p; isFlipped := isFlipped p |}.

Definition set_text_requests (v : list GenText.TextRequest) (p : Page) : Page :=
  {| base := base p; text_requests := v; chatInput := chatInput p;
     story := story p; isStoryLoading := isStoryLoading p;
     flashcardIndex := flashcardIndex p; isFlipped := isFlipped p |}.

Definition set_chatInput (v : string) (p : Page) : Page :=
  {| base := base p; text_requests := text_requests p; chatInput := v;
     story := story p; isStoryLoading := isStoryLoading p;
     flashcardIndex := flashcardIndex p; isFlipped := isFlipped p |}.

Definition set_story (v : option string) (p : Page) : Page :=
  {| base := base p; text_requests := text_requests p; chatInput := chatInput p;
     story := v; isStoryLoading := isStoryLoading p;
     flashcardIndex := flashcardIndex p; isFlipped := isFlipped p |}.

Definition set_isStoryLoading (v : bool) (p : Page) : Page :=
  {| base := base p; text_requests := text_requests p; chatInput := chatInput p;
     story := story p; isStoryLoading := v;
     flashcardIndex := flashcardIndex p; isFlipped := isFlipped p |}.

Definition set_flashcardIndex (v : Z) (p : Page) : Page :=
  {| base := base p; text_requests := text_requests p; chatInput := chatInput p;
     story := story p; isStoryLoading := isStoryLoading p;
     flashcardIndex := v; isFlipped := isFlipped p |}.

Definition set_isFlipped (v : bool) (p : Page) : Page :=
  {| base := base p; text_requests := text_requests p; chatInput := chatInput p;
     story := story p; isStoryLoading := isStoryLoading p;
     flashcardIndex := flashcardIndex p; isFlipped := v |}.

(** Handlers over the whole page, with the same reading of [throw],
    [try], [catch] and [finally] as over the [World]. *)
Module PageRun.

Definition PM (A : Type) : Type := Page → completion A * Page.

Definition pret {A} (a : A) : PM A := λ p, (Return a, p).

Definition pbind {A B} (m : PM A) (k : A → PM B) : PM B :=
  λ p, match m p with
       | (Return a, p') => k a p'
       | (Throw e, p') => (Throw e, p')
       end.

Definition pmodify (f : Page → Page) : PM unit := λ p, (Return tt, f p).

(** A handler of the [World] run on the page's world. *)
Definition on_world {A} (m : M A) : PM A :=
  λ p, let (c, w) := m (base p) in (c, set_base w p).

Definition ptry_catch {A} (body : PM A) (handler : exn → PM A) : PM A :=
  λ p, match body p with
       | (Return a, p') => (Return a, p')
       | (Throw e, p') => handler e p'
       end.

Definition ptry_finally {A} (body : PM A) (finalizer : PM unit) : PM A :=
  λ p, let (c, p') := body p in
       match finalizer p' with
       | (Return _, p'') => (c, p'')
       | (Throw e, p'') => (Throw e, p'')
       end.

Global Instance PM_ret : MRet PM := @pret.
Global Instance PM_bind : MBind PM := λ A B k m, pbind m k.

End PageRun.
Export PageRun.

Module TextCalls.
Import GenText.

(** [parts.join(sep)] *)
Fixpoint join (sep : string) (parts : list string) : string :=
  match parts with
  | [] => ""
  | [part] => part
  | part :: rest => part +:+ sep +:+ join sep rest
  end.

Definition role_name (r : ChatMessage.role_t) : string :=
  match r with
  | ChatMessage.user => "user"
  | ChatMessage.model => "model"
  end.

(** [history.map(h => `${h.role}: ${h.text}`).join('\n')] *)
Definition transcript (history : list ChatMessage.t) : string :=
  join (String "010" "")
       ((λ h, role_name (ChatMessage.role h) +:+ ": " +:+ ChatMessage.text h) <$> history).

Section Calls.
Context (T : TextService).

Definition send_text (req : TextRequest) : PM GenAI.GenerateContentResponse :=
  λ p, (generateText T (text_requests p) req,
        set_text_requests (text_requests p ++ [req]) p).

(** [sendChatMessage]: one request;
    [return response.text || "I couldn't understand that."]. *)
Definition sendChatMessage (history : list ChatMessage.t) (newMessage : string)
    (contextEntry : DictionaryEntry.t) : PM string :=
  response ← send_text (ChatRequest (DictionaryEntry.translatedTerm contextEntry)
                                    (DictionaryEntry.term contextEntry)
                                    (DictionaryEntry.definitionTarget contextEntry)
                                    (transcript history) newMessage);
  mret (or_else (GenAI.text response) "I couldn't understand that.").

(** [generateStory]:
<<
    const terms = entries.map(e => e.translatedTerm).join(", ");
    ...
    return response.text || "Could not generate story.";
>> *)
Definition generateStory (entries : list DictionaryEntry.t) (langCode : string)
    : PM string :=
  let terms := join ", " (DictionaryEntry.translatedTerm <$> entries) in
  response ← send_text (StoryRequest terms langCode);
  mret (or_else (GenAI.text response) "Could not generate story.").

End Calls.
End TextCalls.

Module AppPage.
Import App TextCalls.

(** [resetStory]: [setStory(null); setSelectedStoryWordIds([])]. *)
Definition resetStory (p : Page) : Page :=
  set_base (set_selectedStoryWordIds [] (base p)) (set_story None p).

(** [startFlashcards]:
<<
    if (notebook.length === 0) return alert("Your Notebook is empty! ...");
    setFlashcardIndex(0); setIsFlipped(false);
    navigateTo(AppView.FLASHCARDS);
>> *)
Definition startFlashcards : PM unit :=
  λ p, match notebook (base p) with
       | [] => on_world (alert "Your Notebook is empty! Add some words first.") p
       | _ :: _ =>
           on_world (navigateTo FLASHCARDS)
                    (set_isFlipped false (set_flashcardIndex 0 p))
       end.

(** The two arrows of the flashcards view. *)
Definition previousCard (p : Page) : Page :=
  set_isFlipped false
    (set_flashcardIndex
       (Flashcards.previous_card (Z.of_nat (length (notebook (base p)))) (flashcardIndex p))
       p).

Definition nextCard (p : Page) : Page :=
  set_isFlipped false
    (set_flashcardIndex
       (Flashcards.next_card (Z.of_nat (length (notebook (base p)))) (flashcardIndex p))
       p).

Section Handlers.
Context (P : Platform) (T : GenText.TextService).

(** [handleChatSend]:
<<
    if (!chatInput.trim() || !currentEntry) return;
    const userMsg = { id: Date.now().toString(), role: 'user', text: chatInput };
    setChatHistory(prev => [...prev, userMsg]);
    setChatInput('');
    try {
      const response = await sendChatMessage(chatHistory, chatInput, currentEntry);
      const aiMsg = { id: (Date.now() + 1).toString(), role: 'model', text: response };
      setChatHistory(prev => [...prev, aiMsg]);
    } catch (e) { console.error("Chat error", e); }
>>
    [chatHistory] and [chatInput] in the call are those of the render the
    handler belongs to: the log before the user's message was added. *)
Definition handleChatSend : PM unit :=
  λ p,
    let input := chatInput p in
    let history := chatHistory (base p) in
    match currentEntry (base p) with
    | Some entry =>
        if negb (truthy (trim input)) then (Return tt, p)
        else
          (sent_ms ← on_world (now P);
           let userMsg := {| ChatMessage.id := pretty sent_ms;
                             ChatMessage.role := ChatMessage.user;
                             ChatMessage.text := input |} in
           on_world (modify (λ w, set_chatHistory (chatHistory w ++ [userMsg]) w));;
           pmodify (set_chatInput "");;
           ptry_catch
             (response ← sendChatMessage T history input entry;
              answered_ms ← on_world (now P);
              let aiMsg := {| ChatMessage.id := pretty (answered_ms + 1);
                              ChatMessage.role := ChatMessage.model;
                              ChatMessage.text := response |} in
              on_world (modify (λ w, set_chatHistory (chatHistory w ++ [aiMsg]) w)))
             (λ _, mret tt)) p
    | None => (Return tt, p)
    end.

(** [notebook.filter(n => selectedStoryWordIds.includes(n.id))] *)
Definition selectedEntries (w : World) : list DictionaryEntry.t :=
  List.filter (λ n, includes (DictionaryEntry.id n) (selectedStoryWordIds w))
              (notebook w).

(** [handleGenerateSelectedStory]:
<<
    if (selectedStoryWordIds.length === 0) return;
    const selectedEntries = notebook.filter(...);
    setIsStoryLoading(true); setStory(null);
    try {
      const generatedStory = await generateStory(selectedEntries, targetLang);
      setStory(generatedStory);
    } catch (e) { alert("Failed to generate story. Please try again."); }
    finally { setIsStoryLoading(false); }
>> *)
Definition handleGenerateSelectedStory : PM unit :=
  λ p,
    match selectedStoryWordIds (base p) with
    | [] => (Return tt, p)
    | _ :: _ =>
        let entries := selectedEntries (base p) in
        let langCode := targetLang (base p) in
        (pmodify (set_isStoryLoading true);;
         pmodify (set_story None);;
         ptry_finally
           (ptry_catch
              (generatedStory ← generateStory T entries langCode;
               pmodify (set_story (Some generatedStory)))
              (λ _, on_world (alert "Failed to generate story. Please try again.")))
           (pmodify (set_isStoryLoading false))) p
    end.

End Handlers.
End AppPage.

(** More platforms and pages to run the handlers on. *)
Module MoreSamples.
Import GenAI GenText.

(** A service that answers every chat or story request with the same
    text. *)
Definition says (reply : string) : TextService :=
  {| generateText := λ _ _, Return (Samples.text_response reply) |}.

(** A service that is down. *)
Definition mute : TextService :=
  {| generateText := λ _ _, Throw (Rejected "network") |}.

(** The page around a world, as it loads. *)
Definition page_of (w : World) : Page :=
  {| base := w; text_requests := []; chatInput := ""; story := None;
     isStoryLoading := false; flashcardIndex := 0; isFlipped := false |}.

(** A service whose images arrive in the second part of the response. *)
Definition image_in_second_part : Platform :=
  {| generateContent := λ _ req,
       match req with
       | LookupRequest _ _ _ => Return (Samples.text_response "{}")
       | _ =>
           Return {| text := None;
                     candidates := Some [ {| content := Some {| parts := Some
                       [ {| inlineData := None |};
                         {| inlineData := Some {| mimeType := Some "image/png";
                                                  data := Some "iVBORw0KGgo=" |} |} ] |} |} ] |}
       end;
     JSON_parse := Samples.parse;
     Date_now := λ n, 1700000000000 + Z.of_nat n;
     audioContext := Samples.raw_only_ctx;
     audio_resume := Return tt |}.

(** A service that wraps its JSON in a code fence. *)
Definition fenced : Platform :=
  {| generateContent := λ _ _, Return (Samples.text_response "```json {} ```");
     JSON_parse := Samples.parse;
     Date_now := λ n, 1700000000000 + Z.of_nat n;
     audioContext := Samples.raw_only_ctx;
     audio_resume := Return tt |}.

End MoreSamples.
(* ===================================================================== *)
(** * Properties *)
(* ===================================================================== *)

(** Unfolds the handler combinators down to pairs of a completion and a
    world. *)
Ltac run_handler :=
  unfold mbind, M_bind, mret, M_ret, Run.bind, Run.ret, Run.get, Run.modify,
         Run.throw, Run.lift, Run.try_catch, Run.try_finally in *;
  cbn beta iota delta [negb fst snd] in *.

(* --------------------------------------------------------------------- *)
(** ** Notebook *)
(* --------------------------------------------------------------------- *)

Module NotebookFacts.
Import App.

(** [notebook.find(n => n.id === id)] finds nothing exactly when no saved
    entry has that id. *)
Lemma find_id_None (entries : list DictionaryEntry.t) (entry : DictionaryEntry.t) :
  (∀ n, n ∈ entries → DictionaryEntry.id n ≠ DictionaryEntry.id entry) →
  List.find (λ n, String.eqb (DictionaryEntry.id n) (DictionaryEntry.id entry)) entries
  = None.
Proof.
  induction entries as [|n entries IH]; intros Hfresh; [reflexivity|].
  cbn. destruct (String.eqb_spec (DictionaryEntry.id n) (DictionaryEntry.id entry)) as [Heq|_].
  - exfalso. apply (Hfresh n); [left|exact Heq].
  - apply IH. intros m Hm. apply Hfresh. by right.
Qed.

Lemma find_id_Some (entries : list DictionaryEntry.t) (entry n : DictionaryEntry.t) :
  n ∈ entries → DictionaryEntry.id n = DictionaryEntry.id entry →
  is_Some (List.find (λ n, String.eqb (DictionaryEntry.id n) (DictionaryEntry.id entry))
                     entries).
Proof.
  intros Hin Hid.
  destruct (List.find _ entries) as [m|] eqn:Hfind; [by eexists|].
  apply List.find_none with (x := n) in Hfind; [|by apply list_elem_of_In].
  rewrite Hid, String.eqb_refl in Hfind. discriminate.
Qed.

(** Saving the current entry when its id is new puts it in front. *)
Lemma addToNotebook_fresh (w : World) (entry : DictionaryEntry.t) :
  (∀ n, n ∈ notebook w → DictionaryEntry.id n ≠ DictionaryEntry.id entry) →
  notebook (save w entry) = entry :: notebook w.
Proof.
  intros Hfresh. unfold save, addToNotebook. cbn.
  by rewrite (find_id_None _ _ Hfresh).
Qed.

Lemma save_all_distinct (entries : list DictionaryEntry.t) (w : World) :
  NoDup (DictionaryEntry.id <$> entries) →
  (∀ e n, e ∈ entries → n ∈ notebook w → DictionaryEntry.id n ≠ DictionaryEntry.id e) →
  notebook (foldl save w entries) = reverse entries ++ notebook w.
Proof.
  revert w. induction entries as [|e entries IH]; intros w Hnd Hdisj; [reflexivity|].
  rewrite fmap_cons in Hnd. apply NoDup_cons in Hnd as [Hnew Hnd].
  cbn [foldl]. rewrite IH; [| exact Hnd |].
  - rewrite addToNotebook_fresh by (intros n Hn; apply Hdisj; [left | exact Hn]).
    by rewrite reverse_cons, <- app_assoc.
  - intros e' n He' Hn.
    rewrite addToNotebook_fresh in Hn by (intros m Hm; apply Hdisj; [left | exact Hm]).
    apply elem_of_cons in Hn as [-> | Hn].
    + intros Heq. apply Hnew. rewrite Heq. by apply list_elem_of_fmap_2.
    + apply Hdisj; [by right | exact Hn].
Qed.

(** C4. Saving an entry whose id is already in the notebook changes
    nothing (the notebook keeps its length, its entries and their order;
    indeed the whole state is the same), and saving entries with pairwise
    distinct ids into an empty notebook, one after the other, leaves
    exactly those entries, the last saved first. *)
Theorem notebook_add_idempotent_newest_first :
  (∀ (w : World) (entry n : DictionaryEntry.t),
      currentEntry w = Some entry →
      n ∈ notebook w → DictionaryEntry.id n = DictionaryEntry.id entry →
      addToNotebook w = w)
  ∧
  (∀ (w : World) (entries : list DictionaryEntry.t),
      notebook w = [] →
      NoDup (DictionaryEntry.id <$> entries) →
      notebook (foldl save w entries) = reverse entries
      ∧ length (notebook (foldl save w entries)) = length entries).
Proof.
  split.
  - intros w entry n Hcur Hin Hid. unfold addToNotebook. rewrite Hcur.
    by destruct (find_id_Some _ _ _ Hin Hid) as [m ->].
  - intros w entries Hempty Hnd.
    assert (notebook (foldl save w entries) = reverse entries) as ->.
    { rewrite save_all_distinct; [| exact Hnd |].
      - by rewrite Hempty, app_nil_r.
      - intros e n _ Hn. rewrite Hempty in Hn. by apply elem_of_nil in Hn. }
    split; [reflexivity | apply length_reverse].
Qed.

(** Three words saved in turn, then the first saved once more. *)
Lemma notebook_add_witness :
  let w := foldl save Samples.fresh
             [Samples.entry "1" "brick"; Samples.entry "2" "casa"; Samples.entry "3" "sol"] in
  notebook w = [Samples.entry "3" "sol"; Samples.entry "2" "casa"; Samples.entry "1" "brick"]
  ∧ save w (Samples.entry "1" "ladrillo") = set_currentEntry (Some (Samples.entry "1" "ladrillo")) w.
Proof.
  destruct notebook_add_idempotent_newest_first as [Hsame Horder].
  split.
  - apply (Horder Samples.fresh); [reflexivity|].
    apply (bool_decide_unpack _). vm_compute. reflexivity.
  - apply (Hsame _ (Samples.entry "1" "ladrillo") (Samples.entry "1" "brick")).
    + reflexivity.
    + do 2 right. left.
    + reflexivity.
Defined.

End NotebookFacts.

(* --------------------------------------------------------------------- *)
(** ** Story word selection *)
(* --------------------------------------------------------------------- *)

Module StoryFacts.
Import App.

Lemma includes_spec (id : string) (ids : list string) :
  includes id ids = true ↔ id ∈ ids.
Proof.
  unfold includes. rewrite List.existsb_exists. split.
  - intros (x & Hin & Heq). apply String.eqb_eq in Heq as ->.
    by apply list_elem_of_In.
  - intros Hin. exists id. split; [by apply list_elem_of_In | apply String.eqb_refl].
Qed.

Lemma elem_of_without (id x : string) (ids : list string) :
  x ∈ without id ids ↔ x ∈ ids ∧ x ≠ id.
Proof.
  unfold without. rewrite !list_elem_of_In, List.filter_In, negb_true_iff.
  by rewrite String.eqb_neq.
Qed.

Lemma NoDup_without (id : string) (ids : list string) :
  NoDup ids → NoDup (without id ids).
Proof. rewrite !NoDup_ListNoDup. apply List.NoDup_filter. Qed.

Lemma length_without_le (id : string) (ids : list string) :
  (length (without id ids) ≤ length ids)%nat.
Proof. apply List.filter_length_le. Qed.

(** Taking out an id that occurs once shortens the list by one. *)
Lemma length_without_NoDup (id : string) (ids : list string) :
  NoDup ids → id ∈ ids → S (length (without id ids)) = length ids.
Proof.
  induction 1 as [|x ids Hx Hnd IH]; intros Hin; [by apply elem_of_nil in Hin|].
  unfold without in *. cbn. destruct (String.eqb_spec x id) as [->|Hne]; cbn.
  - f_equal. clear IH Hin Hnd. induction ids as [|y ids IH]; [reflexivity|].
    cbn. destruct (String.eqb_spec y id) as [->|_]; cbn.
    + exfalso. apply Hx. left.
    + f_equal. apply IH. intros Hin. apply Hx. by right.
  - f_equal. apply IH. apply elem_of_cons in Hin as [->|Hin]; [done | exact Hin].
Qed.

(** What one toggle does to the selection. *)
Lemma toggle_selection (id : string) (w : World) :
  selectedStoryWordIds (toggleStoryWordSelection id w).2 =
    if includes id (selectedStoryWordIds w) then without id (selectedStoryWordIds w)
    else if (5 <=? length (selectedStoryWordIds w))%nat then selectedStoryWordIds w
    else selectedStoryWordIds w ++ [id].
Proof.
  unfold toggleStoryWordSelection, alert. run_handler.
  destruct (includes id (selectedStoryWordIds w)); [reflexivity|].
  destruct (5 <=? length (selectedStoryWordIds w))%nat; reflexivity.
Qed.

Lemma toggle_keeps_invariant (id : string) (w : World) :
  NoDup (selectedStoryWordIds w) ∧ (length (selectedStoryWordIds w) ≤ 5)%nat →
  NoDup (selectedStoryWordIds (toggleStoryWordSelection id w).2)
  ∧ (length (selectedStoryWordIds (toggleStoryWordSelection id w).2) ≤ 5)%nat.
Proof.
  intros [Hnd Hlen]. rewrite toggle_selection.
  destruct (includes id (selectedStoryWordIds w)) eqn:Hinc.
  - split; [by apply NoDup_without|].
    pose proof (length_without_le id (selectedStoryWordIds w)). lia.
  - destruct (Nat.leb_spec 5 (length (selectedStoryWordIds w))) as [Hfull|Hroom].
    + by split.
    + split.
      * apply NoDup_app. split_and!; [exact Hnd | | apply NoDup_singleton].
        intros x Hx Hx'. apply list_elem_of_singleton in Hx' as ->.
        apply includes_spec in Hx. congruence.
      * rewrite length_app. cbn. lia.
Qed.

(** C9. Starting from the empty selection, after any sequence of toggles
    the selected ids are pairwise distinct and at most five; toggling a
    selected id takes it out (and nothing else), and toggling a new id
    when five are selected leaves the selection as it is. *)
Theorem story_selection_invariant (w0 : World) (ids : list string) :
  selectedStoryWordIds w0 = [] →
  let w := foldl (λ w id, (toggleStoryWordSelection id w).2) w0 ids in
  let selected := selectedStoryWordIds w in
  NoDup selected
  ∧ (length selected ≤ 5)%nat
  ∧ (∀ id selected', id ∈ selected →
       selected' = selectedStoryWordIds (toggleStoryWordSelection id w).2 →
       (id ∉ selected')
       ∧ (∀ x, x ∈ selected' ↔ x ∈ selected ∧ x ≠ id)
       ∧ S (length selected') = length selected)
  ∧ (∀ id, id ∉ selected → length selected = 5%nat →
       selectedStoryWordIds (toggleStoryWordSelection id w).2 = selected).
Proof.
  intros Hempty w selected.
  assert (NoDup selected ∧ (length selected ≤ 5)%nat) as [Hnd Hlen].
  { subst selected w. revert w0 Hempty.
    assert (∀ w1, NoDup (selectedStoryWordIds w1)
                  ∧ (length (selectedStoryWordIds w1) ≤ 5)%nat →
              let w := foldl (λ w id, (toggleStoryWordSelection id w).2) w1 ids in
              NoDup (selectedStoryWordIds w)
              ∧ (length (selectedStoryWordIds w) ≤ 5)%nat) as Hinv.
    { induction ids as [|id ids IH]; intros w1 Hw1; [exact Hw1|].
      cbn [foldl]. apply IH. by apply toggle_keeps_invariant. }
    intros w0 Hempty. apply Hinv. rewrite Hempty. split; [apply NoDup_nil_2 | cbn; lia]. }
  split_and!; [exact Hnd | exact Hlen | |].
  - intros id selected' Hin ->. rewrite toggle_selection.
    apply includes_spec in Hin as Hinc. fold selected. rewrite Hinc.
    split_and!.
    + rewrite elem_of_without. tauto.
    + intros x. apply elem_of_without.
    + by apply length_without_NoDup.
  - intros id Hout Hfive. rewrite toggle_selection. fold selected.
    destruct (includes id selected) eqn:Hinc; [by apply includes_spec in Hinc|].
    by rewrite Hfive.
Qed.

(** Six words toggled in turn, then the first once more: the sixth was
    refused, and the first is out again. *)
Lemma story_selection_witness :
  let w := foldl (λ w id, (toggleStoryWordSelection id w).2) Samples.fresh
             ["a"; "b"; "c"; "d"; "e"; "f"; "a"] in
  selectedStoryWordIds w = ["b"; "c"; "d"; "e"]
  ∧ NoDup (selectedStoryWordIds w)
  ∧ (length (selectedStoryWordIds w) ≤ 5)%nat.
Proof.
  split; [reflexivity|].
  pose proof (story_selection_invariant Samples.fresh
                ["a"; "b"; "c"; "d"; "e"; "f"; "a"] eq_refl) as (Hnd & Hlen & _).
  split; [exact Hnd | exact Hlen].
Defined.

End StoryFacts.

(* --------------------------------------------------------------------- *)
(** ** Base64 *)
(* --------------------------------------------------------------------- *)

Module Base64Facts.
Import Base64.

(** Induction over a byte list three bytes at a time. *)
Lemma list_ind3 {A} (Pr : list A → Prop) :
  Pr [] → (∀ a, Pr [a]) → (∀ a b, Pr [a; b]) →
  (∀ a b c rest, Pr rest → Pr (a :: b :: c :: rest)) →
  ∀ l, Pr l.
Proof.
  intros H0 H1 H2 H3 l.
  assert (Pr l ∧ (∀ a, Pr (a :: l)) ∧ (∀ a b, Pr (a :: b :: l))) as [H _].
  { induction l as [|x l (IH0 & IH1 & IH2)]; [by split_and!|].
    split_and!; [apply IH1 | intros a; apply IH2 |].
    intros a b. by apply H3. }
  exact H.
Qed.

(** Every 6-bit value names an alphabet character and is read back. *)
Lemma sextet_round_trip (v : Z) :
  0 <= v < 64 → sextet_of_char (char_of_sextet v) = Some v.
Proof.
  intros Hv.
  assert (forallb (λ n, match sextet_of_char (char_of_sextet (Z.of_nat n)) with
                        | Some v' => v' =? Z.of_nat n
                        | None => false
                        end) (seq 0 64) = true) as Hall
    by (vm_compute; reflexivity).
  rewrite List.forallb_forall in Hall.
  specialize (Hall (Z.to_nat v)). rewrite Z2Nat.id in Hall by lia.
  destruct (sextet_of_char (char_of_sextet v)) as [v'|].
  - f_equal. apply Z.eqb_eq, Hall, List.in_seq. lia.
  - discriminate Hall. apply List.in_seq. lia.
Qed.

(** The character of any value is not white space: it is in the
    alphabet, or it is the [=] given for a value out of range. *)
Lemma char_of_sextet_not_space (v : Z) :
  is_ascii_whitespace (char_of_sextet v) = false.
Proof.
  unfold char_of_sextet. generalize (Z.to_nat v) as n. intros n.
  do 64 (destruct n as [|n]; [vm_compute; reflexivity|]).
  reflexivity.
Qed.

Lemma pad_not_space : is_ascii_whitespace pad = false.
Proof. reflexivity. Qed.

Lemma pad_no_sextet (c : ascii) : is_pad c = true → sextet_of_char c = None.
Proof.
  unfold is_pad. intros Hc. apply N.eqb_eq in Hc.
  unfold sextet_of_char. rewrite Hc. reflexivity.
Qed.

(** The arithmetic of one group: the four 6-bit values of three bytes
    are in range and give the three bytes back. *)
Lemma group_of_three (a b c : Z) :
  is_uint8 a → is_uint8 b → is_uint8 c →
  let n := a * 65536 + b * 256 + c in
  let v1 := n / 262144 in
  let v2 := (n / 4096) mod 64 in
  let v3 := (n / 64) mod 64 in
  let v4 := n mod 64 in
  (0 <= v1 < 64 ∧ 0 <= v2 < 64 ∧ 0 <= v3 < 64 ∧ 0 <= v4 < 64)
  ∧ ((v1 * 64 + v2) * 64 + v3) * 64 + v4 = n
  ∧ n / 65536 = a ∧ (n / 256) mod 256 = b ∧ n mod 256 = c.
Proof.
  unfold is_uint8. intros Ha Hb Hc. cbv zeta.
  Z.div_mod_to_equations. lia.
Qed.

Lemma char_of_sextet_not_pad (v : Z) :
  0 <= v < 64 → is_pad (char_of_sextet v) = false.
Proof.
  intros Hv. destruct (is_pad (char_of_sextet v)) eqn:Hp; [|reflexivity].
  apply pad_no_sextet in Hp. rewrite sextet_round_trip in Hp by exact Hv.
  discriminate.
Qed.

(** An encoding is its unpadded form followed by at most two [=]. *)
Lemma encode_bytes_padding (bs : list Z) :
  encode_bytes bs = encode_bytes_unpadded bs
  ∨ encode_bytes bs = encode_bytes_unpadded bs ++ [pad]
  ∨ encode_bytes bs = encode_bytes_unpadded bs ++ [pad; pad].
Proof.
  induction bs as [|a|a b|a b c rest IH] using list_ind3.
  - by left.
  - right. by right.
  - right. by left.
  - change (encode_bytes (a :: b :: c :: rest))
      with (encode3 a b c ++ encode_bytes rest).
    change (encode_bytes_unpadded (a :: b :: c :: rest))
      with (encode3 a b c ++ encode_bytes_unpadded rest).
    destruct IH as [-> | [-> | ->]]; [by left | right; left | right; right];
      by rewrite app_assoc.
Qed.

Lemma encode_bytes_no_space (bs : list Z) :
  Forall (λ c, is_ascii_whitespace c = false) (encode_bytes bs).
Proof.
  induction bs as [|a|a b|a b c rest IH] using list_ind3.
  - constructor.
  - repeat constructor; apply char_of_sextet_not_space.
  - repeat constructor; apply char_of_sextet_not_space.
  - change (encode_bytes (a :: b :: c :: rest))
      with (encode3 a b c ++ encode_bytes rest).
    apply Forall_app. split; [|exact IH].
    repeat constructor; apply char_of_sextet_not_space.
Qed.

Lemma encode_bytes_unpadded_no_pad (bs : list Z) :
  Forall is_uint8 bs → Forall (λ c, is_pad c = false) (encode_bytes_unpadded bs).
Proof.
  assert (is_uint8 0) as H0 by (unfold is_uint8; lia).
  induction bs as [|a|a b|a b c rest IH] using list_ind3; intros Hbs.
  - constructor.
  - apply Forall_cons in Hbs as [Ha _].
    destruct (group_of_three a 0 0 Ha H0 H0) as ((? & ? & ? & ?) & _).
    repeat constructor; by apply char_of_sextet_not_pad.
  - apply Forall_cons in Hbs as [Ha Hbs]. apply Forall_cons in Hbs as [Hb _].
    destruct (group_of_three a b 0 Ha Hb H0) as ((? & ? & ? & ?) & _).
    repeat constructor; by apply char_of_sextet_not_pad.
  - apply Forall_cons in Hbs as [Ha Hbs]. apply Forall_cons in Hbs as [Hb Hbs].
    apply Forall_cons in Hbs as [Hc Hbs].
    destruct (group_of_three a b c Ha Hb Hc) as ((? & ? & ? & ?) & _).
    change (encode_bytes_unpadded (a :: b :: c :: rest))
      with (encode3 a b c ++ encode_bytes_unpadded rest).
    apply Forall_app. split; [|by apply IH].
    repeat constructor; by apply char_of_sextet_not_pad.
Qed.

(** Removing the padding of a text that has none in its body. *)
Lemma strip_padding_spec (l : list ascii) :
  Forall (λ c, is_pad c = false) l →
  strip_padding l = l
  ∧ strip_padding (l ++ [pad]) = l
  ∧ strip_padding (l ++ [pad; pad]) = l.
Proof.
  intros Hl. apply List.Forall_rev in Hl.
  rewrite <- (List.rev_involutive l). revert Hl. generalize (rev l) as r.
  intros r Hr. unfold strip_padding.
  rewrite !List.rev_app_distr, List.rev_involutive. cbn [rev app].
  destruct r as [|p1 [|p2 r]].
  - done.
  - apply Forall_cons in Hr as [Hp1 _]. by rewrite Hp1.
  - apply Forall_cons in Hr as [Hp1 _]. by rewrite Hp1.
Qed.

Lemma strip_padding_encode_bytes (bs : list Z) :
  Forall is_uint8 bs → strip_padding (encode_bytes bs) = encode_bytes_unpadded bs.
Proof.
  intros Hbs.
  destruct (strip_padding_spec _ (encode_bytes_unpadded_no_pad bs Hbs)) as (H0 & H1 & H2).
  by destruct (encode_bytes_padding bs) as [-> | [-> | ->]].
Qed.

Lemma length_encode_bytes (bs : list Z) : (length (encode_bytes bs) mod 4 = 0)%nat.
Proof.
  induction bs as [|a|a b|a b c rest IH] using list_ind3; try reflexivity.
  change (encode_bytes (a :: b :: c :: rest))
    with (encode3 a b c ++ encode_bytes rest).
  rewrite length_app. change (length (encode3 a b c)) with (1 * 4)%nat.
  by rewrite Nat.add_comm, Nat.Div0.mod_add.
Qed.

Lemma length_encode_bytes_unpadded (bs : list Z) :
  (length (encode_bytes_unpadded bs) mod 4 ≠ 1)%nat.
Proof.
  induction bs as [|a|a b|a b c rest IH] using list_ind3; try (cbn; lia).
  change (encode_bytes_unpadded (a :: b :: c :: rest))
    with (encode3 a b c ++ encode_bytes_unpadded rest).
  rewrite length_app. change (length (encode3 a b c)) with (1 * 4)%nat.
  by rewrite Nat.add_comm, Nat.Div0.mod_add.
Qed.

(** Reading the characters of an unpadded encoding as 6-bit values and
    regrouping them gives the bytes back. *)
Lemma decode_sextets_unpadded (bs : list Z) :
  Forall is_uint8 bs →
  mapM sextet_of_char (encode_bytes_unpadded bs) ≫= (λ vs, Some (decode_sextets vs))
  = Some bs.
Proof.
  assert (is_uint8 0) as H0 by (unfold is_uint8; lia).
  induction bs as [|a|a b|a b c rest IH] using list_ind3; intros Hbs.
  - reflexivity.
  - apply Forall_cons in Hbs as [Ha _].
    destruct (group_of_three a 0 0 Ha H0 H0) as ((? & ? & ? & ?) & Hn & Ha' & _).
    cbn -[Z.mul Z.div Z.modulo]. rewrite !sextet_round_trip by assumption.
    cbn -[Z.mul Z.div Z.modulo]. do 2 f_equal.
    unfold is_uint8 in Ha. Z.div_mod_to_equations. lia.
  - apply Forall_cons in Hbs as [Ha Hbs]. apply Forall_cons in Hbs as [Hb _].
    destruct (group_of_three a b 0 Ha Hb H0) as ((? & ? & ? & ?) & Hn & _).
    cbn -[Z.mul Z.div Z.modulo]. rewrite !sextet_round_trip by assumption.
    cbn -[Z.mul Z.div Z.modulo]. f_equal.
    unfold is_uint8 in Ha, Hb. f_equal; [|f_equal]; Z.div_mod_to_equations; lia.
  - apply Forall_cons in Hbs as [Ha Hbs]. apply Forall_cons in Hbs as [Hb Hbs].
    apply Forall_cons in Hbs as [Hc Hbs]. specialize (IH Hbs).
    destruct (group_of_three a b c Ha Hb Hc)
      as ((? & ? & ? & ?) & Hn & Ha' & Hb' & Hc').
    change (encode_bytes_unpadded (a :: b :: c :: rest))
      with (encode3 a b c ++ encode_bytes_unpadded rest).
    cbn -[Z.mul Z.div Z.modulo]. rewrite !sextet_round_trip by assumption.
    cbn -[Z.mul Z.div Z.modulo].
    destruct (mapM sextet_of_char (encode_bytes_unpadded rest)) as [vs|];
      [|discriminate IH].
    cbn -[Z.mul Z.div Z.modulo] in IH |- *. injection IH as ->.
    rewrite Hn, Ha', Hb', Hc'. reflexivity.
Qed.

Lemma forgiving_decode_encode_bytes (bs : list Z) :
  Forall is_uint8 bs → forgiving_decode (encode_bytes bs) = Some bs.
Proof.
  intros Hbs. unfold forgiving_decode.
  assert (filter (λ c, is_ascii_whitespace c = false) (encode_bytes bs)
          = encode_bytes bs) as ->.
  { pose proof (encode_bytes_no_space bs) as Hns.
    induction Hns as [|c l Hc Hl IH]; [reflexivity|].
    by rewrite filter_cons_True, IH. }
  rewrite length_encode_bytes. cbn [Nat.eqb].
  rewrite strip_padding_encode_bytes by exact Hbs.
  destruct (Nat.eqb_spec (length (encode_bytes_unpadded bs) mod 4) 1) as [H1|_].
  - by destruct (length_encode_bytes_unpadded bs).
  - by apply decode_sextets_unpadded.
Qed.

End Base64Facts.

(* --------------------------------------------------------------------- *)
(** ** decodeBase64 *)
(* --------------------------------------------------------------------- *)

Module DecodeBase64Facts.
Import Base64 Base64Facts AudioUtils.

Lemma get_string_of_list_ascii (l : list ascii) (i : nat) :
  String.get i (String.string_of_list_ascii l) = l !! i.
Proof.
  revert i. induction l as [|c l IH]; intros [|i]; cbn; try reflexivity. apply IH.
Qed.

Lemma length_string_of_list_ascii (l : list ascii) :
  String.length (String.string_of_list_ascii l) = length l.
Proof. induction l as [|c l IH]; cbn; [reflexivity | by rewrite IH]. Qed.

(** The copying loop: after it, slot [i] holds [f i]. *)
Lemma fill_loop (f : nat → Z) (k : nat) (bytes : list Z) :
  (k ≤ length bytes)%nat →
  foldl (λ bytes i, <[i := f i]> bytes) bytes (seq 0 k)
  = (f <$> seq 0 k) ++ drop k bytes.
Proof.
  induction k as [|k IH]; intros Hk; [by rewrite drop_0|].
  rewrite seq_S, foldl_app, fmap_app. cbn [foldl fmap list_fmap plus].
  rewrite IH by lia.
  destruct (lookup_lt_is_Some_2 bytes k) as [x Hx]; [lia|].
  rewrite (drop_S _ _ _ Hx).
  rewrite insert_app_r_alt by (by rewrite length_fmap, length_seq).
  rewrite length_fmap, length_seq, Nat.sub_diag. cbn.
  by rewrite <- app_assoc.
Qed.

(** [decodeBase64] returns the code units of what [atob] returns. *)
Lemma decodeBase64_code_units (base64 : string) :
  decodeBase64 base64
  = cbind (atob base64) (λ binaryString,
      Return ((λ i, charCodeAt binaryString i) <$> seq 0 (String.length binaryString))).
Proof.
  unfold decodeBase64. destruct (atob base64) as [bin|e]; [|reflexivity]. cbn.
  f_equal. rewrite fill_loop by (by rewrite length_replicate).
  rewrite drop_ge, app_nil_r by (by rewrite length_replicate).
  apply list_fmap_ext. intros _ i _. unfold ToUint8, charCodeAt.
  destruct (String.get i bin) as [c|]; [|reflexivity].
  pose proof (Ascii.N_ascii_bounded c). apply Z.mod_small. lia.
Qed.

Lemma charCodeAt_fromCharCode (bs : list Z) (i : nat) (b : Z) :
  Forall is_uint8 bs → bs !! i = Some b →
  charCodeAt (String.string_of_list_ascii (fromCharCode <$> bs)) i = b.
Proof.
  intros Hbs Hi. unfold charCodeAt.
  rewrite get_string_of_list_ascii, list_lookup_fmap, Hi. cbn.
  unfold fromCharCode.
  pose proof (proj1 (Forall_lookup _ _) Hbs i b Hi) as Hb. unfold is_uint8 in Hb.
  rewrite Ascii.N_ascii_embedding by lia. lia.
Qed.

Lemma atob_encode (bs : list Z) :
  Forall is_uint8 bs →
  atob (encode bs) = Return (String.string_of_list_ascii (fromCharCode <$> bs)).
Proof.
  intros Hbs. unfold atob, encode.
  by rewrite String.list_ascii_of_string_of_list_ascii, forgiving_decode_encode_bytes.
Qed.

(** C10. Decoding the standard base64 encoding of a byte array gives the
    byte array back: [atob] returns a binary string as long as the
    array, and each byte of the result is the code unit at its
    position. *)
Theorem decodeBase64_encode (b : list Z) :
  Forall is_uint8 b →
  ∃ binaryString,
    atob (encode b) = Return binaryString
    ∧ decodeBase64 (encode b) = Return b
    ∧ length b = String.length binaryString
    ∧ ∀ i x, b !! i = Some x → x = charCodeAt binaryString i.
Proof.
  intros Hb. exists (String.string_of_list_ascii (fromCharCode <$> b)).
  pose proof (atob_encode b Hb) as Hatob.
  assert (String.length (String.string_of_list_ascii (fromCharCode <$> b)) = length b)
    as Hlen by (by rewrite length_string_of_list_ascii, length_fmap).
  split_and!.
  - exact Hatob.
  - rewrite decodeBase64_code_units, Hatob. cbn [cbind]. f_equal. rewrite Hlen.
    apply list_eq. intros i. rewrite list_lookup_fmap.
    destruct (b !! i) as [x|] eqn:Hi.
    + rewrite lookup_seq_lt by (by eapply lookup_lt_Some). cbn.
      f_equal. by apply charCodeAt_fromCharCode.
    + rewrite lookup_seq_ge by (by apply lookup_ge_None). reflexivity.
  - by rewrite Hlen.
  - intros i x Hi. symmetry. by apply charCodeAt_fromCharCode.
Qed.

(** Five bytes, among them 0 and 255: one full group and a padded one. *)
Lemma decodeBase64_encode_witness :
  encode [0; 255; 16; 128; 77] = "AP8QgE0="
  ∧ decodeBase64 "AP8QgE0=" = Return [0; 255; 16; 128; 77].
Proof.
  split; [reflexivity|].
  assert (Forall is_uint8 [0; 255; 16; 128; 77]) as Hb
    by (repeat constructor; unfold is_uint8; lia).
  destruct (decodeBase64_encode [0; 255; 16; 128; 77] Hb) as (bin & _ & Hdec & _).
  exact Hdec.
Defined.

End DecodeBase64Facts.

(* --------------------------------------------------------------------- *)
(** ** decodeAudioData: the raw PCM fallback *)
(* --------------------------------------------------------------------- *)

Module DecodeAudioFacts.
Import WebAudio AudioUtils.

(** *** The [Int16Array] view *)

Lemma list_ind_pairs {A} (Pr : list A → Prop) :
  Pr [] → (∀ a, Pr [a]) → (∀ a b rest, Pr rest → Pr (a :: b :: rest)) →
  ∀ l, Pr l.
Proof.
  intros H0 H1 H2 l.
  assert (Pr l ∧ ∀ a, Pr (a :: l)) as [H _].
  { induction l as [|x l [IH0 IH1]]; [by split|].
    split; [apply IH1 | intros a; by apply H2]. }
  exact H.
Qed.

Lemma length_int16_elements (bytes : list Z) :
  length (int16_elements bytes) = (length bytes / 2)%nat.
Proof.
  induction bytes as [|lo|lo hi rest IH] using list_ind_pairs; try reflexivity.
  cbn [int16_elements length]. rewrite IH.
  change (S (S (length rest))) with (1 * 2 + length rest)%nat.
  by rewrite Nat.div_add_l.
Qed.

(** Element [k] of the view is made of bytes [2k] and [2k+1]. *)
Lemma lookup_int16_elements (bytes : list Z) (k : nat) (lo hi : Z) :
  bytes !! (2 * k)%nat = Some lo → bytes !! (2 * k + 1)%nat = Some hi →
  int16_elements bytes !! k = Some (int16_le lo hi).
Proof.
  revert k. induction bytes as [|b|b0 b1 rest IH] using list_ind_pairs;
    intros k Hlo Hhi.
  - discriminate.
  - destruct k; cbn in Hhi; [discriminate|].
    replace (k + S (k + 0) + 1)%nat with (S (S (2 * k))) in Hhi by lia.
    discriminate.
  - destruct k as [|k].
    + cbn in *. congruence.
    + replace (2 * S k)%nat with (S (S (2 * k))) in Hlo by lia.
      replace (2 * S k + 1)%nat with (S (S (2 * k + 1))) in Hhi by lia.
      cbn [int16_elements]. rewrite lookup_cons. by apply IH.
Qed.

Lemma int16_le_range (lo hi : Z) :
  is_uint8 lo → is_uint8 hi → -32768 <= int16_le lo hi <= 32767.
Proof.
  unfold is_uint8, int16_le. intros Hlo Hhi. cbv zeta.
  destruct (Z.ltb_spec (lo + 256 * hi) 32768); lia.
Qed.

(** A 16-bit sample divided by 32768 lies between -1 and 1. *)
Lemma normalized_range (v : Z) :
  -32768 <= v <= 32767 → (-1 <= v # 32768 <= 1)%Q.
Proof. intros Hv. unfold Qle. cbn. lia. Qed.

(** *** The two loops *)

Lemma length_store_loop (h : nat → float) (k : nat) (samples : list float) :
  length (foldl (λ channelData i, <[i := h i]> channelData) samples (seq 0 k))
  = length samples.
Proof.
  generalize (seq 0 k) as l. intros l. revert samples.
  induction l as [|i l IHl]; intros samples; [reflexivity|].
  cbn. by rewrite IHl, length_insert.
Qed.

(** The inner loop over [i]: every slot below the bound that exists is
    overwritten, a store past the end is dropped. *)
Lemma store_loop_lookup (h : nat → float) (k : nat) (samples : list float) (j : nat) :
  foldl (λ channelData i, <[i := h i]> channelData) samples (seq 0 k) !! j
  = if decide (j < k)%nat then (λ _, h j) <$> samples !! j else samples !! j.
Proof.
  induction k as [|k IH]; [reflexivity|].
  rewrite seq_S, foldl_app. cbn [foldl plus].
  rewrite list_lookup_insert, IH.
  rewrite length_store_loop.
  repeat case_decide; try lia; try reflexivity.
  - destruct_and!. subst j. by destruct (lookup_lt_is_Some_2 samples k) as [x ->].
  - assert (j = k) as -> by lia.
    by rewrite lookup_ge_None_2 by lia.
Qed.

(** The outer loop over the channels: channel [j] is rewritten once, by
    the pass for [j]. *)
Lemma channel_loop (g : nat → list float → list float) (k : nat) (buffer : AudioBuffer) :
  let out := foldl (λ buffer channel,
               {| sampleRate := sampleRate buffer;
                  channelData := alter (g channel) channel (channelData buffer) |})
               buffer (seq 0 k) in
  sampleRate out = sampleRate buffer
  ∧ length (channelData out) = length (channelData buffer)
  ∧ ∀ j, channelData out !! j
         = if decide (j < k)%nat then g j <$> channelData buffer !! j
           else channelData buffer !! j.
Proof.
  induction k as [|k (IHrate & IHlen & IH)]; [by split_and!|].
  cbv zeta in *. rewrite seq_S, foldl_app. cbn [foldl plus sampleRate channelData].
  split_and!; [exact IHrate | by rewrite length_alter |].
  intros j. rewrite list_lookup_alter, !IH.
  repeat case_decide; try lia; try reflexivity. subst j. reflexivity.
Qed.

(** *** The fallback as a whole *)

(** C6, as the code has it.  When the browser's own decoder rejects the
    payload, and the payload has an even number of bytes holding at least
    one frame for a channel count and sample rate the context supports,
    the fallback returns a buffer at the requested rate with
    [numChannels] channels of [byteLength / 2 / numChannels] frames, in
    which sample [i] of a channel is the signed little-endian 16-bit
    value at 16-bit index [i * numChannels + channel] divided by 32768,
    hence within [-1, 1]. *)
Theorem decodeAudioData_fallback (ctx : AudioContext) (data : list Z)
    (rate numChannels : Z) (e : exn) :
  Forall is_uint8 data →
  ctx_decodeAudioData ctx data = Throw e →
  (length data mod 2 = 0)%nat →
  0 < numChannels <= Z.of_nat (length data / 2) →
  ctx_supports ctx numChannels rate = true →
  ∃ buffer,
    decodeAudioData data ctx rate numChannels = Return buffer
    ∧ sampleRate buffer = rate
    ∧ numberOfChannels buffer = Z.to_nat numChannels
    ∧ frames buffer = (length data / 2 / Z.to_nat numChannels)%nat
    ∧ ∀ channel, (channel < Z.to_nat numChannels)%nat →
        ∃ samples,
          channelData buffer !! channel = Some samples
          ∧ length samples = (length data / 2 / Z.to_nat numChannels)%nat
          ∧ ∀ i, (i < length data / 2 / Z.to_nat numChannels)%nat →
              ∃ lo hi,
                data !! (2 * (i * Z.to_nat numChannels + channel))%nat = Some lo
                ∧ data !! (2 * (i * Z.to_nat numChannels + channel) + 1)%nat = Some hi
                ∧ samples !! i = Some (Num (int16_le lo hi # 32768))
                ∧ (-1 <= int16_le lo hi # 32768 <= 1)%Q.
Proof.
  intros Hbytes Hprimary Heven Hnc Hsupp.
  set (nc := Z.to_nat numChannels).
  set (len16 := (length data / 2)%nat).
  set (L := (len16 / nc)%nat).
  assert (0 < nc)%nat as Hnc_pos by lia.
  assert (nc ≤ len16)%nat as Hnc_le by lia.
  assert (length data = 2 * len16)%nat as Hlen.
  { subst len16. pose proof (Nat.div_mod_eq (length data) 2). lia. }
  assert (1 ≤ L)%nat as HL_pos.
  { subst L. apply (Nat.Div0.div_le_mono _ _ nc) in Hnc_le.
    by rewrite Nat.div_same in Hnc_le by lia. }
  assert (L * nc ≤ len16)%nat as HL_le.
  { subst L. rewrite Nat.mul_comm. apply Nat.Div0.mul_div_le. }
  assert (Z.of_nat (length (int16_elements data)) / numChannels = Z.of_nat L) as HLz.
  { rewrite length_int16_elements. fold len16. subst L.
    rewrite Nat2Z.inj_div. subst nc. by rewrite Z2Nat.id by lia. }
  unfold decodeAudioData. rewrite Hprimary.
  unfold Int16Array. rewrite Heven. cbn [Nat.eqb cbind].
  unfold createBuffer. rewrite HLz, Hsupp.
  replace (0 <? numChannels) with true by (symmetry; apply Z.ltb_lt; lia).
  replace (0 <? Z.of_nat L) with true by (symmetry; apply Z.ltb_lt; lia).
  cbn [andb cbind]. rewrite Nat2Z.id. fold nc.
  set (rounds := Z.to_nat ((Z.of_nat (length (int16_elements data)) + numChannels - 1)
                           / numChannels)).
  assert (L ≤ rounds)%nat as Hrounds.
  { subst rounds. rewrite <- (Nat2Z.id L), <- HLz.
    apply Z2Nat.inj_le.
    - apply Z.div_pos; lia.
    - apply Z.div_pos; lia.
    - apply Z.div_le_mono; lia. }
  set (g := λ (channel : nat) (samples : list float),
         foldl (λ channelData i,
                  <[i := normalize (int16_elements data !! (i * nc + channel)%nat)]>
                    channelData)
               samples (seq 0 rounds)).
  set (zeros := {| sampleRate := rate;
                   channelData := replicate nc (replicate L (Num 0)) |}).
  destruct (channel_loop g nc zeros) as (Hrate & Hchans & Hlookup).
  eexists. split; [reflexivity|].
  change (foldl _ zeros (seq 0 nc))
    with (foldl (λ buffer channel,
                   {| sampleRate := sampleRate buffer;
                      channelData := alter (g channel) channel (channelData buffer) |})
                zeros (seq 0 nc)).
  cbv zeta in Hrate, Hchans, Hlookup.
  set (out := foldl _ zeros (seq 0 nc)) in *.
  assert (∀ channel, (channel < nc)%nat →
            channelData out !! channel = Some (g channel (replicate L (Num 0)))) as Hchan.
  { intros channel Hch. rewrite Hlookup. rewrite decide_True by exact Hch.
    subst zeros. cbn [channelData]. by rewrite lookup_replicate_2. }
  assert (∀ channel, length (g channel (replicate L (Num 0))) = L) as HgL.
  { intros channel. subst g. cbn beta. by rewrite length_store_loop, length_replicate. }
  split_and!.
  - exact Hrate.
  - unfold numberOfChannels. rewrite Hchans. subst zeros. cbn [channelData].
    apply length_replicate.
  - unfold frames. pose proof (Hchan 0%nat Hnc_pos) as H0.
    destruct (channelData out) as [|c cs]; [discriminate|].
    cbn in H0. injection H0 as ->. apply HgL.
  - intros channel Hch. exists (g channel (replicate L (Num 0))).
    split_and!; [by apply Hchan | apply HgL |].
    intros i Hi.
    assert (i * nc + channel < len16)%nat as Hk by nia.
    destruct (lookup_lt_is_Some_2 data (2 * (i * nc + channel))) as [lo Hlo]; [lia|].
    destruct (lookup_lt_is_Some_2 data (2 * (i * nc + channel) + 1)) as [hi Hhi]; [lia|].
    exists lo, hi. split; [exact Hlo|]. split; [exact Hhi|]. split.
    + subst g. cbn beta. rewrite store_loop_lookup.
      rewrite decide_True by lia. rewrite lookup_replicate_2 by exact Hi. cbn.
      by rewrite (lookup_int16_elements _ _ lo hi Hlo Hhi).
    + apply normalized_range, int16_le_range.
      * exact (proj1 (Forall_lookup _ _) Hbytes _ _ Hlo).
      * exact (proj1 (Forall_lookup _ _) Hbytes _ _ Hhi).
Qed.

(** Six bytes of mono PCM: the extreme samples and one in between. *)
Lemma decodeAudioData_fallback_witness :
  ∃ buffer,
    decodeAudioData [0; 128; 255; 127; 0; 64] Samples.raw_only_ctx 24000 1 = Return buffer
    ∧ frames buffer = 3%nat
    ∧ channelData buffer = [[Num (-32768 # 32768); Num (32767 # 32768); Num (16384 # 32768)]].
Proof.
  assert (Forall is_uint8 [0; 128; 255; 127; 0; 64]) as Hbytes
    by (repeat constructor; unfold is_uint8; lia).
  destruct (decodeAudioData_fallback Samples.raw_only_ctx [0; 128; 255; 127; 0; 64]
              24000 1 EncodingError Hbytes eq_refl eq_refl
              ltac:(cbn; lia) eq_refl)
    as (buffer & Hrun & _ & _ & Hframes & _).
  exists buffer. split_and!; [exact Hrun | exact Hframes |].
  cbv in Hrun. injection Hrun as <-. reflexivity.
Defined.

(** C6 as stated fails on a payload of odd length: the 16-bit view
    cannot be built, and the fallback throws instead of returning a
    buffer. *)
Lemma decodeAudioData_odd_payload_throws :
  ctx_decodeAudioData Samples.raw_only_ctx [1; 2; 3] = Throw EncodingError
  ∧ decodeAudioData [1; 2; 3] Samples.raw_only_ctx 24000 1 = Throw RangeError
  ∧ ¬ ∃ buffer, decodeAudioData [1; 2; 3] Samples.raw_only_ctx 24000 1 = Return buffer.
Proof.
  split_and!; [reflexivity | reflexivity |].
  intros [buffer Hrun]. discriminate Hrun.
Qed.

(** Nor is there a buffer for the empty payload: a buffer of no frames
    is refused. *)
Lemma decodeAudioData_empty_payload_throws :
  decodeAudioData [] Samples.raw_only_ctx 24000 1 = Throw NotSupportedError.
Proof. reflexivity. Qed.

End DecodeAudioFacts.

(* --------------------------------------------------------------------- *)
(** ** generateSpeech and its cache *)
(* --------------------------------------------------------------------- *)

Module SpeechFacts.
Import GenAI GeminiService.

Section Speech.
Context (P : Platform).

Lemma truthy_nonempty (s : string) : truthy s = true ↔ s ≠ "".
Proof. destruct s; cbn; split; congruence. Qed.

(** Empty text: nothing is read, nothing is sent. *)
Lemma generateSpeech_empty (w : World) :
  generateSpeech P "" w = (Return None, w).
Proof. reflexivity. Qed.

(** A cached text is answered from the cache. *)
Lemma generateSpeech_hit (text cached : string) (w : World) :
  truthy text = true → ttsCache w !! text = Some cached →
  generateSpeech P text w = (Return (Some cached), w).
Proof.
  intros Htext Hhit. unfold generateSpeech. rewrite Htext. run_handler.
  by rewrite Hhit.
Qed.

(** A miss answered with inline audio: one request, one new entry. *)
Lemma generateSpeech_miss_stored (text audioData : string) (w : World)
    (response : GenerateContentResponse) :
  truthy text = true → ttsCache w !! text = None →
  generateContent P (requests w) (SpeechRequest text "Puck") = Return response →
  speech_data response = Some audioData → truthy audioData = true →
  generateSpeech P text w
  = (Return (Some audioData),
     set_ttsCache (<[text := audioData]> (ttsCache w))
       (set_requests (requests w ++ [SpeechRequest text "Puck"]) w)).
Proof.
  intros Htext Hmiss Hremote Hdata Htruthy.
  unfold generateSpeech, ai_generateContent. rewrite Htext. run_handler.
  by rewrite Hmiss, Hremote, Hdata, Htruthy.
Qed.

(** A miss on which the call rejects, or the response has no inline
    audio: one request, and an absent result. *)
Lemma generateSpeech_miss_failed (text : string) (w : World) :
  truthy text = true → ttsCache w !! text = None →
  (∃ e, generateContent P (requests w) (SpeechRequest text "Puck") = Throw e)
  ∨ (∃ response, generateContent P (requests w) (SpeechRequest text "Puck") = Return response
                 ∧ truthy_opt (speech_data response) = false) →
  generateSpeech P text w
  = (Return None, set_requests (requests w ++ [SpeechRequest text "Puck"]) w).
Proof.
  intros Htext Hmiss Hfail.
  unfold generateSpeech, ai_generateContent. rewrite Htext. run_handler.
  rewrite Hmiss. destruct Hfail as [[e ->] | (response & -> & Hnone)];
    [reflexivity|].
  destruct (speech_data response) as [d|]; [|reflexivity].
  cbn in Hnone. by rewrite Hnone.
Qed.

(** Whatever happens, the call returns, and the cache is either as it
    was or has gained the payload just received for this text. *)
Lemma generateSpeech_outcome (text : string) (w : World) :
  ∃ result w',
    generateSpeech P text w = (Return result, w')
    ∧ (ttsCache w' = ttsCache w
       ∨ ∃ response audioData,
           generateContent P (requests w) (SpeechRequest text "Puck") = Return response
           ∧ speech_data response = Some audioData
           ∧ truthy audioData = true
           ∧ result = Some audioData
           ∧ ttsCache w' = <[text := audioData]> (ttsCache w)).
Proof.
  destruct (truthy text) eqn:Htext.
  - destruct (ttsCache w !! text) as [cached|] eqn:Hcache.
    + do 2 eexists. split; [by apply generateSpeech_hit | by left].
    + destruct (generateContent P (requests w) (SpeechRequest text "Puck"))
        as [response|e] eqn:Hremote.
      * destruct (speech_data response) as [audioData|] eqn:Hdata.
        -- destruct (truthy audioData) eqn:Htruthy.
           ++ do 2 eexists. split; [by eapply generateSpeech_miss_stored|].
              right. by exists response, audioData.
           ++ do 2 eexists. split.
              { apply generateSpeech_miss_failed; [done..|].
                right. exists response. by rewrite Hdata. }
              by left.
        -- do 2 eexists. split.
           { apply generateSpeech_miss_failed; [done..|].
             right. exists response. by rewrite Hdata. }
           by left.
      * do 2 eexists. split.
        { apply generateSpeech_miss_failed; [done..|]. left. by exists e. }
        by left.
  - exists None, w. split; [|by left].
    unfold generateSpeech. by rewrite Htext.
Qed.

(** A miss sends exactly one request, and leaves the entries of all
    other texts as they were. *)
Lemma generateSpeech_miss (text : string) (w : World) :
  truthy text = true → ttsCache w !! text = None →
  ∃ result w',
    generateSpeech P text w = (Return result, w')
    ∧ requests w' = requests w ++ [SpeechRequest text "Puck"]
    ∧ ∀ other, other ≠ text → ttsCache w' !! other = ttsCache w !! other.
Proof.
  intros Htext Hmiss.
  destruct (generateContent P (requests w) (SpeechRequest text "Puck"))
    as [response|e] eqn:Hremote.
  - destruct (speech_data response) as [audioData|] eqn:Hdata.
    + destruct (truthy audioData) eqn:Htruthy.
      * do 2 eexists. split; [by eapply generateSpeech_miss_stored|].
        split; [reflexivity|]. intros other Hother. cbn.
        by rewrite lookup_insert_ne.
      * do 2 eexists. split.
        { apply generateSpeech_miss_failed; [done..|].
          right. exists response. by rewrite Hdata. }
        by split.
    + do 2 eexists. split.
      { apply generateSpeech_miss_failed; [done..|].
        right. exists response. by rewrite Hdata. }
      by split.
  - do 2 eexists. split.
    { apply generateSpeech_miss_failed; [done..|]. left. by exists e. }
    by split.
Qed.

(** C3, as the code has it.  A text whose first request is answered
    with inline audio is requested once: the second call returns the
    stored payload and sends nothing.  Two different texts, neither in
    the cache, cost two requests.  The empty text costs none, whatever
    the cache holds, and its result is absent. *)
Theorem speech_memoized_by_text (w : World) :
  (∀ text response audioData,
      truthy text = true → ttsCache w !! text = None →
      generateContent P (requests w) (SpeechRequest text "Puck") = Return response →
      speech_data response = Some audioData → truthy audioData = true →
      ∃ w1,
        generateSpeech P text w = (Return (Some audioData), w1)
        ∧ requests w1 = requests w ++ [SpeechRequest text "Puck"]
        ∧ generateSpeech P text w1 = (Return (Some audioData), w1))
  ∧ (∀ text1 text2,
      truthy text1 = true → truthy text2 = true → text1 ≠ text2 →
      ttsCache w !! text1 = None → ttsCache w !! text2 = None →
      requests (generateSpeech P text2 (generateSpeech P text1 w).2).2
      = requests w ++ [SpeechRequest text1 "Puck"; SpeechRequest text2 "Puck"])
  ∧ generateSpeech P "" w = (Return None, w).
Proof.
  split_and!.
  - intros text response audioData Htext Hmiss Hremote Hdata Htruthy.
    eexists. split; [by eapply generateSpeech_miss_stored|].
    split; [reflexivity|].
    apply generateSpeech_hit; [exact Htext|]. cbn. apply lookup_insert_eq.
  - intros text1 text2 H1 H2 Hne Hmiss1 Hmiss2.
    destruct (generateSpeech_miss text1 w H1 Hmiss1) as (r1 & w1 & -> & Hreq1 & Hkeep).
    cbn [snd].
    destruct (generateSpeech_miss text2 w1 H2) as (r2 & w2 & -> & Hreq2 & _).
    { by rewrite Hkeep. }
    cbn [snd]. by rewrite Hreq2, Hreq1, <- app_assoc.
  - reflexivity.
Qed.

(** C5. [generateSpeech] always returns: whatever the text, the cache
    and the service do, its completion is a value, never a thrown
    error; and a text not in the cache whose request rejects gets the
    absent result. *)
Theorem generateSpeech_never_throws (text : string) (w : World) :
  (∃ result w', generateSpeech P text w = (Return result, w'))
  ∧ (∀ e, ttsCache w !! text = None →
          generateContent P (requests w) (SpeechRequest text "Puck") = Throw e →
          (generateSpeech P text w).1 = Return None).
Proof.
  split.
  - destruct (generateSpeech_outcome text w) as (result & w' & Hrun & _).
    by exists result, w'.
  - intros e Hmiss Hremote. destruct (truthy text) eqn:Htext.
    + rewrite generateSpeech_miss_failed; [reflexivity | done | done |].
      left. by exists e.
    + unfold generateSpeech. by rewrite Htext.
Qed.

(** C8. A failed request leaves the cache as it was: when the text is
    not cached and the call rejects or its response has no inline
    audio, the result is absent, no entry appears for the text, and
    asking again sends a second request.  In general a call changes
    the cache only by storing, under its text, a non-empty payload it
    has just received. *)
Theorem speech_failure_not_cached (text : string) (w : World) :
  truthy text = true → ttsCache w !! text = None →
  (∃ e, generateContent P (requests w) (SpeechRequest text "Puck") = Throw e)
  ∨ (∃ response,
        generateContent P (requests w) (SpeechRequest text "Puck") = Return response
        ∧ truthy_opt (speech_data response) = false) →
  (∃ w1,
      generateSpeech P text w = (Return None, w1)
      ∧ ttsCache w1 = ttsCache w
      ∧ ttsCache w1 !! text = None
      ∧ requests w1 = requests w ++ [SpeechRequest text "Puck"]
      ∧ requests (generateSpeech P text w1).2
        = requests w ++ [SpeechRequest text "Puck"; SpeechRequest text "Puck"])
  ∧ (∀ text' w', ∃ result w'',
        generateSpeech P text' w' = (Return result, w'')
        ∧ (ttsCache w'' = ttsCache w'
           ∨ ∃ response audioData,
               generateContent P (requests w') (SpeechRequest text' "Puck")
               = Return response
               ∧ speech_data response = Some audioData
               ∧ truthy audioData = true
               ∧ result = Some audioData
               ∧ ttsCache w'' = <[text' := audioData]> (ttsCache w'))).
Proof.
  intros Htext Hmiss Hfail. split; [|apply generateSpeech_outcome].
  eexists. split; [by apply generateSpeech_miss_failed|].
  split_and!; [reflexivity | exact Hmiss | reflexivity |].
  destruct (generateSpeech_miss text
              (set_requests (requests w ++ [SpeechRequest text "Puck"]) w)
              Htext Hmiss) as (r2 & w2 & -> & Hreq2 & _).
  cbn [snd]. rewrite Hreq2. cbn. by rewrite <- app_assoc.
Qed.

End Speech.

(** With the service down, the speech for "hola" is absent, not an error. *)
Lemma generateSpeech_never_throws_witness :
  (generateSpeech Samples.offline "hola" Samples.fresh).1 = Return None.
Proof.
  destruct (generateSpeech_never_throws Samples.offline "hola" Samples.fresh)
    as [_ Habsent].
  exact (Habsent (Rejected "network") eq_refl eq_refl).
Defined.

(** With a service that answers, "hola" asked twice is requested once;
    "hola" then "adios" are two requests. *)
Lemma speech_memoized_witness :
  (∃ w1, generateSpeech Samples.terse "hola" Samples.fresh
         = (Return (Some "AID/fw=="), w1)
         ∧ requests w1 = [SpeechRequest "hola" "Puck"]
         ∧ generateSpeech Samples.terse "hola" w1 = (Return (Some "AID/fw=="), w1))
  ∧ requests (generateSpeech Samples.terse "adios"
                (generateSpeech Samples.terse "hola" Samples.fresh).2).2
    = [SpeechRequest "hola" "Puck"; SpeechRequest "adios" "Puck"].
Proof.
  destruct (speech_memoized_by_text Samples.terse Samples.fresh) as (Hsame & Hdiff & _).
  split.
  - apply (Hsame "hola" (Samples.inline_response "audio/L16" "AID/fw==") "AID/fw==");
      reflexivity.
  - apply (Hdiff "hola" "adios"); try reflexivity. discriminate.
Defined.

(** C3 as stated fails when the first request fails: with the service
    down, the same text asked twice is requested twice. *)
Lemma speech_same_text_requested_twice :
  let w1 := (generateSpeech Samples.offline "hola" Samples.fresh).2 in
  let w2 := (generateSpeech Samples.offline "hola" w1).2 in
  requests w2 = [SpeechRequest "hola" "Puck"; SpeechRequest "hola" "Puck"]
  ∧ length (requests w2) ≠ 1%nat.
Proof. split; [reflexivity | intros H; vm_compute in H; discriminate H]. Qed.

(** With the service down, "hola" is not cached and is requested again. *)
Lemma speech_failure_witness :
  ∃ w1, generateSpeech Samples.offline "hola" Samples.fresh = (Return None, w1)
        ∧ ttsCache w1 = ∅
        ∧ requests (generateSpeech Samples.offline "hola" w1).2
          = [SpeechRequest "hola" "Puck"; SpeechRequest "hola" "Puck"].
Proof.
  destruct (speech_failure_not_cached Samples.offline "hola" Samples.fresh
              eq_refl eq_refl (or_introl (ex_intro _ (Rejected "network") eq_refl)))
    as [(w1 & Hrun & Hcache & _ & _ & Hagain) _].
  exists w1. split_and!; [exact Hrun | exact Hcache | exact Hagain].
Defined.

End SpeechFacts.

(* --------------------------------------------------------------------- *)
(** ** performLookup *)
(* --------------------------------------------------------------------- *)

Module LookupFacts.
Import GenAI GeminiService App.

Lemma truthy_trim_start (s : string) : truthy (trim_start s) = true → truthy s = true.
Proof. by destruct s. Qed.

Lemma truthy_rev (s : string) : truthy (String.rev s) = true → truthy s = true.
Proof. by destruct s. Qed.

(** A term that is not blank is not empty. *)
Lemma truthy_trim (s : string) : truthy (trim s) = true → truthy s = true.
Proof.
  unfold trim. intros H.
  by apply truthy_trim_start, truthy_rev, truthy_trim_start, truthy_rev.
Qed.

Lemma truthy_or_else (o : option string) (d : string) :
  truthy d = true → truthy (or_else o d) = true.
Proof.
  intros Hd. unfold or_else. destruct o as [s|]; [|exact Hd].
  by destruct (truthy s) eqn:Hs.
Qed.

Section Lookup.
Context (P : Platform).

(** [lookupWord] on a response with text that parses. *)
Lemma lookupWord_parsed (term src tgt t : string) (w : World)
    (response : GenerateContentResponse) (parsed : JSON.value) :
  generateContent P (requests w) (LookupRequest term src tgt) = Return response →
  text response = Some t → truthy t = true →
  JSON_parse P (cleanJsonText t) = Return parsed →
  lookupWord P term src tgt w
  = (Return parsed, set_requests (requests w ++ [LookupRequest term src tgt]) w).
Proof.
  intros Hremote Htext Ht Hparse. unfold lookupWord, ai_generateContent.
  run_handler. by rewrite Hremote, Htext, Ht, Hparse.
Qed.

(** [lookupWord] throws in the three other cases, and only then. *)
Lemma lookupWord_throws (term src tgt : string) (w : World) :
  (∃ e, generateContent P (requests w) (LookupRequest term src tgt) = Throw e)
  ∨ (∃ response,
        generateContent P (requests w) (LookupRequest term src tgt) = Return response
        ∧ (truthy_opt (text response) = false
           ∨ ∃ t e, text response = Some t
                    ∧ JSON_parse P (cleanJsonText t) = Throw e)) →
  ∃ e, lookupWord P term src tgt w
       = (Throw e, set_requests (requests w ++ [LookupRequest term src tgt]) w).
Proof.
  unfold lookupWord, ai_generateContent. run_handler.
  intros [[e ->] | (response & -> & [Hfalsy | (t & e & -> & Hparse)])].
  - by exists e.
  - destruct (text response) as [t|]; [|by eexists].
    cbn in Hfalsy. rewrite Hfalsy. by eexists.
  - destruct (truthy t); [|by eexists].
    rewrite Hparse. by eexists.
Qed.

(** [generateConceptImage] returns whatever the service does; with no
    inline data to be had, it returns [undefined]. *)
Lemma generateConceptImage_returns (term context : string) (w : World) :
  ∃ imageUrl,
    generateConceptImage P term context w
    = (Return imageUrl, set_requests (requests w ++ [ImageRequest term context]) w)
    ∧ ((∃ e, generateContent P (requests w) (ImageRequest term context) = Throw e)
       ∨ (∃ response,
             generateContent P (requests w) (ImageRequest term context) = Return response
             ∧ first_inlineData (default [] (first_parts response)) = None) →
       imageUrl = None).
Proof.
  unfold generateConceptImage, ai_generateContent. run_handler.
  destruct (generateContent P (requests w) (ImageRequest term context))
    as [response|e].
  - destruct (first_parts response) as [parts|] eqn:Hparts.
    + destruct (first_inlineData parts) as [blob|] eqn:Hblob.
      * eexists. split; [reflexivity|].
        intros [[e He] | (r & Hr & Hnone)]; [discriminate|].
        injection Hr as <-. rewrite Hparts in Hnone. cbn in Hnone. congruence.
      * by eexists.
    + by eexists.
  - by eexists.
Qed.

(** The world in which [performLookup] sends its first request: the
    four state updates have been made. *)
Lemma performLookup_blank (term : string) (w : World) :
  truthy (trim term) = false → performLookup P term w = (Return tt, w).
Proof. intros Hblank. unfold performLookup. by rewrite Hblank. Qed.

(** A lookup whose text step succeeds with a value that is not [null]:
    the entry is assembled from the properties of the value as they
    are, whatever the image step does. *)
Lemma performLookup_entry (term t : string) (w : World)
    (response : GenerateContentResponse) (value : JSON.value)
    (parsed : PartialEntry.t) :
  truthy (trim term) = true →
  generateContent P (requests w) (LookupRequest term (nativeLang w) (targetLang w))
  = Return response →
  text response = Some t → truthy t = true →
  JSON_parse P (cleanJsonText t) = Return value →
  JSON.properties value = Return parsed →
  ∃ imageUrl w',
    performLookup P term w = (Return tt, w')
    ∧ currentEntry w'
      = Some (newEntry term parsed imageUrl (nativeLang w) (targetLang w)
                (Date_now P (clock_reads w)) (Date_now P (S (clock_reads w))))
    ∧ alerts w' = alerts w
    ∧ loading w' = false
    ∧ view w' = RESULT
    ∧ requests w'
      = requests w ++
        [LookupRequest term (nativeLang w) (targetLang w);
         ImageRequest (or_else (PartialEntry.translatedTerm parsed) term)
                      (or_else (PartialEntry.definitionNative parsed) "")]
    ∧ ((∃ e, generateContent P
               (requests w ++ [LookupRequest term (nativeLang w) (targetLang w)])
               (ImageRequest (or_else (PartialEntry.translatedTerm parsed) term)
                             (or_else (PartialEntry.definitionNative parsed) ""))
             = Throw e)
       ∨ (∃ image,
             generateContent P
               (requests w ++ [LookupRequest term (nativeLang w) (targetLang w)])
               (ImageRequest (or_else (PartialEntry.translatedTerm parsed) term)
                             (or_else (PartialEntry.definitionNative parsed) ""))
             = Return image
             ∧ first_inlineData (default [] (first_parts image)) = None) →
       imageUrl = None).
Proof.
  intros Hterm Hremote Htext Ht Hparse Hprops.
  unfold performLookup. rewrite Hterm. run_handler.
  set (w4 := set_searchQuery term
               (set_chatHistory [] (set_isChatOpen false (set_loading true w)))).
  rewrite (lookupWord_parsed term (nativeLang w) (targetLang w) t w4 response value
             Hremote Htext Ht Hparse).
  rewrite Hprops.
  set (w5 := set_requests _ w4).
  destruct (generateConceptImage_returns
              (or_else (PartialEntry.translatedTerm parsed) term)
              (or_else (PartialEntry.definitionNative parsed) "") w5)
    as (imageUrl & -> & Hnone).
  exists imageUrl. unfold now, navigateTo. subst w5 w4. cbn in Hnone |- *.
  destruct (decide (RESULT = view w)) as [Hview|Hview];
    (eexists; split; [reflexivity|]; cbn;
     split_and!; try reflexivity; try exact Hnone; try (by symmetry);
     by rewrite <- app_assoc).
Qed.

(** A lookup whose text step fails, or gives [null]: one alert, no
    entry, and no image is asked for. *)
Lemma performLookup_failed (term : string) (w : World) :
  truthy (trim term) = true →
  (∃ e, generateContent P (requests w)
          (LookupRequest term (nativeLang w) (targetLang w)) = Throw e)
  ∨ (∃ response,
        generateContent P (requests w)
          (LookupRequest term (nativeLang w) (targetLang w)) = Return response
        ∧ (truthy_opt (text response) = false
           ∨ ∃ t, text response = Some t
                  ∧ ((∃ e, JSON_parse P (cleanJsonText t) = Throw e)
                     ∨ JSON_parse P (cleanJsonText t) = Return JSON.null))) →
  ∃ w',
    performLookup P term w = (Return tt, w')
    ∧ currentEntry w' = currentEntry w
    ∧ alerts w' = alerts w ++ ["Oops! We couldn't find that word. Please try again."]
    ∧ loading w' = false
    ∧ view w' = view w
    ∧ requests w' = requests w ++ [LookupRequest term (nativeLang w) (targetLang w)].
Proof.
  intros Hterm Hfail.
  unfold performLookup. rewrite Hterm. run_handler.
  set (w4 := set_searchQuery term
               (set_chatHistory [] (set_isChatOpen false (set_loading true w)))).
  assert ((∃ e, lookupWord P term (nativeLang w) (targetLang w) w4
                = (Throw e, set_requests
                              (requests w4
                               ++ [LookupRequest term (nativeLang w) (targetLang w)]) w4))
          ∨ lookupWord P term (nativeLang w) (targetLang w) w4
            = (Return JSON.null,
               set_requests
                 (requests w4 ++ [LookupRequest term (nativeLang w) (targetLang w)]) w4))
    as [[e ->] | ->].
  { destruct Hfail as [Hrejected | (response & Hremote & [Hfalsy | (t & Htext & Hparse)])].
    - left. apply lookupWord_throws. by left.
    - left. apply lookupWord_throws. right. exists response. split; [exact Hremote|].
      by left.
    - destruct Hparse as [[e Hparse] | Hnull].
      + left. apply lookupWord_throws. right. exists response. split; [exact Hremote|].
        right. by exists t, e.
      + destruct (truthy t) eqn:Ht.
        * right. by apply (lookupWord_parsed _ _ _ t w4 response).
        * left. apply lookupWord_throws. right. exists response.
          split; [exact Hremote|]. left. by rewrite Htext. }
  - unfold alert. run_handler. eexists. split; [reflexivity|]. by cbn.
  - unfold alert. run_handler. eexists. split; [reflexivity|]. by cbn.
Qed.

(** C1, as the code has it.  For a term that is not blank: when the
    response to the text request has non-empty text that parses to a
    value other than [null], the lookup succeeds and the entry's
    examples and scenario are the lists of the parsed value, empty
    where it has none, of whatever length (so two examples and three or
    four lines exactly when the response has as many); the lookup fails
    hard, with an alert and no entry, when the request rejects, the
    response has no text, the text does not parse, or it parses to
    [null]. *)
Theorem lookup_entry_lists_as_parsed (term : string) (w : World) :
  truthy (trim term) = true →
  (∀ response t value parsed,
      generateContent P (requests w)
        (LookupRequest term (nativeLang w) (targetLang w)) = Return response →
      text response = Some t → truthy t = true →
      JSON_parse P (cleanJsonText t) = Return value →
      JSON.properties value = Return parsed →
      ∃ entry w',
        performLookup P term w = (Return tt, w')
        ∧ currentEntry w' = Some entry
        ∧ alerts w' = alerts w
        ∧ DictionaryEntry.examples entry = or_empty (PartialEntry.examples parsed)
        ∧ DictionaryEntry.scenario entry = or_empty (PartialEntry.scenario parsed)
        ∧ (length (DictionaryEntry.examples entry) = 2%nat
           ↔ length (or_empty (PartialEntry.examples parsed)) = 2%nat)
        ∧ ((3 ≤ length (DictionaryEntry.scenario entry) ≤ 4)%nat
           ↔ (3 ≤ length (or_empty (PartialEntry.scenario parsed)) ≤ 4)%nat))
  ∧ ((∃ e, generateContent P (requests w)
             (LookupRequest term (nativeLang w) (targetLang w)) = Throw e)
     ∨ (∃ response,
           generateContent P (requests w)
             (LookupRequest term (nativeLang w) (targetLang w)) = Return response
           ∧ (truthy_opt (text response) = false
              ∨ ∃ t, text response = Some t
                     ∧ ((∃ e, JSON_parse P (cleanJsonText t) = Throw e)
                        ∨ JSON_parse P (cleanJsonText t) = Return JSON.null))) →
     ∃ w',
       performLookup P term w = (Return tt, w')
       ∧ currentEntry w' = currentEntry w
       ∧ view w' = view w
       ∧ alerts w'
         = alerts w ++ ["Oops! We couldn't find that word. Please try again."]).
Proof.
  intros Hterm. split.
  - intros response t value parsed Hremote Htext Ht Hparse Hprops.
    destruct (performLookup_entry term t w response value parsed
                Hterm Hremote Htext Ht Hparse Hprops)
      as (imageUrl & w' & Hrun & Hentry & Halerts & _).
    eexists _, w'. split_and!; [exact Hrun | exact Hentry | exact Halerts | ..];
      reflexivity.
  - intros Hfail.
    destruct (performLookup_failed term w Hterm Hfail)
      as (w' & Hrun & Hentry & Halerts & _ & Hview & _).
    by exists w'.
Qed.

(** C2. When the text step succeeds and the image step fails (the
    request rejects, or its response has no inline data), the lookup
    still succeeds: no alert, the spinner off, the result view shows a
    new entry with no image.  The entry carries the term, the two
    languages and the two clock readings, and each of its text fields is
    the response's when the response has a non-empty one and a non-empty
    placeholder otherwise (the term itself for the translated term); its
    examples and scenario are the response's lists, empty where it has
    none. *)
Theorem image_failure_keeps_entry (term t : string) (w : World)
    (response : GenerateContentResponse) (value : JSON.value)
    (parsed : PartialEntry.t) :
  truthy (trim term) = true →
  generateContent P (requests w) (LookupRequest term (nativeLang w) (targetLang w))
  = Return response →
  text response = Some t → truthy t = true →
  JSON_parse P (cleanJsonText t) = Return value →
  JSON.properties value = Return parsed →
  (∃ e, generateContent P
          (requests w ++ [LookupRequest term (nativeLang w) (targetLang w)])
          (ImageRequest (or_else (PartialEntry.translatedTerm parsed) term)
                        (or_else (PartialEntry.definitionNative parsed) ""))
        = Throw e)
  ∨ (∃ image,
        generateContent P
          (requests w ++ [LookupRequest term (nativeLang w) (targetLang w)])
          (ImageRequest (or_else (PartialEntry.translatedTerm parsed) term)
                        (or_else (PartialEntry.definitionNative parsed) ""))
        = Return image
        ∧ first_inlineData (default [] (first_parts image)) = None) →
  ∃ entry w',
    performLookup P term w = (Return tt, w')
    ∧ currentEntry w' = Some entry
    ∧ alerts w' = alerts w
    ∧ loading w' = false
    ∧ view w' = RESULT
    ∧ DictionaryEntry.imageUrl entry = None
    ∧ DictionaryEntry.term entry = term
    ∧ DictionaryEntry.sourceLang entry = nativeLang w
    ∧ DictionaryEntry.targetLang entry = targetLang w
    ∧ DictionaryEntry.id entry = pretty (Date_now P (clock_reads w))
    ∧ DictionaryEntry.createdAt entry = Date_now P (S (clock_reads w))
    ∧ (∀ s, PartialEntry.translatedTerm parsed = Some s → truthy s = true →
            DictionaryEntry.translatedTerm entry = s)
    ∧ (truthy_opt (PartialEntry.translatedTerm parsed) = false →
       DictionaryEntry.translatedTerm entry = term)
    ∧ (∀ s, PartialEntry.definitionTarget parsed = Some s → truthy s = true →
            DictionaryEntry.definitionTarget entry = s)
    ∧ (truthy_opt (PartialEntry.definitionTarget parsed) = false →
       DictionaryEntry.definitionTarget entry = "Definition not found")
    ∧ (∀ s, PartialEntry.definitionNative parsed = Some s → truthy s = true →
            DictionaryEntry.definitionNative entry = s)
    ∧ (truthy_opt (PartialEntry.definitionNative parsed) = false →
       DictionaryEntry.definitionNative entry = "Definition not found")
    ∧ (∀ s, PartialEntry.usageNote parsed = Some s → truthy s = true →
            DictionaryEntry.usageNote entry = s)
    ∧ (truthy_opt (PartialEntry.usageNote parsed) = false →
       DictionaryEntry.usageNote entry = "No usage note available.")
    ∧ (∀ l, PartialEntry.examples parsed = Some l → DictionaryEntry.examples entry = l)
    ∧ (PartialEntry.examples parsed = None → DictionaryEntry.examples entry = [])
    ∧ (∀ l, PartialEntry.scenario parsed = Some l → DictionaryEntry.scenario entry = l)
    ∧ (PartialEntry.scenario parsed = None → DictionaryEntry.scenario entry = [])
    ∧ truthy (DictionaryEntry.term entry) = true
    ∧ truthy (DictionaryEntry.translatedTerm entry) = true
    ∧ truthy (DictionaryEntry.definitionTarget entry) = true
    ∧ truthy (DictionaryEntry.definitionNative entry) = true
    ∧ truthy (DictionaryEntry.usageNote entry) = true.
Proof.
  intros Hterm Hremote Htext Ht Hparse Hprops Himage.
  destruct (performLookup_entry term t w response value parsed
              Hterm Hremote Htext Ht Hparse Hprops)
    as (imageUrl & w' & Hrun & Hentry & Halerts & Hloading & Hview & _ & Hnone).
  rewrite (Hnone Himage) in Hentry.
  eexists _, w'.
  split_and!;
    [exact Hrun | exact Hentry | exact Halerts | exact Hloading | exact Hview | ..];
    cbn [newEntry DictionaryEntry.imageUrl DictionaryEntry.term
         DictionaryEntry.translatedTerm DictionaryEntry.definitionTarget
         DictionaryEntry.definitionNative DictionaryEntry.usageNote
         DictionaryEntry.examples DictionaryEntry.scenario DictionaryEntry.id
         DictionaryEntry.createdAt DictionaryEntry.sourceLang
         DictionaryEntry.targetLang];
    try reflexivity;
    lazymatch goal with
    | |- ∀ s, _ = Some s → truthy s = true → _ =>
        intros s Hfield Hs; rewrite Hfield; unfold or_else; by rewrite Hs
    | |- truthy_opt ?field = false → _ =>
        unfold truthy_opt, or_else;
        destruct field as [s|]; [by intros ->| done]
    | |- ∀ l, _ = Some l → _ => by intros l ->
    | |- _ = None → _ => by intros ->
    | _ => idtac
    end.
  - by apply truthy_trim.
  - by apply truthy_or_else, truthy_trim.
  - by apply truthy_or_else.
  - by apply truthy_or_else.
  - by apply truthy_or_else.
Qed.

End Lookup.

(** The service answers the lookup of "brick" with an object that has
    one example and no scenario: the lookup succeeds and the entry has
    that example; when it answers with the text null the lookup fails
    with an alert. *)
Lemma lookup_entry_witness :
  (∃ entry w',
      performLookup (Samples.answering Samples.brick_json) "brick" Samples.fresh
      = (Return tt, w')
      ∧ currentEntry w' = Some entry
      ∧ DictionaryEntry.examples entry
        = [ {| Example.target := "Una casa de ladrillo.";
               Example.native := "A brick house." |} ]
      ∧ DictionaryEntry.scenario entry = [])
  ∧ (∃ w',
      performLookup (Samples.answering "null") "brick" Samples.fresh = (Return tt, w')
      ∧ currentEntry w' = None
      ∧ alerts w' = ["Oops! We couldn't find that word. Please try again."]).
Proof.
  split.
  - destruct (lookup_entry_lists_as_parsed (Samples.answering Samples.brick_json)
                "brick" Samples.fresh eq_refl)
      as [Hok _].
    destruct (Hok (Samples.text_response Samples.brick_json) Samples.brick_json
                (JSON.object Samples.brick_fields) Samples.brick_fields
                eq_refl eq_refl eq_refl eq_refl eq_refl)
      as (entry & w' & Hrun & Hentry & _ & Hex & Hsc & _).
    by exists entry, w'.
  - destruct (lookup_entry_lists_as_parsed (Samples.answering "null")
                "brick" Samples.fresh eq_refl)
      as [_ Hfail].
    destruct Hfail as (w' & Hrun & Hentry & _ & Halerts).
    { right. exists (Samples.text_response "null"). split; [reflexivity|].
      right. exists "null". split; [reflexivity | by right]. }
    by exists w'.
Defined.


(** C1 as stated fails on a response without examples or scenario: the
    lookup succeeds all the same, no alert is shown, and the entry has
    neither two examples nor three or four scenario lines. *)
Lemma lookup_succeeds_without_examples :
  (performLookup Samples.terse "brick" Samples.fresh).1 = Return tt
  ∧ view (performLookup Samples.terse "brick" Samples.fresh).2 = RESULT
  ∧ alerts (performLookup Samples.terse "brick" Samples.fresh).2 = []
  ∧ ∃ entry,
      currentEntry (performLookup Samples.terse "brick" Samples.fresh).2 = Some entry
      ∧ DictionaryEntry.examples entry = []
      ∧ DictionaryEntry.scenario entry = []
      ∧ length (DictionaryEntry.examples entry) ≠ 2%nat
      ∧ ¬ (3 ≤ length (DictionaryEntry.scenario entry) ≤ 4)%nat.
Proof.
  vm_compute. split_and!; try reflexivity.
  eexists. split; [reflexivity|]. cbn. split_and!; try reflexivity; lia.
Qed.

(** The lookup of "brick" answered with four fields and no image: the
    entry has the translation and the definitions of the answer, the
    placeholder for the usage note the answer lacks, and no image. *)
Lemma image_failure_witness :
  ∃ entry w',
    performLookup (Samples.answering Samples.brick_json) "brick" Samples.fresh
    = (Return tt, w')
    ∧ currentEntry w' = Some entry
    ∧ DictionaryEntry.imageUrl entry = None
    ∧ DictionaryEntry.term entry = "brick"
    ∧ DictionaryEntry.translatedTerm entry = "ladrillo"
    ∧ DictionaryEntry.definitionTarget entry = "Bloque de arcilla cocida."
    ∧ DictionaryEntry.definitionNative entry = "Block of baked clay."
    ∧ DictionaryEntry.usageNote entry = "No usage note available."
    ∧ DictionaryEntry.examples entry
      = [ {| Example.target := "Una casa de ladrillo.";
             Example.native := "A brick house." |} ].
Proof.
  destruct (image_failure_keeps_entry (Samples.answering Samples.brick_json)
              "brick" Samples.brick_json Samples.fresh
              (Samples.text_response Samples.brick_json)
              (JSON.object Samples.brick_fields) Samples.brick_fields
              eq_refl eq_refl eq_refl eq_refl eq_refl eq_refl
              (or_intror (ex_intro _ Samples.no_response (conj eq_refl eq_refl))))
    as (entry & w' & Hrun & Hentry & _ & _ & _ & Himg & Hterm & _ & _ & _ & _
        & Htr & _ & Hdt & _ & Hdn & _ & _ & Hun & Hex & _).
  exists entry, w'.
  split_and!; [exact Hrun | exact Hentry | exact Himg | exact Hterm
              | exact (Htr "ladrillo" eq_refl eq_refl)
              | exact (Hdt "Bloque de arcilla cocida." eq_refl eq_refl)
              | exact (Hdn "Block of baked clay." eq_refl eq_refl)
              | exact (Hun eq_refl)
              | exact (Hex _ eq_refl)].
Defined.

End LookupFacts.

(* --------------------------------------------------------------------- *)
(** ** playAudio: one request at a time *)
(* --------------------------------------------------------------------- *)

Module PlaybackFacts.
Import App AudioRequests.


Section Playback.
Context (P : Platform).


(** A request that is let in sets the marker and goes on as
    [playAudio_pending]. *)
Lemma playAudio_admitted (text uniqueId : string) (w : World) :
  marker_set w = false → truthy text = true →
  playAudio P text uniqueId w
  = playAudio_pending P text (set_audioLoadingId (Some uniqueId) w).
Proof.
  intros Hclear Htext. unfold playAudio. rewrite Hclear, Htext. reflexivity.
Qed.




(** Pressing a button and letting the request settle, with nothing in
    between, is one whole call of [playAudio]. *)
Lemma click_then_settle (b : AudioButton) (text uniqueId : string) (w : World) :
  call_of b w = Some (text, uniqueId) →
  world (run P [Click b; Settle 0] (start w)) = (playAudio P text uniqueId w).2.
Proof.
  intros Hcall. unfold run, start. cbn [foldl step world]. rewrite Hcall.
  unfold enter, playAudio. cbn [world pending].
  destruct (marker_set w); [reflexivity|].
  destruct (truthy text); reflexivity.
Qed.

(** The pre-fetch of speech for a new entry is one of the other handlers:
    it leaves the marker alone. *)
Lemma prefetchSpeech_keeps_marker (w : World) :
  audioLoadingId (prefetchSpeech P w).2 = audioLoadingId w.
Proof.
  unfold prefetchSpeech. run_handler.
  destruct (currentEntry w) as [e|]; [|reflexivity].
  destruct (truthy (DictionaryEntry.translatedTerm e)); [|reflexivity].
  destruct (SpeechFacts.generateSpeech_outcome P (DictionaryEntry.translatedTerm e) w)
    as (result & w' & Hrun & Hcache).
  rewrite Hrun. cbn.
  revert Hrun. unfold GeminiService.generateSpeech, GeminiService.ai_generateContent.
  run_handler.
  destruct (negb (truthy (DictionaryEntry.translatedTerm e))); [by intros [= _ <-]|].
  destruct (ttsCache w !! DictionaryEntry.translatedTerm e); [by intros [= _ <-]|].
  destruct (generateContent P (requests w) _) as [response|err]; [|by intros [= _ <-]].
  destruct (GeminiService.speech_data response) as [d|]; [|by intros [= _ <-]].
  destruct (truthy d); by intros [= _ <-].
Qed.


End Playback.



End PlaybackFacts.

(* --------------------------------------------------------------------- *)
(** ** Navigation *)
(* --------------------------------------------------------------------- *)

Module NavigationFacts.
Import App Navigation.

(** [navigateTo] never throws. *)
Lemma navigateTo_returns (newView : AppView) (w : World) :
  (navigateTo newView w).1 = Return tt.
Proof. unfold navigateTo. by destruct (decide (newView = view w)). Qed.

Lemma last_snoc_take {A} (l : list A) (x : A) :
  last (l ++ [x]) = Some x ∧ take (length (l ++ [x]) - 1) (l ++ [x]) = l.
Proof.
  split; [apply last_snoc|].
  rewrite length_app. cbn. replace (length l + 1 - 1)%nat with (length l) by lia.
  by rewrite take_app_length.
Qed.

(** Going to another view and back leaves the state as it was; going to
    the view one is on does nothing. *)
Theorem navigateTo_goBack (newView : AppView) (w : World) :
  newView ≠ view w →
  goBack (navigateTo newView w).2 = w
  ∧ view (navigateTo newView w).2 = newView
  ∧ (navigateTo (view w) w).2 = w.
Proof.
  intros Hne. unfold navigateTo.
  rewrite decide_False by exact Hne. rewrite decide_True by reflexivity.
  cbn [snd]. split_and!; [|reflexivity..].
  unfold goBack. cbn [history view set_view set_history].
  destruct (last_snoc_take (history w) (view w)) as [-> ->].
  by destruct w.
Qed.

Lemma navigateTo_goBack_witness :
  goBack (navigateTo NOTEBOOK (Navigation.letsGo Samples.fresh)).2
  = Navigation.letsGo Samples.fresh.
Proof.
  by destruct (navigateTo_goBack NOTEBOOK (Navigation.letsGo Samples.fresh)
                 ltac:(discriminate)) as [Hback _].
Defined.

Lemma no_repeat_snoc (views : list AppView) (a b : AppView) :
  no_repeat (views ++ [a; b]) ↔ no_repeat (views ++ [a]) ∧ a ≠ b.
Proof.
  induction views as [|v [|v' views] IH]; cbn in *; [tauto | tauto |].
  rewrite IH. tauto.
Qed.

Lemma no_repeat_cut (views : list AppView) (a : AppView) :
  no_repeat (views ++ [a]) → no_repeat views.
Proof.
  induction views as [|v [|v' views] IH]; cbn in *; [done | done |].
  intros [Hne Hrest]. split; [exact Hne | by apply IH].
Qed.

(** A handler called on the page as it is navigates as [navigateTo]. *)
Lemma navigateTo_from_current (newView : AppView) (w : World) :
  navigateTo_from (view w) newView w = (navigateTo newView w).2.
Proof. unfold navigateTo_from, navigateTo. by destruct (decide (newView = view w)). Qed.

(** Onboarding is never a view to go back to, nor one a lookup was
    started from. *)
Lemma make_move_never_onboarding (s : Session) (m : move) :
  (ONBOARDING ∉ history (page s)) ∧ (ONBOARDING ∉ in_flight s) →
  (ONBOARDING ∉ history (page (make_move s m)))
  ∧ (ONBOARDING ∉ in_flight (make_move s m)).
Proof.
  intros [Hnever Hflight]. destruct m as [| | |newView| |k]; cbn [make_move].
  - case_bool_decide; [|tauto]. by cbn.
  - destruct (back_shown (page s)); [|tauto]. cbn. split; [|exact Hflight].
    unfold goBack. destruct (last (history (page s))) as [prevView|] eqn:Hlast.
    + cbn. intros Hin. apply Hnever. eapply elem_of_sublist; [exact Hin|].
      apply sublist_take.
    + by destruct (_ && _).
  - destruct (_ && _); [|tauto]. cbn. split; [set_solver | exact Hflight].
  - case_bool_decide as Hview; cbn [negb andb]; [tauto|].
    case_bool_decide as Hnew; cbn [negb andb]; [tauto|]. cbn.
    split; [|exact Hflight].
    unfold navigateTo. destruct (decide (newView = view (page s))); cbn; set_solver.
  - destruct (lookup_offered (page s)) eqn:Hoffered; [|tauto]. cbn.
    split; [exact Hnever|].
    intros [Hin | Hview%list_elem_of_singleton]%elem_of_app; [tauto|].
    unfold lookup_offered in Hoffered. rewrite <- Hview in Hoffered.
    by cbn in Hoffered.
  - destruct (in_flight s !! k) as [seen|] eqn:Hk; [|tauto]. cbn.
    assert (seen ≠ ONBOARDING) as Hseen.
    { intros ->. apply Hflight. by eapply list_elem_of_lookup_2. }
    split.
    + unfold navigateTo_from. destruct (decide (RESULT = seen)); cbn; set_solver.
    + intros Hin. apply Hflight. by eapply list_elem_of_delete_inv.
Qed.

(** What holds of the view and the history wherever the user has got to,
    as long as lookups land where they were started. *)
Lemma make_move_invariant (s : Session) (m : move) :
  lands_in_place s [m] = true →
  ONBOARDING ∉ in_flight s →
  (no_repeat (history (page s) ++ [view (page s)])
   ∧ (ONBOARDING ∉ history (page s))
   ∧ (view (page s) = ONBOARDING → history (page s) = [])) →
  no_repeat (history (page (make_move s m)) ++ [view (page (make_move s m))])
  ∧ (ONBOARDING ∉ history (page (make_move s m)))
  ∧ (view (page (make_move s m)) = ONBOARDING → history (page (make_move s m)) = []).
Proof.
  intros Hplace Hflight (Hrep & Hnever & Hfirst). set (w := page s) in *.
  destruct m as [| | |newView| |k]; cbn [make_move].
  - case_bool_decide as Hview; [|tauto].
    unfold letsGo. cbn. fold w. rewrite (Hfirst Hview).
    split_and!; [done | set_solver | done].
  - unfold back_shown. fold w. case_bool_decide as Hview; cbn [negb andb]; [tauto|].
    destruct ((0 <? length (history w))%nat || negb (bool_decide (view w = SEARCH)))
      eqn:Hshown; [|tauto].
    cbn. fold w. unfold goBack. destruct (last (history w)) as [prevView|] eqn:Hlast.
    + apply last_Some in Hlast as [older Hhist]. rewrite Hhist.
      destruct (last_snoc_take older prevView) as [_ ->].
      rewrite Hhist in Hrep, Hnever. rewrite <- app_assoc in Hrep. cbn in Hrep |- *.
      apply no_repeat_snoc in Hrep as [Hrep _].
      assert (prevView ≠ ONBOARDING) as Hprev by (intros ->; set_solver).
      split_and!; [exact Hrep | set_solver | done].
    + apply last_None in Hlast. rewrite Hlast in Hshown. cbn in Hshown.
      apply negb_true_iff, bool_decide_eq_false in Hshown.
      rewrite (bool_decide_eq_false_2 _ Hshown), (bool_decide_eq_false_2 _ Hview).
      cbn. rewrite Hlast. split_and!; [done | set_solver | done].
  - fold w. case_bool_decide as Hview; cbn [negb andb]; [tauto|].
    case_bool_decide as Hsearch; cbn [negb andb]; [tauto|].
    unfold goHome. cbn. split_and!; [done | set_solver | done].
  - fold w. case_bool_decide as Hview; cbn [negb andb]; [tauto|].
    case_bool_decide as Hnew; cbn [negb andb]; [tauto|]. cbn. fold w.
    unfold navigateTo. destruct (decide (newView = view w)) as [->|Hne]; cbn;
      [tauto|].
    rewrite <- app_assoc. cbn. split_and!.
    + apply no_repeat_snoc. split; [exact Hrep | congruence].
    + set_solver.
    + done.
  - destruct (lookup_offered (page s)); cbn; tauto.
  - cbn in Hplace. destruct (in_flight s !! k) as [seen|] eqn:Hk; [|tauto].
    rewrite andb_true_r in Hplace. apply bool_decide_eq_true in Hplace as ->.
    cbn. fold w. rewrite navigateTo_from_current.
    unfold navigateTo. destruct (decide (RESULT = view w)) as [Heq|Hne]; cbn;
      [tauto|].
    rewrite <- app_assoc. cbn. split_and!.
    + apply no_repeat_snoc. split; [exact Hrep | congruence].
    + assert (view w ≠ ONBOARDING) as Hview.
      { intros Hview. apply Hflight. rewrite <- Hview.
        by eapply list_elem_of_lookup_2. }
      set_solver.
    + done.
Qed.

(** From the onboarding page, whatever the user does to move about and
    whenever lookups land: onboarding is never a view to go back to.  As
    long as every lookup lands on the view it was started from, no view
    is entered from itself, and the back button, whenever it is on the
    page, leads to another view. *)
Theorem back_leaves_when_lookups_land_in_place (s0 : Session) (moves : list move) :
  view (page s0) = ONBOARDING → history (page s0) = [] → in_flight s0 = [] →
  (ONBOARDING ∉ history (page (foldl make_move s0 moves)))
  ∧ (lands_in_place s0 moves = true →
     no_repeat (history (page (foldl make_move s0 moves))
                ++ [view (page (foldl make_move s0 moves))])
     ∧ (back_shown (page (foldl make_move s0 moves)) = true →
        view (goBack (page (foldl make_move s0 moves)))
        ≠ view (page (foldl make_move s0 moves)))).
Proof.
  intros Hview Hhist Hflight.
  assert ((ONBOARDING ∉ history (page s0)) ∧ (ONBOARDING ∉ in_flight s0)) as Hnever0.
  { rewrite Hhist, Hflight. split; set_solver. }
  assert (no_repeat (history (page s0) ++ [view (page s0)])
          ∧ (ONBOARDING ∉ history (page s0))
          ∧ (view (page s0) = ONBOARDING → history (page s0) = [])) as Hinit.
  { rewrite Hhist. split_and!; [done | set_solver | done]. }
  clear Hview Hhist Hflight. split.
  - clear Hinit. revert s0 Hnever0.
    induction moves as [|m moves IH]; intros s0 Hnever0; [tauto|].
    cbn [foldl]. apply IH. by apply make_move_never_onboarding.
  - intros Hplace.
    assert (no_repeat (history (page (foldl make_move s0 moves))
                       ++ [view (page (foldl make_move s0 moves))])
            ∧ (ONBOARDING ∉ history (page (foldl make_move s0 moves)))
            ∧ (view (page (foldl make_move s0 moves)) = ONBOARDING
               → history (page (foldl make_move s0 moves)) = []))
      as (Hrep & Hnever & Hfirst).
    { revert s0 Hnever0 Hinit Hplace.
      induction moves as [|m moves IH]; intros s0 Hnever0 Hinit Hplace; [exact Hinit|].
      cbn [foldl]. cbn [lands_in_place] in Hplace.
      apply andb_true_iff in Hplace as [Hm Hrest].
      apply IH; [by apply make_move_never_onboarding | | exact Hrest].
      apply make_move_invariant; [|tauto | exact Hinit].
      cbn [lands_in_place]. by rewrite Hm. }
    split; [exact Hrep|].
    set (w := page (foldl make_move s0 moves)) in *.
    unfold back_shown. intros Hshown.
    apply andb_true_iff in Hshown as [Hview' Hrest].
    apply negb_true_iff, bool_decide_eq_false in Hview'.
    unfold goBack. destruct (last (history w)) as [prevView|] eqn:Hlast.
    + apply last_Some in Hlast as [older Hhist']. cbn.
      rewrite Hhist', <- app_assoc in Hrep. cbn in Hrep.
      by apply no_repeat_snoc in Hrep as [_ Hne].
    + apply last_None in Hlast. rewrite Hlast in Hrest. cbn in Hrest.
      apply negb_true_iff, bool_decide_eq_false in Hrest.
      rewrite bool_decide_eq_false_2 by exact Hrest.
      rewrite bool_decide_eq_false_2 by exact Hview'. cbn. congruence.
Qed.

(** Onboarding, a lookup that lands on the search view it was made from,
    the notebook, back: the result is on show, and back again leads to the
    search view. *)
Lemma back_leaves_witness :
  view (page (foldl make_move (opening Samples.fresh)
                [LetsGo; Submit; Land 0; Goto NOTEBOOK; Back])) = RESULT
  ∧ view (goBack (page (foldl make_move (opening Samples.fresh)
                          [LetsGo; Submit; Land 0; Goto NOTEBOOK; Back]))) ≠ RESULT.
Proof.
  split; [reflexivity|].
  destruct (back_leaves_when_lookups_land_in_place (opening Samples.fresh)
              [LetsGo; Submit; Land 0; Goto NOTEBOOK; Back] eq_refl eq_refl eq_refl)
    as (_ & Hplace).
  destruct (Hplace eq_refl) as (_ & Hback).
  exact (Hback eq_refl).
Defined.

(** The condition on lookups is needed.  A lookup is submitted on the
    search view, the user opens the notebook, and the lookup lands: the
    search view is pushed although the notebook was on show, and after one
    step back the back button leads from the search view to itself. *)
Lemma late_landing_repeats_view :
  history (page (foldl make_move (opening Samples.fresh)
                   [LetsGo; Submit; Goto NOTEBOOK; Land 0])) = [SEARCH; SEARCH]
  ∧ view (page (foldl make_move (opening Samples.fresh)
                  [LetsGo; Submit; Goto NOTEBOOK; Land 0; Back])) = SEARCH
  ∧ back_shown (page (foldl make_move (opening Samples.fresh)
                        [LetsGo; Submit; Goto NOTEBOOK; Land 0; Back])) = true
  ∧ view (goBack (page (foldl make_move (opening Samples.fresh)
                          [LetsGo; Submit; Goto NOTEBOOK; Land 0; Back]))) = SEARCH.
Proof. by vm_compute. Qed.

End NavigationFacts.

(* --------------------------------------------------------------------- *)
(** ** The notebook as a whole *)
(* --------------------------------------------------------------------- *)

Module NotebookInvariants.
Import App.

Lemma find_id_found (entries : list DictionaryEntry.t) (entry m : DictionaryEntry.t) :
  List.find (λ n, String.eqb (DictionaryEntry.id n) (DictionaryEntry.id entry)) entries
  = Some m →
  m ∈ entries ∧ DictionaryEntry.id m = DictionaryEntry.id entry.
Proof.
  intros Hfind. apply List.find_some in Hfind as [Hin Heq].
  split; [by apply list_elem_of_In | by apply String.eqb_eq].
Qed.

Lemma find_id_missing (entries : list DictionaryEntry.t) (entry : DictionaryEntry.t) :
  List.find (λ n, String.eqb (DictionaryEntry.id n) (DictionaryEntry.id entry)) entries
  = None →
  DictionaryEntry.id entry ∉ DictionaryEntry.id <$> entries.
Proof.
  intros Hfind Hin. apply list_elem_of_fmap in Hin as (n & Hid & Hn).
  apply List.find_none with (x := n) in Hfind; [|by apply list_elem_of_In].
  rewrite Hid, String.eqb_refl in Hfind. discriminate.
Qed.

(** Saving keeps the ids of the notebook pairwise distinct, never drops
    or moves a saved entry, and leaves the notebook holding an entry with
    the id of the one saved. *)
Theorem save_keeps_ids_distinct (w : World) (entry : DictionaryEntry.t) :
  NoDup (DictionaryEntry.id <$> notebook w) →
  NoDup (DictionaryEntry.id <$> notebook (save w entry))
  ∧ (notebook (save w entry) = notebook w
     ∨ notebook (save w entry) = entry :: notebook w)
  ∧ DictionaryEntry.id entry ∈ DictionaryEntry.id <$> notebook (save w entry).
Proof.
  intros Hnd. unfold save, addToNotebook. cbn [currentEntry set_currentEntry notebook].
  destruct (List.find _ (notebook w)) as [m|] eqn:Hfind; cbn.
  - apply find_id_found in Hfind as [Hin Hid].
    split_and!; [exact Hnd | by left |].
    rewrite <- Hid. by apply list_elem_of_fmap_2.
  - apply find_id_missing in Hfind.
    split_and!; [by apply NoDup_cons | by right | left].
Qed.

(** Two lookups of the same word made at different times are two entries;
    a second save of either changes nothing. *)
Lemma save_keeps_ids_distinct_witness :
  NoDup (DictionaryEntry.id <$>
           notebook (save (save (save Samples.fresh (Samples.entry "1" "brick"))
                                (Samples.entry "2" "brick"))
                          (Samples.entry "1" "brick"))).
Proof.
  assert (NoDup (DictionaryEntry.id <$>
                   notebook (save (save Samples.fresh (Samples.entry "1" "brick"))
                                  (Samples.entry "2" "brick")))) as Hnd
    by (apply (bool_decide_unpack _); vm_compute; reflexivity).
  by destruct (save_keeps_ids_distinct _ (Samples.entry "1" "brick") Hnd) as [Hkept _].
Defined.

End NotebookInvariants.

(* --------------------------------------------------------------------- *)
(** ** Flashcards *)
(* --------------------------------------------------------------------- *)

Module FlashcardFacts.
Import App Flashcards AppPage.

Lemma arrows_in_range (len i : Z) :
  0 <= i < len →
  0 <= next_card len i < len ∧ 0 <= previous_card len i < len.
Proof.
  intros Hi. unfold next_card, previous_card.
  destruct (Z.ltb_spec i (len - 1)), (Z.ltb_spec 0 i); lia.
Qed.

(** On a notebook that is not empty the arrows keep the index on a card,
    undo each other, and wrap around at both ends. *)
Theorem arrows_stay_on_cards (len i : Z) :
  0 <= i < len →
  0 <= next_card len i < len
  ∧ 0 <= previous_card len i < len
  ∧ previous_card len (next_card len i) = i
  ∧ next_card len (previous_card len i) = i
  ∧ next_card len (len - 1) = 0
  ∧ previous_card len 0 = len - 1.
Proof.
  intros Hi. unfold next_card, previous_card.
  repeat match goal with
         | |- context [?a <? ?b] => destruct (Z.ltb_spec a b)
         end; lia.
Qed.

Lemma arrows_stay_on_cards_witness :
  next_card 3 2 = 0 ∧ previous_card 3 0 = 2 ∧ previous_card 3 (next_card 3 2) = 2.
Proof.
  destruct (arrows_stay_on_cards 3 2 ltac:(lia)) as (_ & _ & Hback & _ & Hwrap & Hlast).
  split_and!; [exact Hwrap | exact Hlast | exact Hback].
Defined.

(** [startFlashcards] on an empty notebook only tells the user so. *)
Lemma startFlashcards_empty (p : Page) :
  notebook (base p) = [] →
  ∃ p', startFlashcards p = (Return tt, p')
        ∧ view (base p') = view (base p)
        ∧ history (base p') = history (base p)
        ∧ alerts (base p') = alerts (base p)
                             ++ ["Your Notebook is empty! Add some words first."].
Proof.
  intros Hempty. unfold startFlashcards. rewrite Hempty.
  eexists. split; [reflexivity|]. by cbn.
Qed.

Lemma arrow_keeps_card (p : Page) (left : bool) :
  0 <= flashcardIndex p < Z.of_nat (length (notebook (base p))) →
  0 <= flashcardIndex (if left then previousCard p else nextCard p)
    < Z.of_nat (length (notebook (base (if left then previousCard p else nextCard p))))
  ∧ notebook (base (if left then previousCard p else nextCard p)) = notebook (base p)
  ∧ isFlipped (if left then previousCard p else nextCard p) = false.
Proof.
  intros Hi.
  destruct (arrows_in_range _ _ Hi) as [Hnext Hprev].
  destruct left; unfold previousCard, nextCard;
    cbn [flashcardIndex base isFlipped set_isFlipped set_flashcardIndex];
    (split; [lia|]); by split.
Qed.

(** With at least one word saved, [startFlashcards] opens the flashcards
    view on the first card, and however the arrows are pressed afterwards
    the index names a saved entry, shown face up; with no word saved it
    shows an alert and stays where it is. *)
Theorem flashcards_always_on_a_card (p : Page) (arrows : list bool) :
  notebook (base p) ≠ [] →
  view (base (startFlashcards p).2) = FLASHCARDS
  ∧ flashcardIndex (startFlashcards p).2 = 0
  ∧ is_Some (notebook (base p) !!
               Z.to_nat (flashcardIndex
                           (foldl (λ p (left : bool), if left then previousCard p else nextCard p)
                                  (startFlashcards p).2 arrows)))
  ∧ 0 <= flashcardIndex
           (foldl (λ p (left : bool), if left then previousCard p else nextCard p)
                  (startFlashcards p).2 arrows)
  ∧ isFlipped (foldl (λ p (left : bool), if left then previousCard p else nextCard p)
                     (startFlashcards p).2 arrows) = false.
Proof.
  intros Hsome.
  assert (∃ p1, startFlashcards p = (Return tt, p1)
                ∧ view (base p1) = FLASHCARDS
                ∧ flashcardIndex p1 = 0 ∧ isFlipped p1 = false
                ∧ notebook (base p1) = notebook (base p)) as (p1 & Hrun & Hview & H0 & Hup & Hbook).
  { unfold startFlashcards. destruct (notebook (base p)) as [|n ns] eqn:Hn; [done|].
    unfold PageRun.on_world, navigateTo. cbn.
    destruct (decide (FLASHCARDS = view (base p))) as [Heq|Hne];
      eexists; (split; [reflexivity|]); cbn; by rewrite ?Hn. }
  rewrite Hrun. cbn [snd].
  assert (0 <= flashcardIndex p1 < Z.of_nat (length (notebook (base p1)))
          ∧ notebook (base p1) = notebook (base p) ∧ isFlipped p1 = false) as Hinv.
  { rewrite Hbook, H0. split; [|by split].
    destruct (notebook (base p)); [done | cbn; lia]. }
  split_and!; [exact Hview | exact H0 | ..];
    clear Hrun Hview H0 Hup Hbook;
    revert p1 Hinv; induction arrows as [|left arrows IH]; intros p1 (Hi & Hbook & Hup);
    cbn [foldl].
  - apply lookup_lt_is_Some_2. rewrite <- Hbook. lia.
  - apply IH. destruct (arrow_keeps_card p1 left Hi) as (Hi' & Hbook' & Hup').
    split; [exact Hi'|]. split; [congruence | exact Hup'].
  - lia.
  - apply IH. destruct (arrow_keeps_card p1 left Hi) as (Hi' & Hbook' & Hup').
    split; [exact Hi'|]. split; [congruence | exact Hup'].
  - exact Hup.
  - apply IH. destruct (arrow_keeps_card p1 left Hi) as (Hi' & Hbook' & Hup').
    split; [exact Hi'|]. split; [congruence | exact Hup'].
Qed.

(** Three saved words; left from the first card is the third. *)
Lemma flashcards_witness :
  flashcardIndex
    (foldl (λ p (left : bool), if left then previousCard p else nextCard p)
       (startFlashcards
          (MoreSamples.page_of
             (foldl save Samples.fresh
                [Samples.entry "1" "brick"; Samples.entry "2" "casa";
                 Samples.entry "3" "sol"]))).2
       [true]) = 2
  ∧ is_Some
      (notebook (foldl save Samples.fresh
                   [Samples.entry "1" "brick"; Samples.entry "2" "casa";
                    Samples.entry "3" "sol"])
       !! Z.to_nat
            (flashcardIndex
               (foldl (λ p (left : bool), if left then previousCard p else nextCard p)
                  (startFlashcards
                     (MoreSamples.page_of
                        (foldl save Samples.fresh
                           [Samples.entry "1" "brick"; Samples.entry "2" "casa";
                            Samples.entry "3" "sol"]))).2
                  [true]))).
Proof.
  split; [reflexivity|].
  destruct (flashcards_always_on_a_card
              (MoreSamples.page_of
                 (foldl save Samples.fresh
                    [Samples.entry "1" "brick"; Samples.entry "2" "casa";
                     Samples.entry "3" "sol"]))
              [true] ltac:(discriminate)) as (_ & _ & Hcard & _).
  exact Hcard.
Defined.

End FlashcardFacts.

(* --------------------------------------------------------------------- *)
(** ** performLookup from start to end *)
(* --------------------------------------------------------------------- *)

Module LookupRuns.
Import GenAI GeminiService App Navigation.

Section Runs.
Context (P : Platform).

(** [lookupWord] sends one request and nothing else happens to the
    state. *)
Lemma lookupWord_one_request (term src tgt : string) (w : World) :
  ∃ c, lookupWord P term src tgt w
       = (c, set_requests (requests w ++ [LookupRequest term src tgt]) w).
Proof.
  unfold lookupWord, ai_generateContent. run_handler.
  destruct (generateContent P (requests w) (LookupRequest term src tgt))
    as [response|e]; [|by eexists].
  destruct (text response) as [t|]; [|by eexists].
  destruct (truthy t); [|by eexists].
  destruct (JSON_parse P (cleanJsonText t)); by eexists.
Qed.

(** Both ways a lookup of a term that is not blank can go. *)
Lemma performLookup_run (term : string) (w : World) :
  truthy (trim term) = true →
  ∃ w',
    performLookup P term w = (Return tt, w')
    ∧ (notebook w' = notebook w ∧ ttsCache w' = ttsCache w
       ∧ selectedStoryWordIds w' = selectedStoryWordIds w
       ∧ audioLoadingId w' = audioLoadingId w ∧ started w' = started w
       ∧ nativeLang w' = nativeLang w ∧ targetLang w' = targetLang w)
    ∧ (loading w' = false ∧ chatHistory w' = [] ∧ isChatOpen w' = false
       ∧ searchQuery w' = term)
    ∧ (∃ more, requests w'
               = requests w ++ LookupRequest term (nativeLang w) (targetLang w) :: more
               ∧ (length more ≤ 1)%nat)
    ∧ ((currentEntry w' = currentEntry w ∧ view w' = view w ∧ history w' = history w
        ∧ alerts w'
          = alerts w ++ ["Oops! We couldn't find that word. Please try again."])
       ∨ (∃ entry, currentEntry w' = Some entry
                   ∧ DictionaryEntry.term entry = term
                   ∧ DictionaryEntry.sourceLang entry = nativeLang w
                   ∧ DictionaryEntry.targetLang entry = targetLang w
                   ∧ view w' = RESULT
                   ∧ history w' = (if bool_decide (view w = RESULT) then history w
                                   else history w ++ [view w])
                   ∧ alerts w' = alerts w)).
Proof.
  intros Hterm. unfold performLookup. rewrite Hterm. run_handler.
  set (w4 := set_searchQuery term
               (set_chatHistory [] (set_isChatOpen false (set_loading true w)))).
  destruct (lookupWord_one_request term (nativeLang w) (targetLang w) w4) as [c ->].
  destruct c as [value|e]; [destruct (JSON.properties value) as [parsed|e]|].
  - set (w5 := set_requests _ w4).
    destruct (LookupFacts.generateConceptImage_returns P
                (or_else (PartialEntry.translatedTerm parsed) term)
                (or_else (PartialEntry.definitionNative parsed) "") w5)
      as (imageUrl & -> & _).
    unfold now, navigateTo. subst w5 w4. cbn.
    destruct (decide (RESULT = view w)) as [Hview|Hview].
    + eexists. split; [reflexivity|]. cbn. rewrite bool_decide_eq_true_2 by done.
      split_and!; try reflexivity.
      * eexists. split; [by rewrite <- app_assoc | cbn; lia].
      * right. eexists. by split_and!.
    + eexists. split; [reflexivity|]. cbn.
      rewrite bool_decide_eq_false_2 by congruence.
      split_and!; try reflexivity.
      * eexists. split; [by rewrite <- app_assoc | cbn; lia].
      * right. eexists. by split_and!.
  - unfold alert. run_handler. subst w4. eexists. split; [reflexivity|]. cbn.
    split_and!; try reflexivity.
    + exists []. split; [reflexivity | cbn; lia].
    + left. by split_and!.
  - unfold alert. run_handler. subst w4. eexists. split; [reflexivity|]. cbn.
    split_and!; try reflexivity.
    + exists []. split; [reflexivity | cbn; lia].
    + left. by split_and!.
Qed.

(** Whatever the term, the state and the service: [performLookup] returns
    without throwing, leaves the notebook, the speech cache and the story
    selection alone, and, unless the term is blank (then nothing at all
    happens), ends with the spinner off, the chat closed and emptied, the
    search box showing the term, and one lookup request sent, followed by
    at most one image request. *)
Theorem performLookup_always_settles (term : string) (w : World) :
  ∃ w',
    performLookup P term w = (Return tt, w')
    ∧ notebook w' = notebook w
    ∧ ttsCache w' = ttsCache w
    ∧ selectedStoryWordIds w' = selectedStoryWordIds w
    ∧ (truthy (trim term) = false → w' = w)
    ∧ (truthy (trim term) = true →
       loading w' = false ∧ chatHistory w' = [] ∧ isChatOpen w' = false
       ∧ searchQuery w' = term
       ∧ ∃ more, requests w'
                 = requests w ++ LookupRequest term (nativeLang w) (targetLang w) :: more
                 ∧ (length more ≤ 1)%nat).
Proof.
  destruct (truthy (trim term)) eqn:Hterm.
  - destruct (performLookup_run term w Hterm)
      as (w' & Hrun & (Hbook & Hcache & Hsel & _) & Hui & Hreq & _).
    exists w'. split_and!; try done. intros _. destruct Hui as (? & ? & ? & ?).
    by split_and!.
  - exists w. unfold performLookup. rewrite Hterm. by split_and!.
Qed.

(** A lookup that shows no alert has opened the result view, and from
    there the back button leads to the view the lookup was made from. *)
Theorem lookup_then_back (term : string) (w : World) :
  truthy (trim term) = true →
  view w ≠ RESULT →
  alerts (performLookup P term w).2 = alerts w →
  view (performLookup P term w).2 = RESULT
  ∧ view (goBack (performLookup P term w).2) = view w
  ∧ history (goBack (performLookup P term w).2) = history w.
Proof.
  intros Hterm Hview Hquiet.
  destruct (performLookup_run term w Hterm) as (w' & Hrun & _ & _ & _ & Hends).
  rewrite Hrun in *. cbn [snd] in *.
  destruct Hends as [(_ & _ & _ & Halert) | (entry & _ & _ & _ & _ & Hres & Hhist & _)].
  - rewrite Hquiet in Halert. apply (f_equal length) in Halert.
    rewrite length_app in Halert. cbn in Halert. lia.
  - rewrite bool_decide_eq_false_2 in Hhist by exact Hview.
    split; [exact Hres|]. unfold goBack. rewrite Hhist.
    destruct (NavigationFacts.last_snoc_take (history w) (view w)) as [-> ->].
    by split.
Qed.

End Runs.

(** "brick" looked up from the search view: the result shows; back is the
    search view again. *)
Lemma lookup_then_back_witness :
  view (performLookup Samples.terse "brick" (letsGo Samples.fresh)).2 = RESULT
  ∧ view (goBack (performLookup Samples.terse "brick" (letsGo Samples.fresh)).2) = SEARCH.
Proof.
  destruct (lookup_then_back Samples.terse "brick" (letsGo Samples.fresh)
              eq_refl ltac:(discriminate) ltac:(vm_compute; reflexivity))
    as (Hres & Hback & _).
  by split.
Defined.

End LookupRuns.

(* --------------------------------------------------------------------- *)
(** ** Selected text, fenced JSON, story markers *)
(* --------------------------------------------------------------------- *)

Module TextFacts.
Import GenAI GeminiService App TextSelection StoryText.

Lemma every_rev_app (f : ascii → bool) (s1 s2 : string) :
  every f (String.rev_app s1 s2) = every f s1 && every f s2.
Proof.
  revert s2. induction s1 as [|c s1 IH]; intros s2; [reflexivity|].
  cbn. rewrite IH. cbn. destruct (f c), (every f s1), (every f s2); reflexivity.
Qed.

Lemma every_rev (f : ascii → bool) (s : string) : every f (String.rev s) = every f s.
Proof. unfold String.rev. rewrite every_rev_app. cbn. apply andb_true_r. Qed.

Lemma every_trim_start (f : ascii → bool) (s : string) :
  every f s = true → every f (trim_start s) = true.
Proof.
  induction s as [|c s IH]; [done|]. cbn. intros Hs.
  destruct (is_white_space c); [|exact Hs].
  apply andb_true_iff in Hs as [_ Hs]. by apply IH.
Qed.

Lemma every_trim (f : ascii → bool) (s : string) :
  every f s = true → every f (trim s) = true.
Proof.
  intros Hs. unfold trim.
  rewrite every_rev. apply every_trim_start. rewrite every_rev.
  by apply every_trim_start.
Qed.

(** A string of white space trims to nothing. *)
Lemma trim_white_space (s : string) : every is_white_space s = true → trim s = "".
Proof.
  intros Hs. unfold trim.
  assert (trim_start s = "") as ->; [|reflexivity].
  induction s as [|c s IH]; [reflexivity|]. cbn in *.
  apply andb_true_iff in Hs as [-> Hs]. by apply IH.
Qed.

Lemma remove_punctuation_clean (s : string) :
  every (λ c, negb (is_punctuation c)) (remove_punctuation s) = true.
Proof.
  induction s as [|c s IH]; [reflexivity|]. cbn.
  destruct (is_punctuation c) eqn:Hc; [exact IH|]. cbn. by rewrite Hc, IH.
Qed.

Lemma remove_punctuation_white_space (s : string) :
  every (λ c, is_white_space c || is_punctuation c) s = true →
  every is_white_space (remove_punctuation s) = true.
Proof.
  induction s as [|c s IH]; [done|]. cbn. intros Hs.
  apply andb_true_iff in Hs as [Hc Hs].
  destruct (is_punctuation c); [by apply IH|].
  cbn. rewrite orb_false_r in Hc. by rewrite Hc, IH.
Qed.

Section Selection.
Context (P : Platform).

(** A selection of nothing but punctuation and white space, or no
    selection at all, starts no lookup: nothing is sent and the state is
    as it was. *)
Theorem blank_selection_ignored (selected : string) (w : World) :
  every (λ c, is_white_space c || is_punctuation c) selected = true →
  handleTextSelection P (Some selected) w = (Return tt, w)
  ∧ handleTextSelection P None w = (Return tt, w).
Proof.
  intros Hblank. split; [|reflexivity]. unfold handleTextSelection.
  destruct (0 <? String.length (remove_punctuation (trim selected)))%nat; [|reflexivity].
  apply LookupFacts.performLookup_blank.
  rewrite trim_white_space; [reflexivity|].
  by apply remove_punctuation_white_space, every_trim.
Qed.

(** A selection that leaves a term shows that term in the search box and
    sends it to the service; it holds none of the cleaned characters. *)
Theorem selection_looked_up_clean (selected : string) (w : World) :
  truthy (trim (remove_punctuation (trim selected))) = true →
  ∃ w' more,
    handleTextSelection P (Some selected) w = (Return tt, w')
    ∧ searchQuery w' = remove_punctuation (trim selected)
    ∧ requests w'
      = requests w
        ++ LookupRequest (remove_punctuation (trim selected))
                         (nativeLang w) (targetLang w) :: more
    ∧ every (λ c, negb (is_punctuation c)) (searchQuery w') = true.
Proof.
  intros Hterm. unfold handleTextSelection.
  assert ((0 <? String.length (remove_punctuation (trim selected)))%nat = true) as ->.
  { apply LookupFacts.truthy_trim in Hterm.
    by destruct (remove_punctuation (trim selected)). }
  destruct (LookupRuns.performLookup_run P _ w Hterm)
    as (w' & Hrun & _ & (_ & _ & _ & Hquery) & (more & Hreq & _) & _).
  exists w', more. split_and!; [exact Hrun | exact Hquery | exact Hreq |].
  rewrite Hquery. apply remove_punctuation_clean.
Qed.

End Selection.

Lemma blank_selection_witness :
  handleTextSelection Samples.terse (Some " (...) ") Samples.fresh
  = (Return tt, Samples.fresh).
Proof.
  by destruct (blank_selection_ignored Samples.terse " (...) " Samples.fresh eq_refl)
    as [Hnothing _].
Defined.

Lemma selection_looked_up_witness :
  ∃ w' more,
    handleTextSelection Samples.terse (Some "casa, ") Samples.fresh = (Return tt, w')
    ∧ searchQuery w' = "casa"
    ∧ requests w' = LookupRequest "casa" "en" "es" :: more.
Proof.
  destruct (selection_looked_up_clean Samples.terse "casa, " Samples.fresh eq_refl)
    as (w' & more & Hrun & Hquery & Hreq & _).
  by exists w', more.
Defined.

End TextFacts.

(* --------------------------------------------------------------------- *)
(** ** Code fences and story markers *)
(* --------------------------------------------------------------------- *)

Module FenceFacts.
Import GenAI GeminiService App TextSelection StoryText.

(** Text without a backtick passes [remove_fences] as it is. *)
Lemma remove_fences_plain (body rest : string) :
  every no_backtick body = true →
  remove_fences 0 (body +:+ rest) = body +:+ remove_fences 0 rest.
Proof.
  induction body as [|c body IH]; [reflexivity|].
  intros Hbody. simpl in Hbody. apply andb_true_iff in Hbody as [Hc Hbody].
  unfold no_backtick in Hc. apply negb_true_iff, Ascii.eqb_neq in Hc.
  change (String c body +:+ rest) with (String c (body +:+ rest)).
  cbn [remove_fences String.prefix].
  destruct (ascii_dec "`" c) as [Heq|_]; [by destruct Hc|].
  by rewrite IH.
Qed.

Lemma remove_fences_body (body : string) :
  every no_backtick body = true →
  remove_fences 0 body = body
  ∧ remove_fences 0 (body +:+ "```") = body.
Proof.
  intros Hbody.
  assert (body +:+ "" = body) as Hnil
    by (clear Hbody; induction body as [|c body IH];
        [done | change (String c (body +:+ "") = String c body); by rewrite IH]).
  split.
  - pose proof (remove_fences_plain body "" Hbody) as Hplain.
    change (remove_fences 0 "") with "" in Hplain. by rewrite !Hnil in Hplain.
  - rewrite remove_fences_plain by exact Hbody.
    change (remove_fences 0 "```") with "". exact Hnil.
Qed.

Lemma prefix_nil (s : string) : String.prefix "" s = true.
Proof. by destruct s. Qed.

Lemma prefix_cons (a b : ascii) (p s : string) :
  String.prefix (String a p) (String b s)
  = if ascii_dec a b then String.prefix p s else false.
Proof. reflexivity. Qed.

(** Closing a body with a fence does not make it start with json. *)
Lemma prefix_json_closed (body : string) :
  String.prefix "json" body = false → String.prefix "json" (body +:+ "```") = false.
Proof.
  destruct body as [|b1 [|b2 [|b3 [|b4 body]]]]; [reflexivity|..];
    change (String b1 ?s +:+ "```") with (String b1 (s +:+ "```"));
    try change (String b2 ?s +:+ "```") with (String b2 (s +:+ "```"));
    try change (String b3 ?s +:+ "```") with (String b3 (s +:+ "```"));
    try change (String b4 ?s +:+ "```") with (String b4 (s +:+ "```"));
    try change ("" +:+ "```") with "```";
    rewrite !prefix_cons, ?prefix_nil;
    repeat (destruct (ascii_dec _ _); [|reflexivity]); done.
Qed.

(** A json fence at the start is dropped whole. *)
Lemma remove_fences_json (s : string) :
  remove_fences 0 ("```json" +:+ s) = remove_fences 0 s.
Proof.
  change (remove_fences 0 ("```json" +:+ s))
    with (if String.prefix "" s then remove_fences 0 s
          else if String.prefix "" (String "j" (String "s" (String "o" (String "n" s))))
               then remove_fences 0 (String "j" (String "s" (String "o" (String "n" s))))
               else String "`" (remove_fences 0 ("``json" +:+ s))).
  by rewrite prefix_nil.
Qed.

(** So is a plain fence, when the word json does not follow it. *)
Lemma remove_fences_fence (s : string) :
  String.prefix "json" s = false →
  remove_fences 0 ("```" +:+ s) = remove_fences 0 s.
Proof.
  intros Hjson.
  change (remove_fences 0 ("```" +:+ s))
    with (if String.prefix "json" s then remove_fences 6 ("``" +:+ s)
          else if String.prefix "" s then remove_fences 0 s
               else String "`" (remove_fences 0 ("``" +:+ s))).
  by rewrite Hjson, prefix_nil.
Qed.

(** A body without backticks comes out of [cleanJsonText] trimmed and
    nothing else, whether it arrives bare, inside a json fence, or inside
    a plain fence (then provided it does not itself start with the word
    json, which would be taken for part of the fence). *)
Theorem cleanJsonText_unwraps (body : string) :
  every no_backtick body = true →
  cleanJsonText body = trim body
  ∧ cleanJsonText ("```json" +:+ body +:+ "```") = trim body
  ∧ (String.prefix "json" body = false →
     cleanJsonText ("```" +:+ body +:+ "```") = trim body).
Proof.
  intros Hbody. destruct (remove_fences_body body Hbody) as [Hbare Hclosed].
  unfold cleanJsonText. split_and!.
  - by rewrite Hbare.
  - by rewrite remove_fences_json, Hclosed.
  - intros Hjson. rewrite remove_fences_fence, Hclosed; [reflexivity|].
    by apply prefix_json_closed.
Qed.

Lemma cleanJsonText_unwraps_witness :
  cleanJsonText "```json{}```" = "{}" ∧ cleanJsonText "```{}```" = "{}".
Proof.
  destruct (cleanJsonText_unwraps "{}" eq_refl) as (_ & Hjson & Hplain).
  split; [exact Hjson | exact (Hplain eq_refl)].
Defined.

(** A response whose JSON comes wrapped in a json fence is looked up like
    the bare JSON: the fence and the white space around the body are gone
    before it is parsed. *)
Theorem lookupWord_fenced (P : Platform) (term src tgt body : string) (w : World)
    (response : GenerateContentResponse) (parsed : JSON.value) :
  every no_backtick body = true →
  generateContent P (requests w) (LookupRequest term src tgt) = Return response →
  text response = Some ("```json" +:+ body +:+ "```") →
  JSON_parse P (trim body) = Return parsed →
  lookupWord P term src tgt w
  = (Return parsed, set_requests (requests w ++ [LookupRequest term src tgt]) w).
Proof.
  intros Hbody Hremote Htext Hparse.
  apply (LookupFacts.lookupWord_parsed P term src tgt _ w response parsed Hremote Htext);
    [reflexivity|].
  destruct (remove_fences_body body Hbody) as [_ Hclosed].
  unfold cleanJsonText. by rewrite remove_fences_json, Hclosed.
Qed.

Lemma lookupWord_fenced_witness :
  (lookupWord MoreSamples.fenced "brick" "en" "es" Samples.fresh).1
  = Return (JSON.object Samples.no_fields).
Proof.
  by rewrite (lookupWord_fenced MoreSamples.fenced "brick" "en" "es" " {} " Samples.fresh
                (Samples.text_response "```json {} ```")
                (JSON.object Samples.no_fields)
                eq_refl eq_refl eq_refl eq_refl).
Defined.

(** *** The story as it is spoken *)

Lemma remove_markers_step (a b : ascii) (rest : string) :
  remove_markers (String a (String b rest))
  = if (Ascii.eqb a "*" && Ascii.eqb b "*")%bool then remove_markers rest
    else String a (remove_markers (String b rest)).
Proof. reflexivity. Qed.

Lemma remove_markers_head (c : ascii) (s : string) :
  no_asterisk c = true →
  remove_markers (String c s) = String c (remove_markers s).
Proof.
  intros Hc. unfold no_asterisk in Hc. apply negb_true_iff in Hc.
  destruct s as [|d s]; [reflexivity|]. by rewrite remove_markers_step, Hc.
Qed.

(** The first character of what is left is never the second asterisk of a
    pair. *)
Lemma remove_markers_no_pair_here (s : string) (rest : string) :
  remove_markers s ≠ String "*" (String "*" rest)
  ∧ ∀ c, remove_markers (String c s) ≠ String "*" (String "*" rest).
Proof.
  revert rest. induction s as [|d s IH]; intros rest.
  - split; [done|]. intros c. cbn. congruence.
  - split; [apply IH|]. intros c. rewrite remove_markers_step.
    destruct (Ascii.eqb c "*" && Ascii.eqb d "*") eqn:Hpair.
    + apply IH.
    + destruct (Ascii.eqb c "*") eqn:Hc;
        [|intros [= Hstar _]; rewrite Hstar in Hc; discriminate Hc].
      cbn in Hpair.
      assert (no_asterisk d = true) as Hstar by (unfold no_asterisk; by rewrite Hpair).
      rewrite (remove_markers_head d s Hstar).
      intros Heq. assert (d = "*"%char) as -> by congruence. discriminate Hpair.
Qed.

Lemma remove_markers_no_pair (s before rest : string) :
  remove_markers s ≠ before +:+ "**" +:+ rest
  ∧ ∀ c, remove_markers (String c s) ≠ before +:+ "**" +:+ rest.
Proof.
  revert before. induction s as [|d s IH]; intros before.
  - split; [by destruct before|].
    intros c Heq. destruct before as [|b [|b' before]];
      lazy [String.append remove_markers] in Heq; congruence.
  - split; [apply IH|]. intros c.
    destruct before as [|b before].
    + apply remove_markers_no_pair_here.
    + rewrite remove_markers_step.
      destruct (Ascii.eqb c "*" && Ascii.eqb d "*"); [apply IH|].
      change (String b before +:+ "**" +:+ rest)
        with (String b (before +:+ "**" +:+ rest)).
      intros [= _ Htail]. by apply (proj2 (IH before) d).
Qed.

(** What the story's audio button hands to [playAudio] holds no marker:
    nowhere two asterisks in a row; and a story with no asterisk at all is
    spoken as it is. *)
Theorem spoken_story_has_no_marker (story : string) :
  (∀ before rest, remove_markers story ≠ before +:+ "**" +:+ rest)
  ∧ (every no_asterisk story = true → remove_markers story = story).
Proof.
  split.
  - intros before rest. apply remove_markers_no_pair.
  - induction story as [|c story IH]; [done|]. intros Hs. simpl in Hs.
    apply andb_true_iff in Hs as [Hc Hs].
    by rewrite remove_markers_head, IH.
Qed.

End FenceFacts.

(* --------------------------------------------------------------------- *)
(** ** Where the service calls look for their payload *)
(* --------------------------------------------------------------------- *)

Module PayloadFacts.
Import GenAI GeminiService.

Lemma first_inlineData_skips (before after : list Part) (blob : Blob) :
  Forall (λ part, inlineData part = None) before →
  first_inlineData (before ++ {| inlineData := Some blob |} :: after) = Some blob.
Proof.
  induction 1 as [|part before Hpart _ IH]; [reflexivity|].
  cbn. by rewrite Hpart.
Qed.

Section Payloads.
Context (P : Platform).

(** The image is taken from the first part of the first candidate that
    has inline data, wherever among the parts it stands; the call sends
    one request and returns a data URL made of that part's type and
    data. *)
Theorem image_from_first_inline_part (term context : string) (w : World)
    (response : GenerateContentResponse) (before after : list Part) (blob : Blob) :
  generateContent P (requests w) (ImageRequest term context) = Return response →
  first_parts response = Some (before ++ {| inlineData := Some blob |} :: after) →
  Forall (λ part, inlineData part = None) before →
  generateConceptImage P term context w
  = (Return (Some ("data:" +:+ interpolate (mimeType blob) +:+ ";base64,"
                   +:+ interpolate (data blob))),
     set_requests (requests w ++ [ImageRequest term context]) w).
Proof.
  intros Hremote Hparts Hbefore.
  unfold generateConceptImage, ai_generateContent. run_handler.
  by rewrite Hremote, Hparts, (first_inlineData_skips _ _ _ Hbefore).
Qed.

(** Speech is taken from the first part only: when that part has no
    inline data the result is absent and nothing is stored, whatever the
    later parts hold. *)
Theorem speech_from_first_part_only (text : string) (w : World)
    (response : GenerateContentResponse) (later : list Part) :
  truthy text = true → ttsCache w !! text = None →
  generateContent P (requests w) (SpeechRequest text "Puck") = Return response →
  first_parts response = Some ({| inlineData := None |} :: later) →
  generateSpeech P text w
  = (Return None, set_requests (requests w ++ [SpeechRequest text "Puck"]) w).
Proof.
  intros Htext Hmiss Hremote Hparts.
  apply SpeechFacts.generateSpeech_miss_failed; [exact Htext | exact Hmiss |].
  right. exists response. split; [exact Hremote|].
  unfold speech_data. by rewrite Hparts.
Qed.

End Payloads.

(** A response with the payload in its second part: an image is found,
    speech is not. *)
Lemma image_from_first_inline_part_witness :
  (generateConceptImage MoreSamples.image_in_second_part "brick" "" Samples.fresh).1
  = Return (Some "data:image/png;base64,iVBORw0KGgo=").
Proof.
  by rewrite (image_from_first_inline_part MoreSamples.image_in_second_part "brick" ""
                Samples.fresh _ [ {| inlineData := None |} ] []
                {| mimeType := Some "image/png"; data := Some "iVBORw0KGgo=" |}
                eq_refl eq_refl ltac:(by repeat constructor)).
Defined.

Lemma speech_from_first_part_only_witness :
  (generateSpeech MoreSamples.image_in_second_part "hola" Samples.fresh).1 = Return None.
Proof.
  by rewrite (speech_from_first_part_only MoreSamples.image_in_second_part "hola"
                Samples.fresh _ _ eq_refl eq_refl eq_refl eq_refl).
Defined.

End PayloadFacts.

(* --------------------------------------------------------------------- *)
(** ** From a payload to a started source *)
(* --------------------------------------------------------------------- *)

Module PlayerFacts.
Import WebAudio AudioUtils AudioPlayer GenAI GeminiService App.

Lemma mono_samples (d16 : list Z) :
  foldl (λ channelData i,
           <[i := normalize (d16 !! (i * 1 + 0)%nat)]> channelData)
        (replicate (length d16) (Num 0)) (seq 0 (length d16))
  = (λ v, Num (v # 32768)) <$> d16.
Proof.
  apply list_eq. intros i.
  rewrite DecodeAudioFacts.store_loop_lookup, list_lookup_fmap.
  replace (i * 1 + 0)%nat with i by lia.
  destruct (decide (i < length d16)%nat) as [Hi|Hi].
  - rewrite lookup_replicate_2 by exact Hi.
    by destruct (lookup_lt_is_Some_2 _ _ Hi) as [v ->].
  - rewrite (proj1 (lookup_replicate_None _ _ _)) by lia.
    by rewrite lookup_ge_None_2 by lia.
Qed.

(** With both defaults, as the player calls it, the fallback on a payload
    of an even, non-zero number of bytes is the one-channel buffer at
    24 kHz whose samples are the 16-bit elements of the payload, in
    order, each over 32768. *)
Lemma decodeAudioData_default_mono (ctx : AudioContext) (data : list Z) (e : exn) :
  ctx_decodeAudioData ctx data = Throw e →
  (length data mod 2 = 0)%nat → data ≠ [] →
  ctx_supports ctx 1 24000 = true →
  decodeAudioData_default data ctx
  = Return {| sampleRate := 24000;
              channelData := [ (λ v, Num (v # 32768)) <$> int16_elements data ] |}.
Proof.
  intros Hprimary Heven Hsome Hsupp.
  assert (1 ≤ length (int16_elements data))%nat as Hlen.
  { rewrite DecodeAudioFacts.length_int16_elements.
    destruct data as [|b0 [|b1 data]]; [done | discriminate Heven |].
    change (length (b0 :: b1 :: data)) with (1 * 2 + length data)%nat.
    rewrite Nat.div_add_l by lia. lia. }
  unfold decodeAudioData_default, decodeAudioData. rewrite Hprimary.
  unfold Int16Array. rewrite Heven. cbn [Nat.eqb cbind].
  unfold createBuffer. rewrite Z.div_1_r, Hsupp.
  replace (0 <? Z.of_nat (length (int16_elements data))) with true
    by (symmetry; apply Z.ltb_lt; lia).
  cbn [Z.ltb Z.compare andb cbind].
  replace (Z.of_nat (length (int16_elements data)) + 1 - 1)
    with (Z.of_nat (length (int16_elements data))) by lia.
  rewrite Z.div_1_r, Nat2Z.id.
  change (Z.to_nat 1) with 1%nat. cbn [seq foldl replicate alter list_alter sampleRate channelData].
  by rewrite mono_samples.
Qed.

Section Player.
Context (P : Platform).

Lemma playBase64Audio_frame (base64Data : string) (w : World) :
  ∃ c w',
    playBase64Audio P base64Data w = (c, w')
    ∧ ttsCache w' = ttsCache w ∧ requests w' = requests w
    ∧ audioLoadingId w' = audioLoadingId w ∧ notebook w' = notebook w
    ∧ ((c = Return tt ∧ ∃ buffer, started w' = started w ++ [buffer])
       ∨ (∃ e, c = Throw e ∧ started w' = started w)).
Proof.
  unfold playBase64Audio. run_handler.
  destruct (audio_suspended w).
  - destruct (audio_resume P) as [[]|e]; cbn.
    + destruct (decodeBase64 base64Data) as [bytes|e]; cbn.
      * destruct (decodeAudioData_default bytes (audioContext P)) as [buffer|e]; cbn.
        -- do 2 eexists. split; [reflexivity|]. cbn. split_and!; try reflexivity.
           left. split; [reflexivity | by eexists].
        -- do 2 eexists. split; [reflexivity|]. cbn. split_and!; try reflexivity.
           right. by eexists.
      * do 2 eexists. split; [reflexivity|]. cbn. split_and!; try reflexivity.
        right. by eexists.
    + do 2 eexists. split; [reflexivity|]. cbn. split_and!; try reflexivity.
      right. by eexists.
  - cbn. destruct (decodeBase64 base64Data) as [bytes|e]; cbn.
    + destruct (decodeAudioData_default bytes (audioContext P)) as [buffer|e]; cbn.
      * do 2 eexists. split; [reflexivity|]. cbn. split_and!; try reflexivity.
        left. split; [reflexivity | by eexists].
      * do 2 eexists. split; [reflexivity|]. cbn. split_and!; try reflexivity.
        right. by eexists.
    + do 2 eexists. split; [reflexivity|]. cbn. split_and!; try reflexivity.
      right. by eexists.
Qed.

(** [playBase64Audio] starts one source or none: when it returns, one
    buffer has been added to those started; when it throws, none has; and
    it never touches the speech cache, the requests or the loading
    marker. *)
Theorem playBase64Audio_starts_at_most_one (base64Data : string) (w : World) :
  ∃ c w',
    playBase64Audio P base64Data w = (c, w')
    ∧ ttsCache w' = ttsCache w ∧ requests w' = requests w
    ∧ audioLoadingId w' = audioLoadingId w ∧ notebook w' = notebook w
    ∧ ((c = Return tt ∧ ∃ buffer, started w' = started w ++ [buffer])
       ∨ (∃ e, c = Throw e ∧ started w' = started w)).
Proof. exact (playBase64Audio_frame base64Data w). Qed.

Lemma decodeBase64_of_encode (bytes : list Z) :
  Forall is_uint8 bytes → decodeBase64 (Base64.encode bytes) = Return bytes.
Proof.
  intros Hbytes.
  rewrite DecodeBase64Facts.decodeBase64_code_units,
          (DecodeBase64Facts.atob_encode bytes Hbytes).
  cbn [cbind]. f_equal.
  rewrite DecodeBase64Facts.length_string_of_list_ascii, length_fmap.
  apply list_eq. intros i. rewrite list_lookup_fmap.
  destruct (bytes !! i) as [x|] eqn:Hi.
  - rewrite lookup_seq_lt by (by eapply lookup_lt_Some). cbn.
    f_equal. by apply DecodeBase64Facts.charCodeAt_fromCharCode.
  - rewrite lookup_seq_ge by (by apply lookup_ge_None). reflexivity.
Qed.

(** Raw 16-bit PCM, base64-encoded, is played: on a context that is
    running or resumes, and does not take the bytes for a container, the
    player starts one source on the mono buffer of the payload's samples
    and returns. *)
Theorem playBase64Audio_plays_pcm (bytes : list Z) (w : World) (e : exn) :
  Forall is_uint8 bytes →
  (length bytes mod 2 = 0)%nat → bytes ≠ [] →
  ctx_decodeAudioData (audioContext P) bytes = Throw e →
  ctx_supports (audioContext P) 1 24000 = true →
  audio_suspended w = false ∨ audio_resume P = Return tt →
  ∃ w',
    playBase64Audio P (Base64.encode bytes) w = (Return tt, w')
    ∧ started w'
      = started w
        ++ [ {| sampleRate := 24000;
                channelData := [ (λ v, Num (v # 32768)) <$> int16_elements bytes ] |} ]
    ∧ audio_suspended w' = false.
Proof.
  intros Hbytes Heven Hsome Hprimary Hsupp Hrunning.
  unfold playBase64Audio. run_handler.
  rewrite (decodeBase64_of_encode bytes Hbytes).
  rewrite (decodeAudioData_default_mono _ bytes e Hprimary Heven Hsome Hsupp).
  destruct (audio_suspended w) eqn:Hsusp.
  - destruct Hrunning as [Hrun|Hresume]; [discriminate|]. rewrite Hresume. cbn.
    eexists. split; [reflexivity|]. by cbn.
  - cbn. eexists. split; [reflexivity|]. cbn. by rewrite Hsusp.
Qed.

End Player.

Lemma playBase64Audio_plays_pcm_witness :
  ∃ w',
    playBase64Audio Samples.terse "AID/fw==" Samples.fresh = (Return tt, w')
    ∧ started w'
      = [ {| sampleRate := 24000;
             channelData := [[Num (-32768 # 32768); Num (32767 # 32768)]] |} ].
Proof.
  destruct (playBase64Audio_plays_pcm Samples.terse [0; 128; 255; 127] Samples.fresh
              EncodingError
              ltac:(repeat constructor; unfold is_uint8; lia)
              eq_refl ltac:(discriminate) eq_refl eq_refl (or_introl eq_refl))
    as (w' & Hrun & Hstarted & _).
  exists w'. by split.
Defined.

End PlayerFacts.

(* --------------------------------------------------------------------- *)
(** ** playAudio and the speech cache together *)
(* --------------------------------------------------------------------- *)

Module PlayAudioFacts.
Import WebAudio AudioUtils AudioPlayer GenAI GeminiService App AudioRequests.

Section Plays.
Context (P : Platform).

(** What [generateSpeech] leaves alone, and how many requests it sends. *)
Lemma generateSpeech_frame (text : string) (w : World) :
  ∃ result w1,
    generateSpeech P text w = (Return result, w1)
    ∧ started w1 = started w ∧ audioLoadingId w1 = audioLoadingId w
    ∧ audio_suspended w1 = audio_suspended w ∧ notebook w1 = notebook w
    ∧ (requests w1 = requests w
       ∨ requests w1 = requests w ++ [SpeechRequest text "Puck"])
    ∧ (∀ payload, result = Some payload →
                  truthy text = true ∧ ttsCache w1 !! text = Some payload).
Proof.
  unfold generateSpeech, ai_generateContent. run_handler.
  destruct (truthy text) eqn:Htext; cbn [negb].
  - destruct (ttsCache w !! text) as [cached|] eqn:Hcache.
    + do 2 eexists. split; [reflexivity|]. split_and!; try reflexivity; [by left|].
      by intros payload [= <-].
    + destruct (generateContent P (requests w) (SpeechRequest text "Puck"))
        as [response|e].
      * destruct (speech_data response) as [audioData|].
        -- destruct (truthy audioData).
           ++ do 2 eexists. split; [reflexivity|]. cbn.
              split_and!; try reflexivity; [by right|].
              intros payload [= <-]. split; [reflexivity | apply lookup_insert_eq].
           ++ do 2 eexists. split; [reflexivity|]. cbn.
              split_and!; try reflexivity; [by right | done].
        -- do 2 eexists. split; [reflexivity|]. cbn.
           split_and!; try reflexivity; [by right | done].
      * do 2 eexists. split; [reflexivity|]. cbn.
        split_and!; try reflexivity; [by right | done].
  - do 2 eexists. split; [reflexivity|]. split_and!; try reflexivity; [by left | done].
Qed.

(** How a request that has been let in ends. *)
Lemma playAudio_pending_run (text : string) (w : World) :
  ∃ w',
    playAudio_pending P text w = (Return tt, w')
    ∧ audioLoadingId w' = None
    ∧ notebook w' = notebook w
    ∧ (requests w' = requests w
       ∨ requests w' = requests w ++ [SpeechRequest text "Puck"])
    ∧ (started w' = started w ∨ ∃ buffer, started w' = started w ++ [buffer])
    ∧ (∀ response audioData,
          truthy text = true → ttsCache w !! text = None →
          generateContent P (requests w) (SpeechRequest text "Puck") = Return response →
          speech_data response = Some audioData → truthy audioData = true →
          ttsCache w' !! text = Some audioData)
    ∧ (∀ cached, truthy text = true → ttsCache w !! text = Some cached →
                 requests w' = requests w ∧ ttsCache w' = ttsCache w)
    ∧ (truthy text = true → ttsCache w !! text = None →
       requests w' = requests w ++ [SpeechRequest text "Puck"]).
Proof.
  unfold playAudio_pending. run_handler.
  destruct (generateSpeech_frame text w)
    as (result & w1 & Hspeech & Hstarted & _ & _ & Hbook & Hreq & _).
  assert (∀ response audioData,
            truthy text = true → ttsCache w !! text = None →
            generateContent P (requests w) (SpeechRequest text "Puck") = Return response →
            speech_data response = Some audioData → truthy audioData = true →
            ttsCache w1 !! text = Some audioData) as Hstored.
  { intros response audioData Htext Hmiss Hremote Hdata Htruthy.
    rewrite (SpeechFacts.generateSpeech_miss_stored P text audioData w response
               Htext Hmiss Hremote Hdata Htruthy) in Hspeech.
    injection Hspeech as _ <-. cbn. apply lookup_insert_eq. }
  assert (∀ cached, truthy text = true → ttsCache w !! text = Some cached →
                    requests w1 = requests w ∧ ttsCache w1 = ttsCache w) as Hhit.
  { intros cached Htext Hcached.
    rewrite (SpeechFacts.generateSpeech_hit P text cached w Htext Hcached) in Hspeech.
    by injection Hspeech as _ <-. }
  assert (truthy text = true → ttsCache w !! text = None →
          requests w1 = requests w ++ [SpeechRequest text "Puck"]) as Hmissed.
  { intros Htext Hmiss.
    destruct (SpeechFacts.generateSpeech_miss P text w Htext Hmiss)
      as (r & w1' & Hrun' & Hreq' & _).
    rewrite Hrun' in Hspeech. by injection Hspeech as _ <-. }
  rewrite Hspeech.
  destruct result as [payload|]; [destruct (truthy payload)|].
  - destruct (PlayerFacts.playBase64Audio_frame P payload w1)
      as (c & w2 & -> & Hcache2 & Hreq2 & _ & Hbook2 & Hplayed).
    assert (∃ w', (let (c0, w'0) := (c, w2) in
                   match c0 with
                   | Return a => (Return a, w'0)
                   | Throw _ => (Return (), w'0)
                   end) = (Return tt, w')
                  ∧ w' = w2) as (w' & Hc & ->).
    { destruct Hplayed as [[-> _] | (e & -> & _)]; by eexists. }
    cbn in Hc |- *.
    destruct c as [[]|e]; cbn; (eexists; split; [reflexivity|]); cbn;
      (split_and!; [reflexivity | congruence | by rewrite Hreq2 | | | | ]).
    + destruct Hplayed as [[_ [buffer Hb]] | (e & He & _)]; [|discriminate].
      right. exists buffer. by rewrite Hb, Hstarted.
    + intros. rewrite Hcache2. eauto.
    + intros cached Htext Hcached. destruct (Hhit cached Htext Hcached).
      split; congruence.
    + intros. rewrite Hreq2. eauto.
    + destruct Hplayed as [[He _] | (e' & _ & Hs)]; [discriminate|].
      left. congruence.
    + intros. rewrite Hcache2. eauto.
    + intros cached Htext Hcached. destruct (Hhit cached Htext Hcached).
      split; congruence.
    + intros. rewrite Hreq2. eauto.
  - eexists. split; [reflexivity|]. cbn.
    split_and!; [reflexivity | exact Hbook | exact Hreq | by left | eauto..].
  - eexists. split; [reflexivity|]. cbn.
    split_and!; [reflexivity | exact Hbook | exact Hreq | by left | eauto..].
Qed.

(** [playAudio] never throws, whatever the service and the player do.  A
    call that is turned away (marker set, or empty text) changes nothing;
    a call that is let in ends with the marker cleared, having sent at
    most one speech request and started at most one source, and leaves
    the notebook alone. *)
Theorem playAudio_always_settles (text uniqueId : string) (w : World) :
  ∃ w',
    playAudio P text uniqueId w = (Return tt, w')
    ∧ notebook w' = notebook w
    ∧ (marker_set w = true ∨ truthy text = false → w' = w)
    ∧ (marker_set w = false → truthy text = true → audioLoadingId w' = None)
    ∧ (requests w' = requests w
       ∨ requests w' = requests w ++ [SpeechRequest text "Puck"])
    ∧ (started w' = started w ∨ ∃ buffer, started w' = started w ++ [buffer]).
Proof.
  unfold playAudio.
  destruct (marker_set w) eqn:Hset.
  { exists w. split_and!; try done; by left. }
  destruct (truthy text) eqn:Htext; cbn [negb].
  - run_handler.
    destruct (playAudio_pending_run text (set_audioLoadingId (Some uniqueId) w))
      as (w' & Hrun & Hclear & Hbook & Hreq & Hstarted & _).
    exists w'. split_and!; [exact Hrun | exact Hbook | | done | exact Hreq | exact Hstarted].
    intros [?|?]; discriminate.
  - exists w. split_and!; try done; by left.
Qed.

(** Speech that has been fetched is kept even if playing it fails: after
    a request that was let in and answered with audio, the text is in the
    cache, and asking for the same text again, from any button, sends no
    request. *)
Theorem played_once_cached (text uniqueId again : string) (w : World)
    (response : GenerateContentResponse) (audioData : string) :
  marker_set w = false → truthy text = true → ttsCache w !! text = None →
  generateContent P (requests w) (SpeechRequest text "Puck") = Return response →
  speech_data response = Some audioData → truthy audioData = true →
  ttsCache (playAudio P text uniqueId w).2 !! text = Some audioData
  ∧ requests (playAudio P text uniqueId w).2 = requests w ++ [SpeechRequest text "Puck"]
  ∧ requests (playAudio P text again (playAudio P text uniqueId w).2).2
    = requests (playAudio P text uniqueId w).2.
Proof.
  intros Hclear Htext Hmiss Hremote Hdata Htruthy.
  rewrite (PlaybackFacts.playAudio_admitted P text uniqueId w Hclear Htext).
  destruct (playAudio_pending_run text (set_audioLoadingId (Some uniqueId) w))
    as (w1 & Hrun & Hcleared & _ & _ & _ & Hstored & _ & Hmissed).
  rewrite Hrun. cbn [snd].
  pose proof (Hstored response audioData Htext Hmiss Hremote Hdata Htruthy) as Hcached.
  pose proof (Hmissed Htext Hmiss) as Hsent. cbn in Hsent.
  split_and!; [exact Hcached | exact Hsent |].
  assert (marker_set w1 = false) as Hclear1 by (unfold marker_set; by rewrite Hcleared).
  rewrite (PlaybackFacts.playAudio_admitted P text again w1 Hclear1 Htext).
  destruct (playAudio_pending_run text (set_audioLoadingId (Some again) w1))
    as (w2 & -> & _ & _ & _ & _ & _ & Hhit & _).
  cbn [snd]. by destruct (Hhit audioData Htext Hcached) as [-> _].
Qed.

(** The pre-fetch pays off: once the effect has fetched the speech for
    the entry on display, the entry's main audio button plays it without
    another request. *)
Theorem prefetched_speech_is_reused (w : World) (entry : DictionaryEntry.t)
    (response : GenerateContentResponse) (audioData : string) :
  currentEntry w = Some entry →
  truthy (DictionaryEntry.translatedTerm entry) = true →
  marker_set w = false →
  ttsCache w !! DictionaryEntry.translatedTerm entry = None →
  generateContent P (requests w) (SpeechRequest (DictionaryEntry.translatedTerm entry) "Puck")
  = Return response →
  speech_data response = Some audioData → truthy audioData = true →
  requests (prefetchSpeech P w).2
  = requests w ++ [SpeechRequest (DictionaryEntry.translatedTerm entry) "Puck"]
  ∧ requests (world (run P [Click MainTerm; Settle 0] (start (prefetchSpeech P w).2)))
    = requests (prefetchSpeech P w).2.
Proof.
  intros Hentry Hterm Hclear Hmiss Hremote Hdata Htruthy.
  assert (prefetchSpeech P w
          = (Return tt,
             set_ttsCache (<[DictionaryEntry.translatedTerm entry := audioData]> (ttsCache w))
               (set_requests (requests w
                              ++ [SpeechRequest (DictionaryEntry.translatedTerm entry) "Puck"])
                  w))) as ->.
  { unfold prefetchSpeech. run_handler. rewrite Hentry, Hterm.
    by rewrite (SpeechFacts.generateSpeech_miss_stored P _ audioData w response
                  Hterm Hmiss Hremote Hdata Htruthy). }
  cbn [snd]. split; [reflexivity|].
  set (w1 := set_ttsCache _ _).
  assert (call_of MainTerm w1
          = Some (DictionaryEntry.translatedTerm entry,
                  "main-" +:+ DictionaryEntry.id entry)) as Hcall.
  { unfold call_of. assert (currentEntry w1 = Some entry) as -> by exact Hentry.
    reflexivity. }
  rewrite (PlaybackFacts.click_then_settle P MainTerm _ _ w1 Hcall).
  assert (marker_set w1 = false) as Hclear1 by exact Hclear.
  rewrite (PlaybackFacts.playAudio_admitted P _ _ w1 Hclear1 Hterm).
  destruct (playAudio_pending_run (DictionaryEntry.translatedTerm entry)
              (set_audioLoadingId (Some ("main-" +:+ DictionaryEntry.id entry)) w1))
    as (w2 & -> & _ & _ & _ & _ & _ & Hhit & _).
  cbn [snd].
  destruct (Hhit audioData Hterm) as [-> _]; [|reflexivity].
  subst w1. cbn. apply lookup_insert_eq.
Qed.

End Plays.

(** "hola" played from the story button, then from an entry: one request,
    and both times the marker is clear again. *)
Lemma played_once_cached_witness :
  requests (playAudio Samples.terse "hola" "main-1"
              (playAudio Samples.terse "hola" "story-main" Samples.fresh).2).2
  = [SpeechRequest "hola" "Puck"].
Proof.
  destruct (played_once_cached Samples.terse "hola" "story-main" "main-1" Samples.fresh
              (Samples.inline_response "audio/L16" "AID/fw==") "AID/fw=="
              eq_refl eq_refl eq_refl eq_refl eq_refl eq_refl)
    as (_ & Hfirst & Hsecond).
  by rewrite Hsecond, Hfirst.
Defined.

(** "brick" is on display; its speech is fetched ahead and the main
    button then sends nothing more. *)
Lemma prefetched_speech_witness :
  requests (world (run Samples.terse [Click MainTerm; Settle 0]
                     (start (prefetchSpeech Samples.terse
                               (set_currentEntry (Some (Samples.entry "1" "brick"))
                                                 Samples.fresh)).2)))
  = [SpeechRequest "brick" "Puck"].
Proof.
  destruct (prefetched_speech_is_reused Samples.terse
              (set_currentEntry (Some (Samples.entry "1" "brick")) Samples.fresh)
              (Samples.entry "1" "brick")
              (Samples.inline_response "audio/L16" "AID/fw==") "AID/fw=="
              eq_refl eq_refl eq_refl eq_refl eq_refl eq_refl eq_refl)
    as [Hfetched Hplayed].
  by rewrite Hplayed, Hfetched.
Defined.

End PlayAudioFacts.

(* --------------------------------------------------------------------- *)
(** ** Chat *)
(* --------------------------------------------------------------------- *)

(** Unfolds the page handlers down to pairs of a completion and a page. *)
Ltac run_page :=
  unfold mbind, PM_bind, mret, PM_ret, PageRun.pbind, PageRun.pret,
         PageRun.pmodify, PageRun.on_world, PageRun.ptry_catch,
         PageRun.ptry_finally in *;
  cbn beta iota delta [negb fst snd] in *.

Module ChatFacts.
Import GenText TextCalls App AppPage.

Section Chat.
Context (P : Platform) (T : TextService).

(** With nothing typed but white space, or no entry on display, sending
    does nothing; in every case [handleChatSend] returns without throwing
    and shows no alert. *)
Theorem handleChatSend_never_throws (p : Page) :
  ∃ p',
    handleChatSend P T p = (Return tt, p')
    ∧ alerts (base p') = alerts (base p)
    ∧ currentEntry (base p') = currentEntry (base p)
    ∧ (truthy (trim (chatInput p)) = false ∨ currentEntry (base p) = None → p' = p).
Proof.
  unfold handleChatSend.
  destruct (currentEntry (base p)) as [entry|] eqn:Hentry; [|by exists p].
  destruct (truthy (trim (chatInput p))) eqn:Hinput; cbn [negb]; [|by exists p].
  unfold sendChatMessage, send_text, now, modify. run_page. cbn.
  destruct (generateText T (text_requests p) _) as [response|e]; cbn;
    eexists; (split; [reflexivity|]); cbn; split_and!; try done;
    intros [?|?]; discriminate.
Qed.

(** One exchange.  The question typed goes to the service with the entry
    on display and the transcript of the log as it was before the
    question; the input box is emptied; the log gains the question and,
    when the service answers, the answer after it (a stock sentence when
    the answer has no text); when the service fails the question stays in
    the log alone.  If the clock does not run backwards, question and
    answer get different ids. *)
Theorem handleChatSend_exchange (p : Page) (entry : DictionaryEntry.t) :
  currentEntry (base p) = Some entry →
  truthy (trim (chatInput p)) = true →
  ∃ p',
    handleChatSend P T p = (Return tt, p')
    ∧ chatInput p' = ""
    ∧ text_requests p'
      = text_requests p
        ++ [ChatRequest (DictionaryEntry.translatedTerm entry) (DictionaryEntry.term entry)
                        (DictionaryEntry.definitionTarget entry)
                        (transcript (chatHistory (base p))) (chatInput p)]
    ∧ match generateText T (text_requests p)
              (ChatRequest (DictionaryEntry.translatedTerm entry)
                           (DictionaryEntry.term entry)
                           (DictionaryEntry.definitionTarget entry)
                           (transcript (chatHistory (base p))) (chatInput p)) with
      | Return response =>
          chatHistory (base p')
          = chatHistory (base p)
            ++ [ {| ChatMessage.id := pretty (Date_now P (clock_reads (base p)));
                    ChatMessage.role := ChatMessage.user;
                    ChatMessage.text := chatInput p |};
                 {| ChatMessage.id := pretty (Date_now P (S (clock_reads (base p))) + 1);
                    ChatMessage.role := ChatMessage.model;
                    ChatMessage.text :=
                      or_else (GenAI.text response) "I couldn't understand that." |} ]
          ∧ (Date_now P (clock_reads (base p)) <= Date_now P (S (clock_reads (base p))) →
             pretty (Date_now P (clock_reads (base p)))
             ≠@{string} pretty (Date_now P (S (clock_reads (base p))) + 1))
      | Throw _ =>
          chatHistory (base p')
          = chatHistory (base p)
            ++ [ {| ChatMessage.id := pretty (Date_now P (clock_reads (base p)));
                    ChatMessage.role := ChatMessage.user;
                    ChatMessage.text := chatInput p |} ]
      end.
Proof.
  intros Hentry Hinput. unfold handleChatSend. rewrite Hentry, Hinput. cbn [negb].
  unfold sendChatMessage, send_text, now, modify. run_page. cbn.
  destruct (generateText T (text_requests p) _) as [response|e]; cbn.
  - eexists. split; [reflexivity|]. cbn. split_and!; try reflexivity.
    + by rewrite <- app_assoc.
    + intros Hclock Hids. apply (inj pretty) in Hids. lia.
  - eexists. split; [reflexivity|]. by cbn.
Qed.

End Chat.

(** "brick" is on display, the learner asks why, the tutor answers. *)
Lemma handleChatSend_exchange_witness :
  ∃ p',
    handleChatSend Samples.terse (MoreSamples.says "because")
      (set_chatInput "why?"
         (MoreSamples.page_of
            (set_currentEntry (Some (Samples.entry "1" "brick")) Samples.fresh)))
    = (Return tt, p')
    ∧ chatInput p' = "".
Proof.
  destruct (handleChatSend_exchange Samples.terse (MoreSamples.says "because")
              (set_chatInput "why?"
                 (MoreSamples.page_of
                    (set_currentEntry (Some (Samples.entry "1" "brick")) Samples.fresh)))
              (Samples.entry "1" "brick") eq_refl eq_refl)
    as (p' & Hrun & Hinput & _).
  exists p'. by split.
Defined.

End ChatFacts.

(* --------------------------------------------------------------------- *)
(** ** Story generation *)
(* --------------------------------------------------------------------- *)

Module StoryRuns.
Import GenText TextCalls App AppPage.

Lemma selectedEntries_filter (w : World) :
  selectedEntries w
  = filter (λ n, DictionaryEntry.id n ∈ selectedStoryWordIds w) (notebook w).
Proof.
  unfold selectedEntries. induction (notebook w) as [|n l IH]; [done|].
  cbn [List.filter]. rewrite filter_cons, IH.
  destruct (includes _ _) eqn:Hinc.
  - apply StoryFacts.includes_spec in Hinc. by rewrite decide_True.
  - rewrite decide_False; [done|]. intros Hin.
    apply StoryFacts.includes_spec in Hin. congruence.
Qed.

Lemma toggle_frame (id : string) (w : World) :
  notebook (toggleStoryWordSelection id w).2 = notebook w.
Proof.
  unfold toggleStoryWordSelection, alert. run_handler.
  by repeat case_match.
Qed.

(** The entries of a story are entries of the notebook, in the
    notebook's order: those whose id is selected.  When the notebook's ids
    are distinct there are no more of them than selected ids. *)
Theorem story_entries_from_notebook (w : World) :
  NoDup (DictionaryEntry.id <$> notebook w) →
  selectedEntries w `sublist_of` notebook w
  ∧ (∀ n, n ∈ selectedEntries w
          ↔ n ∈ notebook w ∧ DictionaryEntry.id n ∈ selectedStoryWordIds w)
  ∧ (length (selectedEntries w) ≤ length (selectedStoryWordIds w))%nat.
Proof.
  intros Hnd. rewrite selectedEntries_filter. split_and!.
  - apply sublist_filter.
  - intros n. rewrite list_elem_of_filter. tauto.
  - rewrite <- (length_fmap DictionaryEntry.id).
    apply submseteq_length, NoDup_submseteq.
    + eapply sublist_NoDup; [exact Hnd|].
      apply fmap_sublist, sublist_filter.
    + intros i (n & -> & Hin)%list_elem_of_fmap.
      by apply list_elem_of_filter in Hin as [? _].
Qed.

(** Whatever the learner toggles after the selection was empty, a story
    is asked for at most five entries. *)
Theorem story_of_at_most_five (ids : list string) (w0 : World) :
  selectedStoryWordIds w0 = [] →
  NoDup (DictionaryEntry.id <$> notebook w0) →
  let w := foldl (λ w id, (toggleStoryWordSelection id w).2) w0 ids in
  (length (selectedEntries w) ≤ 5)%nat.
Proof.
  intros Hempty Hnd w.
  assert (Hinv : NoDup (selectedStoryWordIds w)
                 ∧ (length (selectedStoryWordIds w) ≤ 5)%nat
                 ∧ notebook w = notebook w0).
  { subst w.
    assert (Hstart : NoDup (selectedStoryWordIds w0)
                     ∧ (length (selectedStoryWordIds w0) ≤ 5)%nat
                     ∧ notebook w0 = notebook w0).
    { rewrite Hempty. split_and!; [constructor | cbn; lia | done]. }
    clear Hempty. revert Hstart. generalize w0 at 1 2 3 5 6 7 as w1.
    induction ids as [|id ids IH]; intros w1 Hstart; [done|].
    cbn [foldl]. apply IH. destruct Hstart as (? & ? & Hbook).
    destruct (StoryFacts.toggle_keeps_invariant id w1) as [? ?]; [done|].
    by rewrite toggle_frame. }
  destruct Hinv as (_ & Hlen & Hbook).
  rewrite selectedEntries_filter, <- (length_fmap DictionaryEntry.id).
  etrans; [|exact Hlen].
  apply submseteq_length, NoDup_submseteq.
  - eapply sublist_NoDup; [rewrite <- Hbook in Hnd; exact Hnd|].
    apply fmap_sublist, sublist_filter.
  - intros i (n & -> & Hin)%list_elem_of_fmap.
    by apply list_elem_of_filter in Hin as [? _].
Qed.

Section Stories.
Context (P : Platform) (T : TextService).

(** [handleGenerateSelectedStory] never throws and never leaves the
    loading flag up.  With nothing selected it does nothing.  Otherwise it
    sends one request, for the terms of the selected entries joined by
    commas and the target language; the story shown is the text of the
    answer, or a stock sentence when the answer has none; when the
    service fails no story is shown and the learner is alerted. *)
Theorem story_generation_settles (p : Page) :
  ∃ p',
    handleGenerateSelectedStory T p = (Return tt, p')
    ∧ base p' = (if decide (selectedStoryWordIds (base p) = []) then base p
                 else match generateText T (text_requests p)
                              (StoryRequest
                                 (join ", " (DictionaryEntry.translatedTerm
                                               <$> selectedEntries (base p)))
                                 (targetLang (base p))) with
                      | Return _ => base p
                      | Throw _ =>
                          set_alerts (alerts (base p)
                                      ++ ["Failed to generate story. Please try again."])
                                     (base p)
                      end)
    ∧ (selectedStoryWordIds (base p) = [] → p' = p)
    ∧ (selectedStoryWordIds (base p) ≠ [] →
       isStoryLoading p' = false
       ∧ text_requests p'
         = text_requests p
           ++ [StoryRequest (join ", " (DictionaryEntry.translatedTerm
                                          <$> selectedEntries (base p)))
                            (targetLang (base p))]
       ∧ story p'
         = match generateText T (text_requests p)
                   (StoryRequest (join ", " (DictionaryEntry.translatedTerm
                                               <$> selectedEntries (base p)))
                                 (targetLang (base p))) with
           | Return response =>
               Some (or_else (GenAI.text response) "Could not generate story.")
           | Throw _ => None
           end).
Proof.
  unfold handleGenerateSelectedStory.
  destruct (selectedStoryWordIds (base p)) as [|id ids] eqn:Hsel.
  { exists p. by rewrite decide_True. }
  rewrite decide_False by done.
  unfold generateStory, send_text, alert, modify. run_page. cbn.
  destruct (generateText T (text_requests p) _) as [response|e]; cbn;
    eexists; (split; [reflexivity|]); cbn; split_and!; try done.
Qed.

End Stories.

(** A notebook of two words, both selected, and a service that is down. *)
Lemma story_entries_witness :
  (length (selectedEntries
             (set_selectedStoryWordIds ["1"; "2"; "9"]
                (set_notebook [Samples.entry "2" "tile"; Samples.entry "1" "brick"]
                              Samples.fresh))) ≤ 3)%nat.
Proof.
  apply (story_entries_from_notebook
           (set_selectedStoryWordIds ["1"; "2"; "9"]
              (set_notebook [Samples.entry "2" "tile"; Samples.entry "1" "brick"]
                            Samples.fresh))).
  apply (bool_decide_unpack _). vm_compute. reflexivity.
Defined.

Lemma story_of_at_most_five_witness :
  (length (selectedEntries
             (foldl (λ w id, (toggleStoryWordSelection id w).2)
                    (set_notebook [Samples.entry "2" "tile"; Samples.entry "1" "brick"]
                                  Samples.fresh)
                    ["1"; "2"; "1"])) ≤ 5)%nat.
Proof.
  apply (story_of_at_most_five ["1"; "2"; "1"]
           (set_notebook [Samples.entry "2" "tile"; Samples.entry "1" "brick"]
                         Samples.fresh)).
  - reflexivity.
  - apply (bool_decide_unpack _). vm_compute. reflexivity.
Defined.

End StoryRuns.
